(** * DSH.MIfile: multi-image files

    A shallow embedding of [DSH/MIfile.py]: the region and range
    validators, the [MIfile] class (offset arithmetic, reads, chunked
    writes, handles) and [MergeMIfiles], followed by the properties of
    the specification that concern them.

    Conventions of the embedding.
    - Python exceptions are values of [exn]; a computation yields a
      [result] together with the state it leaves behind, so that what was
      mutated before a [raise] stays mutated.
    - Python [list] objects that callers hand to the validators live in a
      heap of lists and are passed by reference.
    - Files are byte sequences (bytes are integers in [0, 256)).
    - A numpy array is its element type, its shape and its row-major
      buffer. *)

From Stdlib Require Import ZArith Lia List Bool String.
From stdpp Require Import base option list gmap strings.

Local Open Scope Z_scope.

(** ** Exceptions and the state-and-exception monad *)

(** The exceptions of the module, with what their messages name.
    [IOError_EOF] is the error of [_read_pixels]: the seek offset, the
    number of bytes obtained, the number of bytes asked for, the number
    of pixels and the file.  [IOError_shapes] and [IOError_format] are
    the two errors of the loading loop of [MergeMIfiles],
    [IOError_large_array] the error of [WriteData], [ValueError_pixels]
    the error of the reshape in [MergeMIfiles]; the two assertion errors
    are those of [ValidateROI].  The others are raised by Python and
    numpy themselves. *)
Inductive exn : Type :=
  | AssertionError_topleft (coord bound : Z)
  | AssertionError_ROI (roi shape : list Z)
  | IOError_EOF (seek_pos : option Z) (got wanted px_num : Z)
                (fname : option string)
  | IOError_shapes (out_shape cur_shape : list Z) (axis : Z)
  | IOError_format
  | IOError_large_array
  | FileNotFoundError (fname : string)
  | OSError_invalid_argument
  | ValueError_pixels (out_shape re_shape : list Z)
  | ValueError
  | IndexError
  | TypeError
  | AttributeError
  | ZeroDivisionError
  | OverflowError
  | StructError
  | Unmodelled. (* no Python exception: a floating-point conversion that
                   the embedding does not compute *)

Inductive result (A : Type) : Type :=
  | Ok (a : A)
  | Raise (e : exn).
Arguments Ok {A} a.
Arguments Raise {A} e.

Definition is_Ok {A} (r : result A) : bool :=
  match r with Ok _ => true | Raise _ => false end.

Definition ST (S A : Type) : Type := S -> result A * S.

Definition ret {S A} (a : A) : ST S A := fun s => (Ok a, s).
Definition raise {S A} (e : exn) : ST S A := fun s => (Raise e, s).
Definition bind {S A B} (m : ST S A) (k : A -> ST S B) : ST S B :=
  fun s => match m s with
           | (Ok a, s') => k a s'
           | (Raise e, s') => (Raise e, s')
           end.
Definition get {S} : ST S S := fun s => (Ok s, s).
Definition put {S} (s : S) : ST S unit := fun _ => (Ok tt, s).
Definition liftR {S A} (r : result A) : ST S A := fun s => (r, s).

Notation "x <- m ;; k" := (bind m (fun x => k))
  (at level 100, m at next level, right associativity).
Notation "m ;;; k" := (bind m (fun _ => k))
  (at level 100, right associativity).

(** [for x in xs: body x] *)
Fixpoint for_each {S A} (xs : list A) (body : A -> ST S unit) : ST S unit :=
  match xs with
  | [] => ret tt
  | x :: xs' => body x ;;; for_each xs' body
  end.

(** A loop that carries an accumulator. *)
Fixpoint fold_ST {S A B} (xs : list A) (body : B -> A -> ST S B) (b : B)
  : ST S B :=
  match xs with
  | [] => ret b
  | x :: xs' => b' <- body b x ;; fold_ST xs' body b'
  end.

(** Pure code that may raise. *)
Definition rbind {A B} (r : result A) (k : A -> result B) : result B :=
  match r with Ok a => k a | Raise e => Raise e end.

Fixpoint rmap {A B} (f : A -> result B) (xs : list A) : result (list B) :=
  match xs with
  | [] => Ok []
  | x :: xs' =>
      rbind (f x) (fun y => rbind (rmap f xs') (fun ys => Ok (y :: ys)))
  end.

(** ** Python sequences *)

(** [l[i]] with Python's negative indices. *)
Definition py_index {A} (l : list A) (i : Z) : result A :=
  let n := Z.of_nat (length l) in
  let j := if i <? 0 then i + n else i in
  if (0 <=? j) && (j <? n) then
    match l !! Z.to_nat j with Some x => Ok x | None => Raise IndexError end
  else Raise IndexError.

(** [l[i] = x] with Python's negative indices. *)
Definition py_setitem {A} (l : list A) (i : Z) (x : A) : result (list A) :=
  let n := Z.of_nat (length l) in
  let j := if i <? 0 then i + n else i in
  if (0 <=? j) && (j <? n) then Ok (<[Z.to_nat j := x]> l)
  else Raise IndexError.

(** [len(range(a, b, s))], as CPython computes it. *)
Definition range_len (a b s : Z) : Z :=
  if 0 <? s then (if a <? b then (b - a - 1) / s + 1 else 0)
  else if s <? 0 then (if b <? a then (a - b - 1) / (- s) + 1 else 0)
  else 0.

(** [list(range(a, b, s))] for [s <> 0]: item [i] is [a + i * s]. *)
Definition py_range (a b s : Z) : list Z :=
  map (fun i => a + Z.of_nat i * s) (seq 0 (Z.to_nat (range_len a b s))).

(** [range(a, b, s)], which raises ValueError at step 0. *)
Definition range3 (a b s : Z) : result (list Z) :=
  if s =? 0 then Raise ValueError else Ok (py_range a b s).

Definition prod (l : list Z) : Z := fold_right Z.mul 1 l.

(** ** Pixel formats *)

(** The keys of [_data_depth] and [_data_types]:
    'b', 'B', '?', 'h', 'H', 'i', 'I', 'f', 'd'. *)
Inductive px_format : Type :=
  Fb | FB | Fbool | Fh | FH | Fi | FI | Ff | Fd.

Inductive np_dtype : Type :=
  | np_int8 | np_uint8 | np_bool | np_int16 | np_uint16
  | np_int32 | np_uint32 | np_float32 | np_float64
  | np_int64. (* the element type numpy gives to Python ints *)

Global Instance px_format_eq_dec : EqDecision px_format.
Proof. solve_decision. Defined.
Global Instance np_dtype_eq_dec : EqDecision np_dtype.
Proof. solve_decision. Defined.

Definition _data_depth (f : px_format) : Z :=
  match f with
  | Fb => 1 | FB => 1 | Fbool => 1 | Fh => 2 | FH => 2
  | Fi => 4 | FI => 4 | Ff => 4 | Fd => 8
  end.

Definition _data_types (f : px_format) : np_dtype :=
  match f with
  | Fb => np_int8 | FB => np_uint8 | Fbool => np_bool
  | Fh => np_int16 | FH => np_uint16 | Fi => np_int32 | FI => np_uint32
  | Ff => np_float32 | Fd => np_float64
  end.

Definition itemsize (t : np_dtype) : Z :=
  match t with
  | np_int8 | np_uint8 | np_bool => 1
  | np_int16 | np_uint16 => 2
  | np_int32 | np_uint32 | np_float32 => 4
  | np_float64 | np_int64 => 8
  end.

Definition all_formats : list px_format :=
  [Fb; FB; Fbool; Fh; FH; Fi; FI; Ff; Fd].

(** ** Array elements

    An integer or boolean element is the number it holds ([Num 0] and
    [Num 1] for False and True); so is a float that holds an integer
    exactly.  Any other float is given by the bit pattern of the IEEE
    value: [F32 p] is the value whose binary32 pattern is [p], [F64 p]
    the value whose binary64 pattern is [p].  Packing and unpacking move
    these bits and do no arithmetic. *)
Inductive scalar : Type :=
  | Num (z : Z)
  | F32 (bits : Z)
  | F64 (bits : Z).

Global Instance scalar_eq_dec : EqDecision scalar.
Proof. solve_decision. Defined.

(** Two's-complement wrap-around into [bits] bits. *)
Definition wrap_unsigned (bits : Z) (z : Z) : Z := z mod 2 ^ bits.
Definition wrap_signed (bits : Z) (z : Z) : Z :=
  let u := z mod 2 ^ bits in
  if u <? 2 ^ (bits - 1) then u else u - 2 ^ bits.

(** [x.astype(t)] on one element. *)
Definition astype1 (t : np_dtype) (v : scalar) : result scalar :=
  match t, v with
  | np_int8, Num z => Ok (Num (wrap_signed 8 z))
  | np_int16, Num z => Ok (Num (wrap_signed 16 z))
  | np_int32, Num z => Ok (Num (wrap_signed 32 z))
  | np_int64, Num z => Ok (Num (wrap_signed 64 z))
  | np_uint8, Num z => Ok (Num (wrap_unsigned 8 z))
  | np_uint16, Num z => Ok (Num (wrap_unsigned 16 z))
  | np_uint32, Num z => Ok (Num (wrap_unsigned 32 z))
  | np_bool, Num z => Ok (Num (if z =? 0 then 0 else 1))
  | np_float32, Num z =>
      if Z.abs z <=? 2 ^ 24 then Ok (Num z) else Raise Unmodelled
  | np_float64, Num z =>
      if Z.abs z <=? 2 ^ 53 then Ok (Num z) else Raise Unmodelled
  | np_float32, F32 p => Ok (F32 p)
  | np_float64, F32 p => Ok (F32 p) (* widening keeps the value *)
  | np_float64, F64 p => Ok (F64 p)
  | _, _ => Raise Unmodelled
  end.

(** ** Byte strings of fixed-width values *)

Inductive byteorder : Type := little_endian | big_endian.

Fixpoint le_bytes (n : nat) (z : Z) : list Z :=
  match n with
  | O => []
  | S n' => z mod 256 :: le_bytes n' (z / 256)
  end.

Fixpoint le_value (bs : list Z) : Z :=
  match bs with
  | [] => 0
  | b :: r => b + 256 * le_value r
  end.

Definition to_bytes (order : byteorder) (n : nat) (z : Z) : list Z :=
  match order with
  | little_endian => le_bytes n z
  | big_endian => rev (le_bytes n z)
  end.

Definition from_bytes (order : byteorder) (bs : list Z) : Z :=
  match order with
  | little_endian => le_value bs
  | big_endian => le_value (rev bs)
  end.

Definition fmt_bits (f : px_format) : Z := 8 * _data_depth f.

(** The values [struct.pack] accepts for a format. *)
Definition packable (f : px_format) (v : scalar) : bool :=
  match f, v with
  | (Fb | Fh | Fi), Num z =>
      (- 2 ^ (fmt_bits f - 1) <=? z) && (z <? 2 ^ (fmt_bits f - 1))
  | (FB | FH | FI), Num z => (0 <=? z) && (z <? 2 ^ fmt_bits f)
  | Fbool, Num z => true
  | Ff, F32 p => (0 <=? p) && (p <? 2 ^ 32)
  | Fd, F64 p => (0 <=? p) && (p <? 2 ^ 64)
  | _, _ => false
  end.

(** One value of [struct.pack(fmt, ...)], in the platform's byte order. *)
Definition pack1 (order : byteorder) (f : px_format) (v : scalar)
  : result (list Z) :=
  let n := Z.to_nat (_data_depth f) in
  match f, v with
  | (Fb | Fh | Fi), Num z =>
      if packable f v then Ok (to_bytes order n (wrap_unsigned (fmt_bits f) z))
      else Raise StructError
  | (FB | FH | FI), Num z =>
      if packable f v then Ok (to_bytes order n z) else Raise StructError
  | Fbool, Num z => Ok [if z =? 0 then 0 else 1]
  | Ff, F32 p => if packable f v then Ok (to_bytes order n p) else Raise Unmodelled
  | Fd, F64 p => if packable f v then Ok (to_bytes order n p) else Raise Unmodelled
  | _, _ => Raise Unmodelled
  end.

(** One value of [struct.unpack(fmt, bytes)]. *)
Definition unpack1 (order : byteorder) (f : px_format) (bs : list Z) : scalar :=
  let u := from_bytes order bs in
  match f with
  | Fb | Fh | Fi => Num (wrap_signed (fmt_bits f) u)
  | FB | FH | FI => Num u
  | Fbool => Num (if u =? 0 then 0 else 1)
  | Ff => F32 u
  | Fd => F64 u
  end.

(** Cut a byte string into [count] runs of [width] bytes. *)
Fixpoint split_bytes (count : nat) (width : nat) (bs : list Z)
  : list (list Z) :=
  match count with
  | O => []
  | S c => take width bs :: split_bytes c width (drop width bs)
  end.

(** [struct.pack('%s' + fmt % len(data), *data)] *)
Definition struct_pack (order : byteorder) (f : px_format) (vs : list scalar)
  : result (list Z) :=
  rbind (rmap (pack1 order f) vs) (fun bss => Ok (concat bss)).

(** [struct.unpack('%s' + fmt % count, bytes)]: the byte string must have
    exactly the size of the format. *)
Definition struct_unpack (order : byteorder) (f : px_format) (count : Z)
    (bs : list Z) : result (list scalar) :=
  if count <? 0 then Raise StructError
  else if Z.of_nat (length bs) =? count * _data_depth f then
    Ok (map (unpack1 order f)
          (split_bytes (Z.to_nat count) (Z.to_nat (_data_depth f)) bs))
  else Raise StructError.

(** ** numpy arrays *)

Record ndarray : Type := {
  nd_dtype : np_dtype;
  nd_shape : list Z;
  nd_data : list scalar
}.

Definition nd_size (a : ndarray) : Z := Z.of_nat (length (nd_data a)).

(** [a.reshape(new_shape)] for explicit, non-negative extents. *)
Definition reshape (a : ndarray) (new_shape : list Z) : result ndarray :=
  if forallb (Z.leb 0) new_shape && (prod new_shape =? nd_size a) then
    Ok {| nd_dtype := nd_dtype a; nd_shape := new_shape; nd_data := nd_data a |}
  else Raise ValueError.

(** [a.flatten()] *)
Definition flatten (a : ndarray) : ndarray :=
  {| nd_dtype := nd_dtype a; nd_shape := [nd_size a]; nd_data := nd_data a |}.

(** [a.astype(t)] *)
Definition astype (a : ndarray) (t : np_dtype) : result ndarray :=
  rbind (rmap (astype1 t) (nd_data a)) (fun vs =>
  Ok {| nd_dtype := t; nd_shape := nd_shape a; nd_data := vs |}).

(** [len(a)] *)
Definition np_len (a : ndarray) : result Z :=
  match nd_shape a with
  | [] => Raise TypeError
  | n :: _ => Ok n
  end.

(** [a[0]] *)
Definition getitem0 (a : ndarray) : result ndarray :=
  match nd_shape a with
  | [] => Raise IndexError
  | n :: rest =>
      if 0 <? n then
        Ok {| nd_dtype := nd_dtype a; nd_shape := rest;
              nd_data := take (Z.to_nat (prod rest)) (nd_data a) |}
      else Raise IndexError
  end.

(** A slice bound of Python, clamped to [0, n]. *)
Definition slice_bound (n i : Z) : Z :=
  if i <? 0 then Z.max 0 (i + n) else Z.min i n.

(** [a[i:j]], a slice along the outermost axis. *)
Definition slice0 (a : ndarray) (i j : Z) : result ndarray :=
  match nd_shape a with
  | [] => Raise IndexError
  | n :: rest =>
      let lo := slice_bound n i in
      let hi := Z.max lo (slice_bound n j) in
      Ok {| nd_dtype := nd_dtype a; nd_shape := (hi - lo) :: rest;
            nd_data := take (Z.to_nat ((hi - lo) * prod rest))
                         (drop (Z.to_nat (lo * prod rest)) (nd_data a)) |}
  end.

(** [np.asarray(vs)] of a tuple of Python numbers; [t] is the element
    type numpy infers from them ([np_float64] for the empty tuple). *)
Definition asarray_tuple (t : np_dtype) (vs : list scalar) : ndarray :=
  {| nd_dtype := match vs with [] => np_float64 | _ => t end;
     nd_shape := [Z.of_nat (length vs)];
     nd_data := vs |}.

(** [np.asarray(xs)] of a Python list of arrays of one shape. *)
Definition asarray_list (xs : list ndarray) : ndarray :=
  match xs with
  | [] => {| nd_dtype := np_float64; nd_shape := [0]; nd_data := [] |}
  | x :: _ =>
      {| nd_dtype := nd_dtype x;
         nd_shape := Z.of_nat (length xs) :: nd_shape x;
         nd_data := concat (map nd_data xs) |}
  end.

Definition is_signed (t : np_dtype) : bool :=
  match t with np_int8 | np_int16 | np_int32 | np_int64 => true | _ => false end.
Definition is_unsigned (t : np_dtype) : bool :=
  match t with np_uint8 | np_uint16 | np_uint32 => true | _ => false end.
Definition is_float (t : np_dtype) : bool :=
  match t with np_float32 | np_float64 => true | _ => false end.

Definition signed_of_size (n : Z) : np_dtype :=
  if n <=? 1 then np_int8 else if n <=? 2 then np_int16
  else if n <=? 4 then np_int32 else np_int64.

(** numpy's type promotion on the element types above. *)
Definition result_type (t u : np_dtype) : np_dtype :=
  if decide (t = u) then t
  else match t, u with
  | np_bool, _ => u
  | _, np_bool => t
  | np_float64, _ | _, np_float64 => np_float64
  | np_float32, i | i, np_float32 =>
      if itemsize i <=? 2 then np_float32 else np_float64
  | _, _ =>
      if is_signed t && is_signed u || is_unsigned t && is_unsigned u then
        (if itemsize t <? itemsize u then u else t)
      else
        let s := if is_signed t then t else u in
        let n := if is_signed t then u else t in
        if itemsize n <? itemsize s then s
        else signed_of_size (2 * itemsize n)
  end.

Fixpoint interleave_blocks (outer na nb : nat) (xa xb : list scalar)
  : list scalar :=
  match outer with
  | O => []
  | S o => take na xa ++ take nb xb
           ++ interleave_blocks o na nb (drop na xa) (drop nb xb)
  end.

(** The extents off axis [k] agree. *)
Definition same_off_axis (k : nat) (sa sb : list Z) : bool :=
  bool_decide (take k sa = take k sb) && bool_decide (drop (S k) sa = drop (S k) sb).

(** [np.append(a, b, axis=axis)]: concatenation along [axis]. *)
Definition np_append (a b : ndarray) (axis : Z) : result ndarray :=
  let nda := Z.of_nat (length (nd_shape a)) in
  let ax := if axis <? 0 then axis + nda else axis in
  if negb ((0 <=? ax) && (ax <? nda)) then Raise ValueError
  else if negb (length (nd_shape a) =? length (nd_shape b))%nat then Raise ValueError
  else
    let k := Z.to_nat ax in
    if negb (same_off_axis k (nd_shape a) (nd_shape b)) then Raise ValueError
    else
      let t := result_type (nd_dtype a) (nd_dtype b) in
      rbind (rmap (astype1 t) (nd_data a)) (fun va =>
      rbind (rmap (astype1 t) (nd_data b)) (fun vb =>
      let ea := nth k (nd_shape a) 0 in
      let eb := nth k (nd_shape b) 0 in
      let inner := prod (drop (S k) (nd_shape a)) in
      Ok {| nd_dtype := t;
            nd_shape := take k (nd_shape a) ++ (ea + eb) :: drop (S k) (nd_shape a);
            nd_data := interleave_blocks
                         (Z.to_nat (prod (take k (nd_shape a))))
                         (Z.to_nat (ea * inner)) (Z.to_nat (eb * inner))
                         va vb |})).

(** ** Metadata

    Modelled from the spec: the class [Config] of [DSH/Config.py] is not
    part of the sources at hand.  The specification describes it as a
    key-value store with the recognised keys below; a key that is absent
    is [None], and [Get] then answers with the default the caller
    passes.  Frame rate and pixel size are floats that the code only
    carries around: they are kept as binary64 bit patterns. *)
Record Config : Type := {
  cfg_filename : option string;
  cfg_hdr_len : option Z;
  cfg_shape : option (list Z);
  cfg_px_format : option px_format;
  cfg_fps : option Z;
  cfg_px_size : option Z;
  cfg_max_buffer_size : option Z
}.

(** [Get(section, key, default, type)] *)
Definition Get {A} (entry : option A) (default : A) : A :=
  match entry with Some v => v | None => default end.

Definition float_0_0 : Z := 0.
Definition float_1_0 : Z := 4607182418800017408. (* 0x3FF0000000000000 *)

(** ** The world: files, the heap of Python lists, exported metadata

    [write_calls] records every call of [write] on a file handle, in
    order: the file and the byte string handed over. *)

Definition loc := nat.

Record world : Type := {
  files : gmap string (list Z);
  write_calls : list (string * list Z);
  heap : list (list Z);
  exported : list (string * Config)
}.

Definition set_files (w : world) (fs : gmap string (list Z)) : world :=
  {| files := fs; write_calls := write_calls w; heap := heap w;
     exported := exported w |}.
Definition set_heap (w : world) (h : list (list Z)) : world :=
  {| files := files w; write_calls := write_calls w; heap := h;
     exported := exported w |}.
Definition log_write (w : world) (name : string) (bs : list Z) : world :=
  {| files := files w; write_calls := write_calls w ++ [(name, bs)];
     heap := heap w; exported := exported w |}.
Definition log_export (w : world) (path : string) (c : Config) : world :=
  {| files := files w; write_calls := write_calls w; heap := heap w;
     exported := exported w ++ [(path, c)] |}.

(** A new list object. *)
Definition alloc (l : list Z) : ST world loc :=
  fun w => (Ok (length (heap w)), set_heap w (heap w ++ [l])).

(** The list behind a reference.  Python has no dangling references; a
    reference outside the heap is answered with TypeError. *)
Definition deref (r : loc) : ST world (list Z) :=
  fun w => match heap w !! r with
           | Some l => (Ok l, w)
           | None => (Raise TypeError, w)
           end.

(** [r[i]] *)
Definition list_getitem (r : loc) (i : Z) : ST world Z :=
  l <- deref r ;; liftR (py_index l i).

(** [r[i] = x], in place. *)
Definition list_setitem (r : loc) (i : Z) (x : Z) : ST world unit :=
  l <- deref r ;;
  l' <- liftR (py_setitem l i x) ;;
  fun w => (Ok tt, set_heap w (<[r := l']> (heap w))).

(** [r.append(x)], in place. *)
Definition list_append (r : loc) (x : Z) : ST world unit :=
  l <- deref r ;;
  fun w => (Ok tt, set_heap w (<[r := l ++ [x]]> (heap w))).

Definition assert {S} (b : bool) (e : exn) : ST S unit :=
  if b then ret tt else raise e.

(** ** The validators *)

Definition ValidateROI (ROI : option loc) (ImageShape : list Z)
    (replaceNone : bool) : ST world (option loc) :=
  match ROI with
  | None =>
      if replaceNone then
        cols <- liftR (py_index ImageShape 1) ;;
        rows <- liftR (py_index ImageShape 0) ;;
        r <- alloc [0; 0; cols; rows] ;;
        ret (Some r)
      else ret None
  | Some r =>
      x <- list_getitem r 0 ;;
      cols <- liftR (py_index ImageShape 1) ;;
      assert ((0 <=? x) && (x <? cols)) (AssertionError_topleft x (cols - 1)) ;;;
      y <- list_getitem r 1 ;;
      rows <- liftR (py_index ImageShape 0) ;;
      assert ((0 <=? y) && (y <? rows)) (AssertionError_topleft y (rows - 1)) ;;;
      wd <- list_getitem r 2 ;;
      (if wd <? 0 then list_setitem r 2 (cols - x) else ret tt) ;;;
      ht <- list_getitem r 3 ;;
      (if ht <? 0 then list_setitem r 3 (rows - y) else ret tt) ;;;
      wd' <- list_getitem r 2 ;;
      cur <- deref r ;;
      assert (wd' + x <=? cols) (AssertionError_ROI cur ImageShape) ;;;
      ht' <- list_getitem r 3 ;;
      assert (ht' + y <=? rows) (AssertionError_ROI cur ImageShape) ;;;
      ret (Some r)
  end.

Definition Validate_zRange (zRange : option loc) (zSize : Z)
    (replaceNone : bool) : ST world (option loc) :=
  match zRange with
  | None =>
      if replaceNone then r <- alloc [0; zSize; 1] ;; ret (Some r)
      else ret None
  | Some r =>
      e <- list_getitem r 1 ;;
      (if e <? 0 then list_setitem r 1 zSize else ret tt) ;;;
      l <- deref r ;;
      (if (length l <? 3)%nat then list_append r 1 else ret tt) ;;;
      ret (Some r)
  end.

(** ** File handles *)

Record rhandle : Type := { rh_name : string; rh_pos : Z }.
Record whandle : Type := { wh_name : string; wh_pos : Z }.

Definition file_content (w : world) (name : string) : list Z :=
  default [] (files w !! name).

(** [h.read(n)]: the bytes and the handle moved past them.  [read(-1)]
    reads to the end of the file, another negative size is refused. *)
Definition file_read (h : rhandle) (n : Z) (w : world)
  : result (list Z * rhandle) :=
  let rest := drop (Z.to_nat (rh_pos h)) (file_content w (rh_name h)) in
  if n <? -1 then Raise ValueError
  else
    let got := if n =? -1 then rest else take (Z.to_nat n) rest in
    Ok (got, {| rh_name := rh_name h;
                rh_pos := rh_pos h + Z.of_nat (length got) |}).

(** [h.seek(p)] when a position is given; a negative one is refused. *)
Definition file_seek (h : rhandle) (seek_pos : option Z) : result rhandle :=
  match seek_pos with
  | Some p =>
      if p <? 0 then Raise OSError_invalid_argument
      else Ok {| rh_name := rh_name h; rh_pos := p |}
  | None => Ok h
  end.

(** [h.write(bs)] at the position of the handle; a gap is zero-filled. *)
Definition file_write (h : whandle) (bs : list Z) (w : world)
  : whandle * world :=
  let old := file_content w (wh_name h) in
  let pos := Z.to_nat (wh_pos h) in
  let new := take pos old ++ replicate (pos - length old)%nat 0
             ++ bs ++ drop (pos + length bs)%nat old in
  ({| wh_name := wh_name h; wh_pos := wh_pos h + Z.of_nat (length bs) |},
   log_write (set_files w (<[wh_name h := new]> (files w))) (wh_name h) bs).

(** ** The class MIfile *)

Record MIfile : Type := {
  FileName : option string;
  ReadFileHandle : option rhandle;
  WriteFileHandle : option whandle;
  ReadingFileName : option string;
  MetaData : Config;
  MaxBufferSize : Z;
  hdrSize : Z;
  Shape : list Z;
  ImgNumber : Z;
  ImgHeight : Z;
  ImgWidth : Z;
  PxPerImg : Z;
  PixelFormat : px_format;
  PixelDepth : Z;
  PixelDataType : np_dtype;
  FPS : Z;
  PixelSize : Z
}.

(** Assignment to the three attributes that change after construction. *)
Definition set_handles (self : MIfile) (rh : option rhandle)
    (wh : option whandle) (rname : option string) : MIfile :=
  {| FileName := FileName self;
     ReadFileHandle := rh;
     WriteFileHandle := wh;
     ReadingFileName := rname;
     MetaData := MetaData self;
     MaxBufferSize := MaxBufferSize self;
     hdrSize := hdrSize self;
     Shape := Shape self;
     ImgNumber := ImgNumber self;
     ImgHeight := ImgHeight self;
     ImgWidth := ImgWidth self;
     PxPerImg := PxPerImg self;
     PixelFormat := PixelFormat self;
     PixelDepth := PixelDepth self;
     PixelDataType := PixelDataType self;
     FPS := FPS self;
     PixelSize := PixelSize self |}.

(** A method runs on the object and the world. *)
Definition Meth (A : Type) : Type := ST (MIfile * world) A.

Definition self_ : Meth MIfile := fun s => (Ok (fst s), s).
Definition set_self (m : MIfile) : Meth unit := fun s => (Ok tt, (m, snd s)).
Definition in_world {A} (c : ST world A) : Meth A :=
  fun s => let (r, w') := c (snd s) in (r, (fst s, w')).

(** [obj.method(...)] called from code that holds [obj]. *)
Definition call {A} (obj : MIfile) (m : Meth A) : ST world (A * MIfile) :=
  fun w => match m (obj, w) with
           | (Ok a, (obj', w')) => (Ok (a, obj'), w')
           | (Raise e, (_, w')) => (Raise e, w')
           end.

(** The element type of [np.asarray(struct.unpack(...))]. *)
Definition unpacked_dtype (f : px_format) : np_dtype :=
  match f with
  | Fbool => np_bool
  | Ff | Fd => np_float64
  | _ => np_int64
  end.

(** A pixel location argument of [GetTimetraces]: one location, or a
    list of locations. *)
Inductive px_locs : Type :=
  | OneLoc (row col : Z)
  | Locs (l : list (Z * Z)).

Section MIfile_class.

(** The byte order of the platform ([struct] is used in native mode). *)
Variable order : byteorder.
(** [sys.getsizeof] on arrays.  Nothing is assumed of it. *)
Variable getsizeof : ndarray -> Z.
(** The entries of [config_MIfile.ini], which is not among the sources. *)
Variable default_settings : Config.

Definition or_else {A} (x y : option A) : option A :=
  match x with Some _ => x | None => y end.

(** Entries of the metadata win over those of the default file. *)
Definition with_defaults (c : Config) : Config :=
  {| cfg_filename := or_else (cfg_filename c) (cfg_filename default_settings);
     cfg_hdr_len := or_else (cfg_hdr_len c) (cfg_hdr_len default_settings);
     cfg_shape := or_else (cfg_shape c) (cfg_shape default_settings);
     cfg_px_format := or_else (cfg_px_format c) (cfg_px_format default_settings);
     cfg_fps := or_else (cfg_fps c) (cfg_fps default_settings);
     cfg_px_size := or_else (cfg_px_size c) (cfg_px_size default_settings);
     cfg_max_buffer_size :=
       or_else (cfg_max_buffer_size c) (cfg_max_buffer_size default_settings) |}.

(** [MIfile(FileName, MetaData)]: [__init__] and [_load_metadata]. *)
Definition MIfile_init (FileName0 : option string) (MetaData0 : Config)
  : result MIfile :=
  let md := with_defaults MetaData0 in
  let shape := Get (cfg_shape md) [0; 0; 0] in
  let fmt := Get (cfg_px_format md) FB in
  rbind (py_index shape 0) (fun n =>
  rbind (py_index shape 1) (fun h =>
  rbind (py_index shape 2) (fun wd =>
  Ok {| FileName := match FileName0 with
                    | Some f => Some f
                    | None => cfg_filename md
                    end;
        ReadFileHandle := None;
        WriteFileHandle := None;
        ReadingFileName := None;
        MetaData := md;
        MaxBufferSize := Get (cfg_max_buffer_size md) 100000000;
        hdrSize := Get (cfg_hdr_len md) 0;
        Shape := shape;
        ImgNumber := n;
        ImgHeight := h;
        ImgWidth := wd;
        PxPerImg := h * wd;
        PixelFormat := fmt;
        PixelDepth := _data_depth fmt;
        PixelDataType := _data_types fmt;
        FPS := Get (cfg_fps md) float_1_0;
        PixelSize := Get (cfg_px_size md) float_1_0 |}))).

Definition OpenForReading (fName : option string) : Meth unit :=
  fun s =>
    let (self, w) := s in
    match ReadFileHandle self with
    | Some _ => (Ok tt, s)
    | None =>
        match or_else fName (FileName self) with
        | None => (Raise TypeError, s)
        | Some f =>
            match files w !! f with
            | None => (Raise (FileNotFoundError f), s)
            | Some _ =>
                (Ok tt,
                 (set_handles self (Some {| rh_name := f; rh_pos := 0 |})
                    (WriteFileHandle self) (Some f), w))
            end
        end
    end.

Definition Close (read write : bool) : Meth unit :=
  self <- self_ ;;
  (if read && bool_decide (WriteFileHandle self <> None) then
     set_self (set_handles self (ReadFileHandle self) None
                 (ReadingFileName self))
   else ret tt) ;;;
  self <- self_ ;;
  (if write && bool_decide (ReadFileHandle self <> None) then
     set_self (set_handles self None (WriteFileHandle self)
                 (ReadingFileName self))
   else ret tt).

Definition ImageShape (self : MIfile) : list Z :=
  [ImgHeight self; ImgWidth self].
Definition GetShape (self : MIfile) : list Z := Shape self.
Definition DataFormat (self : MIfile) : px_format := PixelFormat self.
Definition DataType (self : MIfile) : np_dtype := PixelDataType self.
Definition GetFPS (self : MIfile) : Z := FPS self.
Definition GetPixelSize (self : MIfile) : Z := PixelSize self.

Definition MIfile_ValidateROI (ROI : option loc) : Meth (option loc) :=
  self <- self_ ;; in_world (ValidateROI ROI (ImageShape self) false).

Definition MIfile_Validate_zRange (zRange : option loc) : Meth (option loc) :=
  self <- self_ ;; in_world (Validate_zRange zRange (ImgNumber self) true).

Definition _get_offset (self : MIfile) (img_idx row_idx col_idx : Z) : Z :=
  hdrSize self
  + (img_idx * PxPerImg self + row_idx * ImgWidth self + col_idx)
    * PixelDepth self.

Definition _read_pixels (px_num : Z) (seek_pos : option Z) : Meth ndarray :=
  fun s =>
    let (self, w) := s in
    match ReadFileHandle self with
    | None => (Raise AttributeError, s)
    | Some h =>
        match file_seek h seek_pos with
        | Raise e => (Raise e, s)
        | Ok h1 =>
            let bytes_to_read := px_num * PixelDepth self in
            match file_read h1 bytes_to_read w with
            | Raise e =>
                (Raise e,
                 (set_handles self (Some h1) (WriteFileHandle self)
                    (ReadingFileName self), w))
            | Ok (fileContent, h2) =>
                let self' := set_handles self (Some h2) (WriteFileHandle self)
                               (ReadingFileName self) in
                let got := Z.of_nat (length fileContent) in
                if got <? bytes_to_read then
                  (Raise (IOError_EOF seek_pos got bytes_to_read px_num
                            (ReadingFileName self)), (self', w))
                else
                  match struct_unpack order (PixelFormat self) px_num
                          fileContent with
                  | Raise e => (Raise e, (self', w))
                  | Ok vs =>
                      (Ok (asarray_tuple (unpacked_dtype (PixelFormat self)) vs),
                       (self', w))
                  end
            end
        end
    end.

Definition GetStack (start_idx imgs_num : Z) : Meth ndarray :=
  self <- self_ ;;
  let imgs_num := if imgs_num <? 0 then ImgNumber self - start_idx
                  else imgs_num in
  res_arr <- _read_pixels (imgs_num * PxPerImg self)
               (Some (_get_offset self start_idx 0 0)) ;;
  liftR (reshape res_arr [imgs_num; ImgHeight self; ImgWidth self]).

Definition GetImage (img_idx : Z) (cropROI : option loc) : Meth ndarray :=
  match cropROI with
  | None =>
      self <- self_ ;;
      st <- GetStack img_idx 1 ;;
      liftR (reshape st [ImgHeight self; ImgWidth self])
  | Some _ =>
      validated <- MIfile_ValidateROI cropROI ;;
      match validated with
      | None => raise TypeError
      | Some r =>
          self <- self_ ;;
          c0 <- in_world (list_getitem r 0) ;;
          c2 <- in_world (list_getitem r 2) ;;
          if (c0 =? 0) && (c2 =? ImgWidth self) then
            c3 <- in_world (list_getitem r 3) ;;
            c1 <- in_world (list_getitem r 1) ;;
            res_arr <- _read_pixels (c2 * c3)
                         (Some (_get_offset self img_idx c1 c0)) ;;
            liftR (reshape res_arr [c3; c2])
          else
            c1 <- in_world (list_getitem r 1) ;;
            c3 <- in_world (list_getitem r 3) ;;
            res <- fold_ST (py_range c1 (c1 + c3) 1)
                     (fun res row_idx =>
                        row <- _read_pixels c2
                                 (Some (_get_offset self img_idx row_idx c0)) ;;
                        ret (res ++ [row]))
                     [] ;;
            ret (asarray_list res)
      end
  end.

Definition Read (zRange cropROI : option loc) (closeAfter : bool)
  : Meth ndarray :=
  OpenForReading None ;;;
  validated <- MIfile_Validate_zRange zRange ;;
  match validated with
  | None => raise TypeError
  | Some z =>
      z2 <- in_world (list_getitem z 2) ;;
      res_3D <-
        (if (z2 =? 1) && bool_decide (cropROI = None) then
           z0 <- in_world (list_getitem z 0) ;;
           z1 <- in_world (list_getitem z 1) ;;
           GetStack z0 (z1 - z0)
         else
           z0 <- in_world (list_getitem z 0) ;;
           z1 <- in_world (list_getitem z 1) ;;
           idxs <- liftR (range3 z0 z1 z2) ;;
           res <- fold_ST idxs
                    (fun res img_idx =>
                       img <- GetImage img_idx cropROI ;;
                       ret (res ++ [img]))
                    [] ;;
           ret (asarray_list res)) ;;
      (if closeAfter then Close true true else ret tt) ;;;
      ret res_3D
  end.

(** [res[pidx, zidx] = value], [value] an array of one element that
    numpy converts to the element type of [res]. *)
Definition setitem2 (res : ndarray) (pidx zidx : nat) (value : ndarray)
  : result ndarray :=
  match nd_shape res, nd_data value with
  | [_; nz], [v] =>
      rbind (astype1 (nd_dtype res) v) (fun v' =>
      Ok {| nd_dtype := nd_dtype res; nd_shape := nd_shape res;
            nd_data := <[(pidx * Z.to_nat nz + zidx)%nat := v']> (nd_data res) |})
  | _, _ => Raise ValueError
  end.

(** [np.empty((n, m))]: a float64 array; its initial content is
    arbitrary, here zeros. *)
Definition np_empty2 (n m : nat) : ndarray :=
  {| nd_dtype := np_float64;
     nd_shape := [Z.of_nat n; Z.of_nat m];
     nd_data := replicate (n * m) (Num 0) |}.

Definition enumerate {A} (l : list A) : list (nat * A) :=
  zip (seq 0 (length l)) l.

Definition GetTimetraces (pxLocs : px_locs) (zRange : option loc)
  : Meth ndarray :=
  validated <- MIfile_Validate_zRange zRange ;;
  match validated with
  | None => raise TypeError
  | Some z =>
      zl <- in_world (deref z) ;;
      list_z <- match zl with
                | [a; b; c] => liftR (range3 a b c)
                | _ => raise TypeError
                end ;;
      locs <- match pxLocs with
              | OneLoc r c => ret [(r, c)]
              | Locs [] => raise IndexError
              | Locs l => ret l
              end ;;
      res <- fold_ST (enumerate list_z)
               (fun res zi =>
                  fold_ST (enumerate locs)
                    (fun res pl =>
                       self <- self_ ;;
                       px <- _read_pixels 1
                               (Some (_get_offset self (snd zi)
                                        (fst (snd pl)) (snd (snd pl)))) ;;
                       liftR (setitem2 res (fst pl) (fst zi) px))
                    res)
               (np_empty2 (length locs) (length list_z)) ;;
      if (length locs =? 1)%nat then ret (flatten res) else ret res
  end.

(** [self.WriteFileHandle.write(bs)] *)
Definition handle_write (bs : list Z) : Meth unit :=
  fun s =>
    let (self, w) := s in
    match WriteFileHandle self with
    | None => (Raise AttributeError, s)
    | Some h =>
        let (h', w') := file_write h bs w in
        (Ok tt, (set_handles self (ReadFileHandle self) (Some h')
                   (ReadingFileName self), w'))
    end.

(** [if self.WriteFileHandle is None: self.WriteFileHandle = open(f, 'wb')];
    opening creates the file or empties it. *)
Definition open_wb (fName : option string) : Meth unit :=
  fun s =>
    let (self, w) := s in
    match WriteFileHandle self with
    | Some _ => (Ok tt, s)
    | None =>
        match or_else fName (FileName self) with
        | None => (Raise TypeError, s)
        | Some f =>
            (Ok tt,
             (set_handles self (ReadFileHandle self)
                (Some {| wh_name := f; wh_pos := 0 |}) (ReadingFileName self),
              set_files w (<[f := []]> (files w))))
        end
    end.

(** A header record is a format and a value; of the [struct] formats
    the nine pixel formats are covered. *)
Definition OpenForWriting (fName : option string)
    (WriteHeader : option (list (px_format * scalar))) : Meth unit :=
  open_wb fName ;;;
  match WriteHeader with
  | None => ret tt
  | Some hdr =>
      buf <- liftR (rmap (fun e => pack1 order (fst e) (snd e)) hdr) ;;
      handle_write (concat buf)
  end.

Definition _imgs_to_bytes (data : ndarray) (data_format : px_format)
    (do_flatten : bool) : result (list Z) :=
  rbind (astype (if do_flatten then flatten data else data)
           (_data_types data_format)) (fun data' =>
  if (length (nd_shape data') =? 1)%nat then
    struct_pack order data_format (nd_data data')
  else Raise StructError).

Definition WriteData (data_arr : ndarray) (closeAfter : bool) : Meth unit :=
  OpenForWriting None None ;;;
  self <- self_ ;;
  (if getsizeof data_arr >? MaxBufferSize self then
     first <- liftR (getitem0 data_arr) ;;
     if getsizeof first >? MaxBufferSize self then raise IOError_large_array
     else
       let n_elem_xsec := nd_size (flatten first) in
       if n_elem_xsec =? 0 then raise ZeroDivisionError
       else
         let xsec_per_buffer := Z.max 1 (MaxBufferSize self / n_elem_xsec) in
         n <- liftR (np_len data_arr) ;;
         for_each (py_range 0 n xsec_per_buffer) (fun i =>
           chunk <- liftR (slice0 data_arr i (Z.min (i + xsec_per_buffer) n)) ;;
           bs <- liftR (_imgs_to_bytes chunk (PixelFormat self) true) ;;
           handle_write bs)
   else
     bs <- liftR (_imgs_to_bytes data_arr (PixelFormat self) true) ;;
     handle_write bs) ;;;
  if closeAfter then Close true true else ret tt.

(** ** Merging *)

(** An entry of [MIfileList]: an MIfile object, or a two-element list
    [[MIfilename, MetaData]]. *)
Inductive mi_item : Type :=
  | ItemStore (m : MIfile)
  | ItemPair (fname : option string) (meta : Config).

(** The dictionary [out_meta], with the merge axis and the list of
    loaded stores the first loop carries. *)
Record merge_acc : Type := {
  mi_in_list : list MIfile;
  out_shape : list Z;
  out_px_format : option px_format;
  out_fps : Z;
  out_px_size : Z;
  merge_axis : Z
}.

Definition out_meta (acc : merge_acc) (shape : list Z) : Config :=
  {| cfg_filename := None;
     cfg_hdr_len := Some 0;
     cfg_shape := Some shape;
     cfg_px_format := out_px_format acc;
     cfg_fps := Some (out_fps acc);
     cfg_px_size := Some (out_px_size acc);
     cfg_max_buffer_size := None |}.

(** The axes [range(len(cur_MIshape))]. *)
Definition axes (cur_MIshape : list Z) : list Z :=
  py_range 0 (Z.of_nat (length cur_MIshape)) 1.

Fixpoint rfold {A B} (f : B -> A -> result B) (xs : list A) (b : B)
  : result B :=
  match xs with
  | [] => Ok b
  | x :: xs' => rbind (f b x) (rfold f xs')
  end.

(** One turn of the loop that loads the stores and builds [out_meta]. *)
Definition merge_step (acc : merge_acc) (cur_mifile : mi_item)
  : result merge_acc :=
  rbind (match cur_mifile with
         | ItemPair f md => MIfile_init f md
         | ItemStore m => Ok m
         end) (fun add_mi =>
  let cur_MIshape := GetShape add_mi in
  let MergeAxis :=
    if merge_axis acc <? 0 then merge_axis acc + Z.of_nat (length cur_MIshape)
    else merge_axis acc in
  rbind (py_index (out_shape acc) MergeAxis) (fun old =>
  rbind (py_index cur_MIshape MergeAxis) (fun ext =>
  rbind (py_setitem (out_shape acc) MergeAxis (old + ext)) (fun shape1 =>
  let cur_format := DataFormat add_mi in
  rbind (py_index shape1 1) (fun height =>
  if height =? 0 then
    rbind (rfold (fun shape ax =>
                    if negb (ax =? MergeAxis) then
                      rbind (py_index cur_MIshape ax) (fun c =>
                      py_setitem shape ax c)
                    else Ok shape)
             (axes cur_MIshape) shape1) (fun shape2 =>
    Ok {| mi_in_list := mi_in_list acc ++ [add_mi];
          out_shape := shape2;
          out_px_format := Some cur_format;
          out_fps := GetFPS add_mi;
          out_px_size := GetPixelSize add_mi;
          merge_axis := MergeAxis |})
  else
    rbind (rfold (fun (_ : unit) ax =>
                    if negb (ax =? MergeAxis) then
                      rbind (py_index shape1 ax) (fun o =>
                      rbind (py_index cur_MIshape ax) (fun c =>
                      if negb (o =? c) then
                        Raise (IOError_shapes shape1 cur_MIshape MergeAxis)
                      else Ok tt))
                    else Ok tt)
             (axes cur_MIshape) tt) (fun _ =>
    if negb (bool_decide (out_px_format acc = Some cur_format)) then
      Raise IOError_format
    else
      Ok {| mi_in_list := mi_in_list acc ++ [add_mi];
            out_shape := shape1;
            out_px_format := out_px_format acc;
            out_fps := out_fps acc;
            out_px_size := out_px_size acc;
            merge_axis := MergeAxis |})))))).

Definition merge_init (MergeAxis : Z) : merge_acc :=
  {| mi_in_list := [];
     out_shape := [0; 0; 0];
     out_px_format := None;
     out_fps := float_0_0;
     out_px_size := float_0_0;
     merge_axis := MergeAxis |}.

(** [int(np.prod(shape) / (a * b))]: a float quotient cut towards zero.
    Below 2^53 that is the integer quotient; a zero divisor gives an
    infinity or a NaN, which [int] refuses. *)
Definition int_true_div (p d : Z) : result Z :=
  if d =? 0 then (if p =? 0 then Raise ValueError else Raise OverflowError)
  else Ok (Z.quot p d).

(** The part of [MergeMIfiles] that serves [FinalShape]. *)
Definition final_shape (FinalShape : option (list Z)) (shape : list Z)
    (MergeAxis : Z) : result (list Z) :=
  match FinalShape with
  | None => Ok shape
  | Some re_shape =>
      rbind (py_index re_shape (MergeAxis - 1)) (fun a =>
      rbind (py_index re_shape (MergeAxis - 2)) (fun b =>
      rbind (int_true_div (prod shape) (a * b)) (fun v =>
      rbind (py_setitem re_shape MergeAxis v) (fun re_shape' =>
      if negb (prod re_shape' =? prod shape) then
        Raise (ValueError_pixels shape re_shape')
      else Ok re_shape'))))
  end.

(** [stores[i].method(...)]: the object in the list is updated. *)
Definition call_at {A} (stores : list MIfile) (i : nat) (m : Meth A)
  : ST world (A * list MIfile) :=
  match stores !! i with
  | None => raise IndexError
  | Some obj =>
      r <- call obj m ;;
      ret (fst r, <[i := snd r]> stores)
  end.

(** [MergeMIfiles].  Python returns nothing; the result here is the
    state of the objects the call leaves behind, the input stores and
    the output store. *)
Definition MergeMIfiles (MergedFileName : option string)
    (MIfileList : list mi_item) (MergedMetadataFile : option string)
    (MergeAxis : Z) (FinalShape : option (list Z))
  : ST world (list MIfile * MIfile) :=
  acc <- liftR (rfold merge_step MIfileList (merge_init MergeAxis)) ;;
  let MergeAxis := merge_axis acc in
  shape <- liftR (final_shape FinalShape (out_shape acc) MergeAxis) ;;
  (match MergedMetadataFile with
   | None => ret tt
   | Some path =>
       fun w => (Ok tt, log_export w path (out_meta acc shape))
   end) ;;;
  outMIfile <- liftR (MIfile_init MergedFileName (out_meta acc shape)) ;;
  if MergeAxis =? 0 then
    st <- fold_ST (seq 0 (length (mi_in_list acc)))
            (fun st i =>
               r <- call_at (fst st) i (Read None None true) ;;
               o <- call (snd st) (WriteData (fst r) false) ;;
               ret (snd r, snd o))
            (mi_in_list acc, outMIfile) ;;
    o <- call (snd st) (Close true true) ;;
    ret (fst st, snd o)
  else
    r0 <- call_at (mi_in_list acc) 0 (Read None None true) ;;
    st <- fold_ST (py_range 1 (Z.of_nat (length (mi_in_list acc))) 1)
            (fun st midx =>
               (* [cur_mifile] is still bound to the last entry of
                  [MIfileList] *)
               match last MIfileList with
               | Some (ItemStore _) =>
                   r <- call_at (snd st) (length (mi_in_list acc) - 1)
                          (Read None None true) ;;
                   write_data <- liftR (np_append (fst st) (fst r) MergeAxis) ;;
                   ret (write_data, snd r)
               | _ => raise AttributeError
               end)
            (fst r0, snd r0) ;;
    o <- call outMIfile (WriteData (fst st) true) ;;
    ret (snd st, snd o).

End MIfile_class.

(** ** Statements of the specification, in its own words *)

(** What the specification says [ValidateROI] answers on the region
    [[x, y, width, height]] ([x] the left column, [y] the top row) and
    the frame shape [(rows, columns)]: [None] stands for failure. *)
Definition ValidateROI_spec (x y width height rows columns : Z)
  : option (list Z) :=
  if negb ((0 <=? x) && (x <? columns)) then None
  else if negb ((0 <=? y) && (y <? rows)) then None
  else
    let width' := if width =? -1 then columns - x else width in
    let height' := if height =? -1 then rows - y else height in
    if (x + width' >? columns) || (y + height' >? rows) then None
    else Some [x; y; width'; height'].

(** The list a region becomes when [ValidateROI] has resolved it. *)
Definition resolve_ROI (l : list Z) (rows columns : Z) : list Z :=
  match l with
  | x :: y :: width :: height :: rest =>
      x :: y
        :: (if width <? 0 then columns - x else width)
        :: (if height <? 0 then rows - y else height) :: rest
  | _ => l
  end.

(** The list a frame range becomes when [Validate_zRange] has filled in
    the end index and appended the step. *)
Definition resolve_zRange (l : list Z) (zSize : Z) : list Z :=
  match l with
  | start :: stop :: rest =>
      let l1 := start :: (if stop <? 0 then zSize else stop) :: rest in
      if (length l1 <? 3)%nat then l1 ++ [1] else l1
  | _ => l
  end.

(** ** Concrete stores and worlds used in the examples *)

(** An empty [config_MIfile.ini]. *)
Definition no_settings : Config :=
  {| cfg_filename := None; cfg_hdr_len := None; cfg_shape := None;
     cfg_px_format := None; cfg_fps := None; cfg_px_size := None;
     cfg_max_buffer_size := None |}.

(** Metadata that give header length, shape, pixel format and buffer
    budget. *)
Definition metadata (hdr_len : Z) (shape : list Z) (fmt : px_format)
    (max_buffer_size : Z) : Config :=
  {| cfg_filename := None; cfg_hdr_len := Some hdr_len;
     cfg_shape := Some shape; cfg_px_format := Some fmt;
     cfg_fps := None; cfg_px_size := None;
     cfg_max_buffer_size := Some max_buffer_size |}.

(** The store [MIfile(name, metadata)], when the constructor succeeds;
    otherwise the store of the defaults. *)
Definition new_MIfile (name : string) (md : Config) : MIfile :=
  match MIfile_init no_settings (Some name) md with
  | Ok m => m
  | Raise _ =>
      {| FileName := Some name; ReadFileHandle := None;
         WriteFileHandle := None; ReadingFileName := None;
         MetaData := md; MaxBufferSize := 100000000; hdrSize := 0;
         Shape := [0; 0; 0]; ImgNumber := 0; ImgHeight := 0; ImgWidth := 0;
         PxPerImg := 0; PixelFormat := FB; PixelDepth := 1;
         PixelDataType := np_uint8; FPS := float_1_0;
         PixelSize := float_1_0 |}
  end.

(** A size measure for arrays: the bytes of the buffer. *)
Definition buffer_bytes (a : ndarray) : Z := nd_size a * itemsize (nd_dtype a).

(** A world with the given files and list objects. *)
Definition world_of (fs : list (string * list Z)) (lists : list (list Z))
  : world :=
  {| files := list_to_map fs; write_calls := []; heap := lists;
     exported := [] |}.

(** The run of a method on a store: the answer, then the store and the
    world it leaves. *)
Definition answer {A} (m : Meth A) (self : MIfile) (w : world) : result A :=
  fst (m (self, w)).
Definition store_after {A} (m : Meth A) (self : MIfile) (w : world) : MIfile :=
  fst (snd (m (self, w))).
Definition world_after {A} (m : Meth A) (self : MIfile) (w : world) : world :=
  snd (snd (m (self, w))).

(** A store that holds a read handle on "a" and a write handle on "b". *)
Definition both_open : MIfile :=
  set_handles (new_MIfile "a" (metadata 0 [1; 1; 1] FB 100))
    (Some {| rh_name := "a"; rh_pos := 0 |})
    (Some {| wh_name := "b"; wh_pos := 0 |})
    (Some "a"%string).

(** ** Notions the statements use *)

(** The position a read starts from. *)
Definition read_position (h : rhandle) (seek_pos : option Z) : Z :=
  match seek_pos with Some p => p | None => rh_pos h end.

(** The number of bytes the file holds from that position on: what a read
    of any larger size yields. *)
Definition bytes_available (w : world) (h : rhandle) (seek_pos : option Z)
  : Z :=
  Z.of_nat (length (drop (Z.to_nat (read_position h seek_pos))
                      (file_content w (rh_name h)))).

(** The file the reads of a store go to: the one its read handle is open
    on, or else the one [OpenForReading] opens. *)
Definition reading_file (self : MIfile) : option string :=
  match ReadFileHandle self with
  | Some h => Some (rh_name h)
  | None => FileName self
  end.

(** What [_load_metadata] establishes between the attributes. *)
Definition consistent (self : MIfile) : Prop :=
  Shape self = [ImgNumber self; ImgHeight self; ImgWidth self]
  /\ PxPerImg self = ImgHeight self * ImgWidth self
  /\ PixelDepth self = _data_depth (PixelFormat self)
  /\ PixelDataType self = _data_types (PixelFormat self).

(** The bytes of the declared frames: header, then frame count times
    pixels per frame times pixel depth. *)
Definition declared_size (self : MIfile) : Z :=
  hdrSize self + ImgNumber self * PxPerImg self * PixelDepth self.

(** A seek position that [seek] accepts. *)
Definition seek_allowed (seek_pos : option Z) : Prop :=
  match seek_pos with Some p => 0 <= p | None => True end.

(** The pixels a file holds from a byte position on. *)
Definition pixels_at (order : byteorder) (self : MIfile) (w : world)
    (name : string) (p px_num : Z) : list scalar :=
  map (unpack1 order (PixelFormat self))
    (split_bytes (Z.to_nat px_num) (Z.to_nat (PixelDepth self))
       (take (Z.to_nat (px_num * PixelDepth self))
          (drop (Z.to_nat p) (file_content w name)))).

(** A store of three frames of one row and two columns, one byte per
    pixel, and a world whose file "a" holds exactly these frames. *)
Definition store6 : MIfile := new_MIfile "a" (metadata 0 [3; 1; 2] FB 100).
Definition world6 : world := world_of [("a"%string, [1; 2; 3; 4; 5; 6])] [].

(** The same store with its read handle open. *)
Definition open6 : MIfile :=
  set_handles store6 (Some {| rh_name := "a"; rh_pos := 0 |}) None
    (Some "a"%string).

(** A world whose file "a" holds four frames, one more than [store6]
    declares. *)
Definition world8 : world :=
  world_of [("a"%string, [1; 2; 3; 4; 5; 6; 7; 8])] [].

(** A store of ten frames of ten by ten float64 pixels with a buffer
    budget of 1000 bytes, an array for it, and the first frame of that
    array. *)
Definition store_f64 : MIfile :=
  new_MIfile "out" (metadata 0 [10; 10; 10] Fd 1000).
Definition array_f64 : ndarray :=
  {| nd_dtype := np_float64; nd_shape := [10; 10; 10];
     nd_data := replicate 1000 (F64 0) |}.
Definition frame_f64 : ndarray :=
  {| nd_dtype := np_float64; nd_shape := [10; 10];
     nd_data := replicate 100 (F64 0) |}.

(** Three stores of one pixel each, in the files "a", "b" and "c". *)
Definition store_px (name : string) : MIfile :=
  new_MIfile name (metadata 0 [1; 1; 1] FB 100).
Definition world_abc : world :=
  world_of [("a"%string, [1]); ("b"%string, [2]); ("c"%string, [3])] [].

(** The concatenation, along [axis], of the full contents of the stores
    in list order: what the specification says a merge along a non-zero
    axis writes. *)
Fixpoint concat_contents (order : byteorder) (acc : ndarray)
    (stores : list MIfile) (axis : Z) (w : world) : result ndarray :=
  match stores with
  | [] => Ok acc
  | s :: rest =>
      rbind (answer (Read order None None true) s w) (fun a =>
      rbind (np_append acc a axis) (fun acc' =>
      concat_contents order acc' rest axis w))
  end.

Definition contents_in_list_order (order : byteorder) (stores : list MIfile)
    (axis : Z) (w : world) : result ndarray :=
  match stores with
  | [] => Raise IndexError
  | s :: rest =>
      rbind (answer (Read order None None true) s w) (fun a =>
      concat_contents order a rest axis w)
  end.

(** Two stores whose frames have no rows, of different widths and pixel
    formats, with (empty) files "p" and "q". *)
Definition store_3x0x2 : MIfile := new_MIfile "p" (metadata 0 [3; 0; 2] FB 100).
Definition store_3x0x3 : MIfile := new_MIfile "q" (metadata 0 [3; 0; 3] FH 100).
Definition world_pq : world :=
  world_of [("p"%string, []); ("q"%string, [])] [].

(** A store built from metadata without shape and format, and a store of
    one frame of two 16-bit pixels. *)
Definition store_default : MIfile := new_MIfile "p" no_settings.
Definition store_1x1x2 : MIfile := new_MIfile "q" (metadata 0 [1; 1; 2] FH 100).
Definition world_pq2 : world :=
  world_of [("p"%string, []); ("q"%string, [1; 0; 2; 0])] [].

(** Two stores of three frames of two rows, of widths two and three. *)
Definition store_3x2x2 : MIfile := new_MIfile "p" (metadata 0 [3; 2; 2] FB 100).
Definition store_3x2x3 : MIfile := new_MIfile "q" (metadata 0 [3; 2; 3] FB 100).

(** A value of the element type of a pixel format: a number in the range
    of an integer format, 0 or 1 for the boolean format, a bit pattern
    of the width of a float format. *)
Definition element_of (f : px_format) (v : scalar) : bool :=
  match f, v with
  | Fbool, Num z => (z =? 0) || (z =? 1)
  | _, _ => packable f v
  end.

(** The byte string of one value in a format (empty where [struct.pack]
    refuses the value). *)
Definition encode (order : byteorder) (f : px_format) (v : scalar) : list Z :=
  match pack1 order f v with Ok bs => bs | Raise _ => [] end.

(** A byte. *)
Definition is_byte (b : Z) : Prop := 0 <= b < 256.

(** The answer is an array with the shape and the values of [X]. *)
Definition reconstructs (r : result ndarray) (X : ndarray) : Prop :=
  exists arr, r = Ok arr /\ nd_shape arr = nd_shape X
              /\ nd_data arr = nd_data X.

(** [WriteData] does not refuse the array: it is within the buffer
    budget, or it has a first frame that is not empty and within the
    budget. *)
Definition within_budget (getsizeof : ndarray -> Z) (self : MIfile)
    (X : ndarray) : Prop :=
  getsizeof X <= MaxBufferSize self
  \/ exists first, getitem0 X = Ok first
                   /\ getsizeof first <= MaxBufferSize self
                   /\ nd_size first <> 0.

(** The store writes to [f] at the end of its content [c]. *)
Definition appending (s : MIfile) (w : world) (f : string) (c : list Z)
  : Prop :=
  WriteFileHandle s = Some {| wh_name := f; wh_pos := Z.of_nat (length c) |}
  /\ files w !! f = Some c.

(** [s'] is [s] with another write handle. *)
Definition moved_write_handle (s s' : MIfile) : Prop :=
  exists wh, s' = set_handles s (ReadFileHandle s) wh (ReadingFileName s).

(** The sequence of the round trip: write, close, open for reading, read
    the stack; and the same without opening for reading. *)
Definition write_close_open_read (order : byteorder)
    (getsizeof : ndarray -> Z) (X : ndarray) (frames : Z) : Meth ndarray :=
  WriteData order getsizeof X true ;;;
  Close true true ;;;
  OpenForReading None ;;;
  GetStack order 0 frames.

Definition write_close_read (order : byteorder) (getsizeof : ndarray -> Z)
    (X : ndarray) (frames : Z) : Meth ndarray :=
  WriteData order getsizeof X true ;;;
  Close true true ;;;
  GetStack order 0 frames.

(** One frame of one uint8 pixel, and stores for it without header and
    with a header of one byte. *)
Definition array_7 : ndarray :=
  {| nd_dtype := np_uint8; nd_shape := [1; 1; 1]; nd_data := [Num 7] |}.
Definition store_hdr0 : MIfile := new_MIfile "r" (metadata 0 [1; 1; 1] FB 100).
Definition store_hdr1 : MIfile := new_MIfile "r" (metadata 1 [1; 1; 1] FB 100).

(** Two frames of four uint8 pixels and a store for them whose budget
    is three bytes. *)
Definition array_2x1x4 : ndarray :=
  {| nd_dtype := np_uint8; nd_shape := [2; 1; 4];
     nd_data := map Num [1; 2; 3; 4; 5; 6; 7; 8] |}.
Definition store_budget3 : MIfile :=
  new_MIfile "r" (metadata 0 [2; 1; 4] FB 3).

(** A store that already holds a write handle at the end of a file "r"
    of one byte. *)
Definition store_appending : MIfile :=
  set_handles store_hdr0 None (Some {| wh_name := "r"; wh_pos := 1 |}) None.
Definition world_r9 : world := world_of [("r"%string, [9])] [].

(** Three frames of two int16 pixels and a store for them. *)
Definition array_i16 : ndarray :=
  {| nd_dtype := np_int16; nd_shape := [3; 1; 2];
     nd_data := map Num [1; -2; 3; 4; 5; 600] |}.
Definition store_i16 : MIfile := new_MIfile "h" (metadata 0 [3; 1; 2] Fh 100).
Definition store_i16_budget5 : MIfile :=
  new_MIfile "h" (metadata 0 [3; 1; 2] Fh 5).

(** The locations [GetTimetraces] samples. *)
Definition locations (pxLocs : px_locs) : list (Z * Z) :=
  match pxLocs with
  | OneLoc r c => [(r, c)]
  | Locs l => l
  end.

(** The pixel a file holds at a frame, a row and a column: the bytes at
    the offset of the coordinate, unpacked in the pixel format. *)
Definition stored_pixel (order : byteorder) (self : MIfile) (w : world)
    (name : string) (img row col : Z) : scalar :=
  unpack1 order (PixelFormat self)
    (take (Z.to_nat (PixelDepth self))
       (drop (Z.to_nat (_get_offset self img row col))
          (file_content w name))).

(** The integer and boolean pixel formats. *)
Definition integer_or_boolean (f : px_format) : bool :=
  match f with
  | Ff | Fd => false
  | _ => true
  end.

(** The store is [self] with its read handle at some position of the
    file [name]. *)
Definition reading (s self : MIfile) (name : string) : Prop :=
  exists pos,
    s = set_handles self (Some {| rh_name := name; rh_pos := pos |})
          (WriteFileHandle self) (ReadingFileName self).

(** The cells of the result of [GetTimetraces] that are filled in: the
    array [res] has one row for each of [locs] and one column for each
    of [list_z], and each cell marked [done] holds the stored pixel of
    its location and frame, converted to float64. *)
Definition cells_filled (order : byteorder) (self : MIfile) (w : world)
    (name : string) (locs : list (Z * Z)) (list_z : list Z)
    (done : nat -> nat -> Prop) (res : ndarray) : Prop :=
  nd_dtype res = np_float64
  /\ nd_shape res = [Z.of_nat (length locs); Z.of_nat (length list_z)]
  /\ length (nd_data res) = (length locs * length list_z)%nat
  /\ forall p z r c zv,
       locs !! p = Some (r, c) -> list_z !! z = Some zv -> done p z ->
       exists v,
         nd_data res !! (p * length list_z + z)%nat = Some v
         /\ astype1 np_float64 (stored_pixel order self w name zv r c)
            = Ok v.

(** The name of the file the read handle of a store is open on. *)
Definition reading_name (self : MIfile) : string :=
  match ReadFileHandle self with
  | Some h => rh_name h
  | None => EmptyString
  end.

(** The list a frame range argument stands for once normalised against
    [zSize] frames, and the frame indices it selects. *)
Definition normalised_range (w : world) (zRange : option loc) (zSize : Z)
  : option (list Z) :=
  match zRange with
  | None => Some [0; zSize; 1]
  | Some r =>
      match heap w !! r with
      | Some (a :: b :: rest) => Some (resolve_zRange (a :: b :: rest) zSize)
      | _ => None
      end
  end.

Definition range_frames (w : world) (zRange : option loc) (zSize : Z)
  : option (list Z) :=
  match normalised_range w zRange zSize with
  | Some [a; b; c] => if c =? 0 then None else Some (py_range a b c)
  | _ => None
  end.

(** The turn of the inner loop of [GetTimetraces] for the location [pl]
    and the frame [zi], each with its index. *)
Definition trace_turn (order : byteorder) (zi : nat * Z) (res : ndarray)
    (pl : nat * (Z * Z)) : Meth ndarray :=
  self0 <- self_ ;;
  px <- _read_pixels order 1
          (Some (_get_offset self0 zi.2 pl.2.1 pl.2.2)) ;;
  liftR (setitem2 res pl.1 zi.1 px).

(** The store during the loops of [GetTimetraces]: its read handle is
    open on [name], or it has none, as before the call. *)
Definition during (s self : MIfile) (name : string) : Prop :=
  reading s self name \/ (s = self /\ ReadFileHandle self = None).

(** ** Notions of the further properties *)


(** The pixels of the region of [wd] columns and [ht] rows with the
    corner ([x], [y]) in the frame [img] of a file, row by row. *)
Definition crop_pixels (order : byteorder) (self : MIfile) (w : world)
    (name : string) (img x y wd ht : Z) : list scalar :=
  concat (map (fun i => pixels_at order self w name
                          (_get_offset self img (y + Z.of_nat i) x) wd)
            (seq 0 (Z.to_nat ht))).

(** The element type of [np.asarray] of [n] unpacked values of a
    format: that of the values, or float64 when there is none. *)
Definition read_dtype (f : px_format) (n : Z) : np_dtype :=
  if 0 <? n then unpacked_dtype f else np_float64.


(** The bytes of the values of an array in a pixel format, one value
    after the other. *)
Definition array_bytes (order : byteorder) (f : px_format) (X : ndarray)
  : list Z :=
  concat (map (encode order f) (nd_data X)).

(** The bytes of the header records [OpenForWriting] packs, and their
    number. *)
Definition header_bytes (order : byteorder) (hdr : list (px_format * scalar))
  : list Z :=
  concat (map (fun e => encode order (fst e) (snd e)) hdr).

Definition header_size (hdr : list (px_format * scalar)) : Z :=
  fold_right Z.add 0 (map (fun e => _data_depth (fst e)) hdr).

(** Open for writing with a header, write an array, close, open for
    reading and read the stack. *)
Definition write_with_header (order : byteorder) (getsizeof : ndarray -> Z)
    (hdr : list (px_format * scalar)) (X : ndarray) (frames : Z)
  : Meth ndarray :=
  OpenForWriting order None (Some hdr) ;;;
  WriteData order getsizeof X true ;;;
  OpenForReading None ;;;
  GetStack order 0 frames.

(** The world [w'] differs from [w] in the file [f] and in the log of
    writes at most. *)
Definition same_but (f : string) (w w' : world) : Prop :=
  heap w' = heap w /\ exported w' = exported w
  /\ forall f', f' <> f -> files w' !! f' = files w !! f'.

(** * Properties *)

(** ** Python sequences *)

Lemma py_index_lookup {A} (l : list A) (i : Z) (x : A) :
  0 <= i -> l !! Z.to_nat i = Some x -> py_index l i = Ok x.
Proof.
  intros Hi Hl. unfold py_index.
  pose proof (lookup_lt_Some _ _ _ Hl) as Hlt.
  destruct (i <? 0) eqn:E; [lia|].
  replace ((0 <=? i) && (i <? Z.of_nat (length l))) with true.
  - now rewrite Hl.
  - symmetry. apply andb_true_iff. split; [apply Z.leb_le | apply Z.ltb_lt]; lia.
Qed.

Lemma py_index_short {A} (l : list A) (i : Z) :
  0 <= i -> Z.of_nat (length l) <= i -> py_index l i = Raise IndexError.
Proof.
  intros Hi Hl. unfold py_index.
  destruct (i <? 0) eqn:E; [lia|].
  replace (i <? Z.of_nat (length l)) with false by (symmetry; apply Z.ltb_ge; lia).
  now rewrite andb_false_r.
Qed.

Lemma py_setitem_lookup {A} (l : list A) (i : Z) (x : A) :
  0 <= i -> (Z.to_nat i < length l)%nat ->
  py_setitem l i x = Ok (<[Z.to_nat i := x]> l).
Proof.
  intros Hi Hl. unfold py_setitem.
  destruct (i <? 0) eqn:E; [lia|].
  replace ((0 <=? i) && (i <? Z.of_nat (length l))) with true; [done|].
  symmetry. apply andb_true_iff. split; [apply Z.leb_le | apply Z.ltb_lt]; lia.
Qed.

(** ** Heap accesses *)

Lemma list_getitem_eq (w : world) (r : loc) (l : list Z) (i x : Z) :
  heap w !! r = Some l -> py_index l i = Ok x ->
  list_getitem r i w = (Ok x, w).
Proof.
  intros Hr Hi. unfold list_getitem, bind, deref, liftR. now rewrite Hr, Hi.
Qed.

Lemma list_getitem_raise (w : world) (r : loc) (l : list Z) (i : Z) (e : exn) :
  heap w !! r = Some l -> py_index l i = Raise e ->
  list_getitem r i w = (Raise e, w).
Proof.
  intros Hr Hi. unfold list_getitem, bind, deref, liftR. now rewrite Hr, Hi.
Qed.

Lemma list_setitem_eq (w : world) (r : loc) (l l' : list Z) (i x : Z) :
  heap w !! r = Some l -> py_setitem l i x = Ok l' ->
  list_setitem r i x w = (Ok tt, set_heap w (<[r := l']> (heap w))).
Proof.
  intros Hr Hi. unfold list_setitem, bind, deref, liftR. now rewrite Hr, Hi.
Qed.

Lemma heap_set_lookup (w : world) (r : loc) (l l' : list Z) :
  heap w !! r = Some l -> heap (set_heap w (<[r := l']> (heap w))) !! r = Some l'.
Proof.
  intros Hr. simpl. apply list_lookup_insert_eq. eapply lookup_lt_Some; eauto.
Qed.

Lemma set_heap_twice (w : world) (h h' : list (list Z)) :
  set_heap (set_heap w h) h' = set_heap w h'.
Proof. reflexivity. Qed.

Lemma set_heap_same (w : world) (r : loc) (l : list Z) :
  heap w !! r = Some l -> set_heap w (<[r := l]> (heap w)) = w.
Proof.
  intros Hr. destruct w as [f wc h e]. unfold set_heap. simpl in *.
  f_equal. now apply list_insert_id.
Qed.

Ltac idx :=
  first [ reflexivity
        | apply py_index_lookup; [lia | reflexivity]
        | apply py_setitem_lookup; [lia | simpl; lia] ].

(** The run of [ValidateROI] on a region of four or more entries. *)
Lemma ValidateROI_run (w : world) (r : loc) (x y wd ht rows cols : Z)
    (rest : list Z) (b : bool) :
  heap w !! r = Some (x :: y :: wd :: ht :: rest) ->
  let l' := resolve_ROI (x :: y :: wd :: ht :: rest) rows cols in
  let wd' := if wd <? 0 then cols - x else wd in
  let ht' := if ht <? 0 then rows - y else ht in
  ValidateROI (Some r) [rows; cols] b w =
    if negb ((0 <=? x) && (x <? cols)) then
      (Raise (AssertionError_topleft x (cols - 1)), w)
    else if negb ((0 <=? y) && (y <? rows)) then
      (Raise (AssertionError_topleft y (rows - 1)), w)
    else if negb (wd' + x <=? cols) then
      (Raise (AssertionError_ROI l' [rows; cols]),
       set_heap w (<[r := l']> (heap w)))
    else if negb (ht' + y <=? rows) then
      (Raise (AssertionError_ROI l' [rows; cols]),
       set_heap w (<[r := l']> (heap w)))
    else (Ok (Some r), set_heap w (<[r := l']> (heap w))).
Proof.
  intros Hr l' wd' ht'. unfold ValidateROI.
  unfold bind at 1. erewrite list_getitem_eq by (eauto; idx).
  unfold bind at 1, liftR at 1.
  change (py_index [rows; cols] 1) with (Ok (A:=Z) cols). cbv iota beta.
  destruct ((0 <=? x) && (x <? cols)) eqn:Ex; simpl negb; cbv iota;
    [|reflexivity].
  unfold bind at 1, assert at 1, ret at 1. 
  unfold bind at 1. erewrite list_getitem_eq by (eauto; idx).
  unfold bind at 1, liftR at 1.
  change (py_index [rows; cols] 0) with (Ok (A:=Z) rows). cbv iota beta.
  destruct ((0 <=? y) && (y <? rows)) eqn:Ey; simpl negb; cbv iota;
    [|reflexivity].
  unfold bind at 1, assert at 1, ret at 1.
  unfold bind at 1. erewrite list_getitem_eq by (eauto; idx).
  assert (Hlen : (r < length (heap w))%nat) by (eapply lookup_lt_Some; eauto).
  set (l1 := x :: y :: wd' :: ht :: rest).
  assert (H1 : (if wd <? 0 then list_setitem r 2 (cols - x) else ret tt) w
               = (Ok tt, set_heap w (<[r := l1]> (heap w)))).
  { subst l1 wd'. destruct (wd <? 0).
    - rewrite (list_setitem_eq w r _
                 (<[2%nat := cols - x]> (x :: y :: wd :: ht :: rest))
                 2 (cols - x) Hr) by idx.
      reflexivity.
    - unfold ret. now rewrite set_heap_same. }
  unfold bind at 1. rewrite H1.
  set (w1 := set_heap w (<[r := l1]> (heap w))).
  assert (Hr1 : heap w1 !! r = Some l1) by (eapply heap_set_lookup; eauto).
  unfold bind at 1. erewrite list_getitem_eq by (eauto; idx).
  assert (H2 : (if ht <? 0 then list_setitem r 3 (rows - y) else ret tt) w1
               = (Ok tt, set_heap w (<[r := l']> (heap w)))).
  { subst l' ht'. simpl resolve_ROI. fold wd'. destruct (ht <? 0).
    - rewrite (list_setitem_eq w1 r _
                 (<[3%nat := rows - y]> l1) 3 (rows - y) Hr1) by idx.
      subst w1. rewrite set_heap_twice. simpl heap.
      now rewrite list_insert_insert_eq.
    - reflexivity. }
  unfold bind at 1. rewrite H2.
  set (w2 := set_heap w (<[r := l']> (heap w))).
  assert (Hr2 : heap w2 !! r = Some l') by (eapply heap_set_lookup; eauto).
  unfold bind at 1. erewrite list_getitem_eq by (eauto; idx).
  unfold bind at 1, deref at 1. rewrite Hr2.
  fold wd'.
  destruct (wd' + x <=? cols) eqn:Ew; simpl negb; cbv iota;
    [|reflexivity].
  unfold bind at 1, assert at 1, ret at 1.
  unfold bind at 1. erewrite list_getitem_eq by (eauto; idx).
  fold ht'.
  destruct (ht' + y <=? rows) eqn:Eh; simpl negb; cbv iota; reflexivity.
Qed.

(** The run of [Validate_zRange] on a range of two or more entries. *)
Lemma Validate_zRange_run (w : world) (r : loc) (a b zSize : Z)
    (rest : list Z) (rn : bool) :
  heap w !! r = Some (a :: b :: rest) ->
  Validate_zRange (Some r) zSize rn w =
    (Ok (Some r),
     set_heap w (<[r := resolve_zRange (a :: b :: rest) zSize]> (heap w))).
Proof.
  intros Hr. unfold Validate_zRange.
  unfold bind at 1. erewrite list_getitem_eq by (eauto; idx).
  set (l1 := a :: (if b <? 0 then zSize else b) :: rest).
  assert (H1 : (if b <? 0 then list_setitem r 1 zSize else ret tt) w
               = (Ok tt, set_heap w (<[r := l1]> (heap w)))).
  { subst l1. destruct (b <? 0).
    - rewrite (list_setitem_eq w r _ (<[1%nat := zSize]> (a :: b :: rest))
                 1 zSize Hr) by idx.
      reflexivity.
    - unfold ret. now rewrite set_heap_same. }
  unfold bind at 1. rewrite H1.
  set (w1 := set_heap w (<[r := l1]> (heap w))).
  assert (Hr1 : heap w1 !! r = Some l1) by (eapply heap_set_lookup; eauto).
  unfold bind at 1, deref at 1. rewrite Hr1.
  unfold resolve_zRange. fold l1.
  destruct (length l1 <? 3)%nat.
  - unfold bind at 1, list_append, bind, deref. rewrite Hr1.
    unfold ret. subst w1. rewrite set_heap_twice. simpl heap.
    now rewrite list_insert_insert_eq.
  - reflexivity.
Qed.

Lemma Close_closed (self : MIfile) (w : world) (read write : bool) :
  ReadFileHandle self = None -> WriteFileHandle self = None ->
  Close read write (self, w) = (Ok tt, (self, w)).
Proof.
  intros Hr Hw. unfold Close, bind, self_, ret. simpl.
  rewrite Hw. simpl. rewrite andb_false_r. simpl.
  rewrite Hr. simpl. now rewrite andb_false_r.
Qed.

(** ** Region and range validation *)

(** C6. On a region [[x, y, width, height]] whose width and height are
    extents or -1, and a frame shape [(rows, columns)], [ValidateROI]
    does what the specification says: it fails when [x] is outside
    [0, columns) or [y] outside [0, rows); otherwise it resolves a width
    of -1 to [columns - x] and a height of -1 to [rows - y], fails when
    [x + width > columns] or [y + height > rows], and returns the region,
    which then holds the resolved four entries. *)
Theorem ValidateROI_meets_spec (w : world) (r : loc)
    (x y width height rows columns : Z) (replaceNone : bool) :
  heap w !! r = Some [x; y; width; height] ->
  -1 <= width -> -1 <= height ->
  match ValidateROI_spec x y width height rows columns with
  | None =>
      is_Ok (fst (ValidateROI (Some r) [rows; columns] replaceNone w)) = false
  | Some roi =>
      ValidateROI (Some r) [rows; columns] replaceNone w
      = (Ok (Some r), set_heap w (<[r := roi]> (heap w)))
  end.
Proof.
  intros Hr Hw Hh.
  rewrite (ValidateROI_run w r x y width height rows columns [] replaceNone Hr).
  unfold ValidateROI_spec, resolve_ROI.
  assert (Ew : (width =? -1) = (width <? 0)).
  { destruct (Z.eqb_spec width (-1)), (Z.ltb_spec width 0); lia. }
  assert (Eh : (height =? -1) = (height <? 0)).
  { destruct (Z.eqb_spec height (-1)), (Z.ltb_spec height 0); lia. }
  rewrite Ew, Eh.
  destruct (negb ((0 <=? x) && (x <? columns))); [reflexivity|].
  destruct (negb ((0 <=? y) && (y <? rows))); [reflexivity|].
  set (wd' := if width <? 0 then columns - x else width).
  set (ht' := if height <? 0 then rows - y else height).
  replace (x + wd' >? columns) with (negb (wd' + x <=? columns))
    by (rewrite Z.gtb_ltb, Z.leb_antisym, negb_involutive; f_equal; lia).
  replace (y + ht' >? rows) with (negb (ht' + y <=? rows))
    by (rewrite Z.gtb_ltb, Z.leb_antisym, negb_involutive; f_equal; lia).
  destruct (negb (wd' + x <=? columns)); [reflexivity|].
  destruct (negb (ht' + y <=? rows)); reflexivity.
Qed.

Lemma ValidateROI_meets_spec_witness :
  heap (world_of [] [[5; 5; -1; -1]]) !! 0%nat = Some [5; 5; -1; -1]
  /\ ValidateROI (Some 0%nat) [10; 20] false (world_of [] [[5; 5; -1; -1]])
     = (Ok (Some 0%nat), world_of [] [[5; 5; 15; 5]]).
Proof.
  split; [reflexivity|].
  apply (ValidateROI_meets_spec (world_of [] [[5; 5; -1; -1]]) 0%nat
           5 5 (-1) (-1) 10 20 false); [reflexivity | lia | lia].
Defined.

(** The examples of the specification. *)
Example ValidateROI_full_frame :
  ValidateROI (Some 0%nat) [10; 20] false (world_of [] [[0; 0; -1; -1]])
  = (Ok (Some 0%nat), world_of [] [[0; 0; 20; 10]]).
Proof. reflexivity. Qed.

Example ValidateROI_left_beyond_columns :
  ValidateROI (Some 0%nat) [10; 20] false (world_of [] [[20; 0; 1; 1]])
  = (Raise (AssertionError_topleft 20 19), world_of [] [[20; 0; 1; 1]]).
Proof. reflexivity. Qed.

(** Any negative width or height is resolved like -1. *)
Example ValidateROI_negative_width :
  ValidateROI (Some 0%nat) [10; 20] false (world_of [] [[5; 5; -7; 2]])
  = (Ok (Some 0%nat), world_of [] [[5; 5; 15; 2]]).
Proof. reflexivity. Qed.

(** A region is mutated before the last two assertions: it stays
    resolved when they fail. *)
Example ValidateROI_fails_after_mutation :
  ValidateROI (Some 0%nat) [10; 20] false (world_of [] [[0; 0; -1; 11]])
  = (Raise (AssertionError_ROI [0; 0; 20; 11] [10; 20]),
     world_of [] [[0; 0; 20; 11]]).
Proof. reflexivity. Qed.

(** C9. Normalisation works on the caller's list.  When [ValidateROI]
    returns on a region list, it returns the reference it was given, the
    list behind it holds the resolved entries, and no list object was
    created; [Validate_zRange] returns the reference it was given on
    every range list of two or more entries, with the end index filled in
    and the step appended in that same list. *)
Theorem validators_normalise_in_place :
  (forall (w : world) (r : loc) (x y wd ht : Z) (rest : list Z)
          (rows cols : Z) (b : bool) (res : option loc) (w' : world),
      heap w !! r = Some (x :: y :: wd :: ht :: rest) ->
      ValidateROI (Some r) [rows; cols] b w = (Ok res, w') ->
      res = Some r
      /\ heap w' !! r = Some (resolve_ROI (x :: y :: wd :: ht :: rest) rows cols)
      /\ length (heap w') = length (heap w)
      /\ forall r', r' <> r -> heap w' !! r' = heap w !! r')
  /\ (forall (w : world) (r : loc) (a b : Z) (rest : list Z) (zSize : Z)
             (rn : bool),
        heap w !! r = Some (a :: b :: rest) ->
        exists w',
          Validate_zRange (Some r) zSize rn w = (Ok (Some r), w')
          /\ heap w' !! r = Some (resolve_zRange (a :: b :: rest) zSize)
          /\ length (heap w') = length (heap w)
          /\ forall r', r' <> r -> heap w' !! r' = heap w !! r').
Proof.
  split.
  - intros w r x y wd ht rest rows cols b res w' Hr Hrun.
    rewrite (ValidateROI_run w r x y wd ht rows cols rest b Hr) in Hrun.
    repeat match type of Hrun with
           | (if ?c then _ else _) = _ => destruct c; [discriminate|]
           end.
    injection Hrun as <- <-. split; [reflexivity|]. split.
    + eapply heap_set_lookup; eauto.
    + split; [simpl; apply length_insert|].
      intros r' Hne. simpl. now apply list_lookup_insert_ne.
  - intros w r a b rest zSize rn Hr. eexists. split.
    + apply Validate_zRange_run; eauto.
    + split; [eapply heap_set_lookup; eauto|].
      split; [simpl; apply length_insert|].
      intros r' Hne. simpl. now apply list_lookup_insert_ne.
Qed.

Lemma validators_normalise_in_place_witness :
  (heap (world_of [] [[7]; [5; 5; -1; -1]]) !! 1%nat = Some [5; 5; -1; -1]
   /\ ValidateROI (Some 1%nat) [10; 20] false (world_of [] [[7]; [5; 5; -1; -1]])
      = (Ok (Some 1%nat), world_of [] [[7]; [5; 5; 15; 5]]))
  /\ heap (world_of [] [[7]; [5; 5; 15; 5]]) !! 1%nat = Some [5; 5; 15; 5]
  /\ exists w',
       Validate_zRange (Some 0%nat) 10 true (world_of [] [[2; -1]])
       = (Ok (Some 0%nat), w')
       /\ heap w' !! 0%nat = Some [2; 10; 1].
Proof.
  split; [split; reflexivity|]. split.
  - apply (proj1 validators_normalise_in_place
             (world_of [] [[7]; [5; 5; -1; -1]]) 1%nat 5 5 (-1) (-1) [] 10 20
             false (Some 1%nat) (world_of [] [[7]; [5; 5; 15; 5]]));
      reflexivity.
  - destruct (proj2 validators_normalise_in_place
                (world_of [] [[2; -1]]) 0%nat 2 (-1) [] 10 true eq_refl)
      as [w' [H1 [H2 _]]].
    exists w'. split; [exact H1 | exact H2].
Defined.

(** The example of the specification for frame ranges. *)
Example Validate_zRange_example :
  Validate_zRange (Some 0%nat) 10 true (world_of [] [[2; -1]])
  = (Ok (Some 0%nat), world_of [] [[2; 10; 1]]).
Proof. reflexivity. Qed.

(** ** Closing *)

(** C2. What [Close] does with one flag set.  [Close(read=True,
    write=False)] releases the write handle and leaves the read handle as
    it is; [Close(read=False, write=True)] releases the read handle and
    leaves the write handle as it is: the two flags act on the opposite
    handles.  ([Close_closed]: on a store whose handles are both released
    [Close] changes nothing.) *)
Theorem Close_flags_act_on_opposite_handles (self : MIfile) (w : world) :
  (answer (Close true false) self w = Ok tt
   /\ ReadFileHandle (store_after (Close true false) self w)
      = ReadFileHandle self
   /\ WriteFileHandle (store_after (Close true false) self w) = None
   /\ world_after (Close true false) self w = w)
  /\ (answer (Close false true) self w = Ok tt
      /\ ReadFileHandle (store_after (Close false true) self w) = None
      /\ WriteFileHandle (store_after (Close false true) self w)
         = WriteFileHandle self
      /\ world_after (Close false true) self w = w).
Proof.
  unfold answer, store_after, world_after.
  split.
  - unfold Close, bind, self_, ret, set_self. simpl.
    destruct (WriteFileHandle self) eqn:E; simpl; auto.
  - unfold Close, bind, self_, ret, set_self. simpl.
    destruct (ReadFileHandle self) eqn:E; simpl; auto.
Qed.

(** A store that holds both handles: after [Close(read=True,
    write=False)] it still holds the read handle and has lost the write
    handle. *)
Example Close_read_keeps_read_handle :
  ReadFileHandle both_open = Some {| rh_name := "a"; rh_pos := 0 |}
  /\ WriteFileHandle both_open = Some {| wh_name := "b"; wh_pos := 0 |}
  /\ ReadFileHandle (store_after (Close true false) both_open (world_of [] []))
     = Some {| rh_name := "a"; rh_pos := 0 |}
  /\ WriteFileHandle (store_after (Close true false) both_open (world_of [] []))
     = None.
Proof. repeat split. Qed.

(** ** The read primitive *)

Lemma length_split_bytes (c wd : nat) (bs : list Z) :
  length (split_bytes c wd bs) = c.
Proof.
  revert bs. induction c as [|c IH]; intros bs; simpl; [reflexivity|].
  now rewrite IH.
Qed.

Lemma struct_unpack_length (order : byteorder) (f : px_format) (count : Z)
    (bs : list Z) (vs : list scalar) :
  struct_unpack order f count bs = Ok vs -> Z.of_nat (length vs) = count.
Proof.
  unfold struct_unpack. destruct (Z.ltb_spec count 0); [discriminate|].
  destruct (_ =? _); [|discriminate].
  intros [= <-]. rewrite length_map, length_split_bytes. lia.
Qed.

Lemma file_seek_allowed (h : rhandle) (seek_pos : option Z) :
  seek_allowed seek_pos ->
  file_seek h seek_pos
  = Ok {| rh_name := rh_name h; rh_pos := read_position h seek_pos |}.
Proof.
  destruct seek_pos as [p|]; simpl; intros Hs.
  - destruct (Z.ltb_spec p 0); [lia | reflexivity].
  - now destruct h.
Qed.

(** A read that the file cannot serve in full raises the end-of-file
    error, with the count of bytes obtained and the count asked for. *)
Lemma _read_pixels_short (order : byteorder) (self : MIfile) (w : world)
    (h : rhandle) (px_num : Z) (seek_pos : option Z) :
  ReadFileHandle self = Some h ->
  seek_allowed seek_pos ->
  bytes_available w h seek_pos < px_num * PixelDepth self ->
  answer (_read_pixels order px_num seek_pos) self w
  = Raise (IOError_EOF seek_pos (bytes_available w h seek_pos)
             (px_num * PixelDepth self) px_num (ReadingFileName self)).
Proof.
  intros Hh Hs Hshort. unfold answer, _read_pixels. rewrite Hh.
  rewrite (file_seek_allowed h seek_pos Hs).
  unfold file_read. cbn [rh_name rh_pos].
  unfold bytes_available in *.
  set (rest := drop (Z.to_nat (read_position h seek_pos))
                 (file_content w (rh_name h))) in *.
  set (n := px_num * PixelDepth self) in *.
  assert (Hn : 0 <= Z.of_nat (length rest)) by lia.
  destruct (Z.ltb_spec n (-1)); [lia|].
  destruct (Z.eqb_spec n (-1)); [lia|].
  rewrite take_ge by lia.
  destruct (Z.ltb_spec (Z.of_nat (length rest)) n); [reflexivity | lia].
Qed.

(** What the read primitive returns has exactly the requested number of
    values. *)
Lemma _read_pixels_Ok_size (order : byteorder) (self : MIfile) (w : world)
    (px_num : Z) (seek_pos : option Z) (a : ndarray) :
  answer (_read_pixels order px_num seek_pos) self w = Ok a ->
  nd_shape a = [px_num] /\ nd_size a = px_num.
Proof.
  unfold answer, _read_pixels.
  destruct (ReadFileHandle self) as [h|]; [|discriminate].
  destruct (file_seek h seek_pos) as [h1|]; [|discriminate].
  destruct (file_read h1 _ w) as [[fc h2]|]; [|discriminate].
  destruct (_ <? _); [discriminate|].
  destruct (struct_unpack _ _ _ _) as [vs|] eqn:E; [|discriminate].
  simpl. intros [= <-]. apply struct_unpack_length in E.
  unfold nd_size. simpl. now rewrite E.
Qed.

(** The world is left as it was, whatever the read does. *)
Lemma _read_pixels_world (order : byteorder) (self : MIfile) (w : world)
    (px_num : Z) (seek_pos : option Z) :
  world_after (_read_pixels order px_num seek_pos) self w = w.
Proof.
  unfold world_after, _read_pixels.
  destruct (ReadFileHandle self) as [h|]; [|reflexivity].
  destruct (file_seek h seek_pos) as [h1|]; [|reflexivity].
  destruct (file_read h1 _ w) as [[fc h2]|]; [|reflexivity].
  destruct (_ <? _); [reflexivity|].
  destruct (struct_unpack _ _ _ _); reflexivity.
Qed.

Lemma file_read_set_heap (h : rhandle) (n : Z) (w : world)
    (hp : list (list Z)) :
  file_read h n (set_heap w hp) = file_read h n w.
Proof. reflexivity. Qed.

(** The read primitive does not look at the heap of lists. *)
Lemma _read_pixels_set_heap (order : byteorder) (self : MIfile) (w : world)
    (hp : list (list Z)) (px_num : Z) (seek_pos : option Z) :
  _read_pixels order px_num seek_pos (self, set_heap w hp)
  = (answer (_read_pixels order px_num seek_pos) self w,
     (store_after (_read_pixels order px_num seek_pos) self w,
      set_heap w hp)).
Proof.
  unfold answer, store_after, _read_pixels.
  destruct (ReadFileHandle self) as [h|]; [|reflexivity].
  destruct (file_seek h seek_pos) as [h1|]; [|reflexivity].
  rewrite file_read_set_heap.
  destruct (file_read h1 _ w) as [[fc h2]|]; [|reflexivity].
  destruct (_ <? _); [reflexivity|].
  destruct (struct_unpack _ _ _ _); reflexivity.
Qed.

(** A read that the file serves in full. *)
Lemma _read_pixels_ok (order : byteorder) (self : MIfile) (w : world)
    (h : rhandle) (px_num p : Z) :
  ReadFileHandle self = Some h ->
  PixelDepth self = _data_depth (PixelFormat self) ->
  0 <= p -> 0 <= px_num ->
  p + px_num * PixelDepth self
    <= Z.of_nat (length (file_content w (rh_name h))) ->
  _read_pixels order px_num (Some p) (self, w)
  = (Ok (asarray_tuple (unpacked_dtype (PixelFormat self))
           (pixels_at order self w (rh_name h) p px_num)),
     (set_handles self
        (Some {| rh_name := rh_name h;
                 rh_pos := p + px_num * PixelDepth self |})
        (WriteFileHandle self) (ReadingFileName self), w)).
Proof.
  intros Hh Hd Hp Hn Hlen. unfold _read_pixels. rewrite Hh.
  rewrite (file_seek_allowed h (Some p)) by exact Hp.
  unfold file_read, read_position. cbn [rh_name rh_pos].
  assert (Hdp : 0 < PixelDepth self)
    by (rewrite Hd; destruct (PixelFormat self); reflexivity).
  set (n := px_num * PixelDepth self) in *.
  assert (Hn0 : 0 <= n) by (subst n; nia).
  destruct (Z.ltb_spec n (-1)); [lia|].
  destruct (Z.eqb_spec n (-1)); [lia|].
  set (rest := drop (Z.to_nat p) (file_content w (rh_name h))).
  assert (Hrest : (Z.to_nat n <= length rest)%nat)
    by (subst rest; rewrite length_drop; lia).
  assert (Htake : length (take (Z.to_nat n) rest) = Z.to_nat n)
    by (rewrite length_take; lia).
  rewrite Htake, Z2Nat.id by lia.
  destruct (Z.ltb_spec n n); [lia|].
  unfold struct_unpack.
  destruct (Z.ltb_spec px_num 0); [lia|].
  rewrite Htake, Z2Nat.id by lia. rewrite <- Hd. fold n.
  rewrite Z.eqb_refl. reflexivity.
Qed.

Lemma length_pixels_at (order : byteorder) (self : MIfile) (w : world)
    (name : string) (p px_num : Z) :
  length (pixels_at order self w name p px_num) = Z.to_nat px_num.
Proof. unfold pixels_at. now rewrite length_map, length_split_bytes. Qed.

(** ** Reading a stack of frames *)

(** The frames a file holds from frame [start_idx] on, as [GetStack]
    returns them. *)
Lemma GetStack_ok (order : byteorder) (self : MIfile) (w : world)
    (h : rhandle) (start_idx imgs_num : Z) :
  ReadFileHandle self = Some h ->
  consistent self ->
  0 <= hdrSize self -> 0 <= ImgHeight self -> 0 <= ImgWidth self ->
  0 <= start_idx -> 0 <= imgs_num ->
  _get_offset self start_idx 0 0 + imgs_num * PxPerImg self * PixelDepth self
    <= Z.of_nat (length (file_content w (rh_name h))) ->
  answer (GetStack order start_idx imgs_num) self w
  = Ok {| nd_dtype :=
            nd_dtype (asarray_tuple (unpacked_dtype (PixelFormat self))
                        (pixels_at order self w (rh_name h)
                           (_get_offset self start_idx 0 0)
                           (imgs_num * PxPerImg self)));
          nd_shape := [imgs_num; ImgHeight self; ImgWidth self];
          nd_data := pixels_at order self w (rh_name h)
                       (_get_offset self start_idx 0 0)
                       (imgs_num * PxPerImg self) |}.
Proof.
  intros Hh (Hshape & Hpx & Hd & Ht) Hhdr Hht Hwd Hs Hn Hlen.
  assert (Hdp : 0 < PixelDepth self)
    by (rewrite Hd; destruct (PixelFormat self); reflexivity).
  assert (Hpx0 : 0 <= PxPerImg self) by (rewrite Hpx; nia).
  assert (Hoff : 0 <= _get_offset self start_idx 0 0)
    by (unfold _get_offset; nia).
  unfold answer, GetStack, bind, self_. cbn [fst snd].
  destruct (Z.ltb_spec imgs_num 0); [lia|].
  rewrite (_read_pixels_ok order self w h) by (auto; nia).
  unfold liftR, reshape. cbn [fst snd].
  unfold nd_size. cbn [nd_data asarray_tuple].
  rewrite length_pixels_at.
  replace (forallb (Z.leb 0) [imgs_num; ImgHeight self; ImgWidth self]) with true.
  2:{ symmetry. simpl. rewrite !andb_true_iff. repeat split; apply Z.leb_le; lia. }
  replace (prod [imgs_num; ImgHeight self; ImgWidth self]
           =? Z.of_nat (Z.to_nat (imgs_num * PxPerImg self))) with true.
  2:{ symmetry. apply Z.eqb_eq. unfold prod. simpl. rewrite Hpx. nia. }
  reflexivity.
Qed.

Lemma GetStack_set_heap (order : byteorder) (self : MIfile) (w : world)
    (hp : list (list Z)) (start_idx imgs_num : Z) :
  answer (GetStack order start_idx imgs_num) self (set_heap w hp)
  = answer (GetStack order start_idx imgs_num) self w.
Proof.
  unfold answer at 1 2, GetStack, bind, self_. cbn [fst snd].
  rewrite _read_pixels_set_heap.
  unfold answer, store_after.
  destruct (_read_pixels _ _ _ (self, w)) as [[a|e] [s' w']]; reflexivity.
Qed.

(** ** Reading with the default range *)

Lemma OpenForReading_inv (fName : option string) (self : MIfile) (w : world) :
  (exists e, OpenForReading fName (self, w) = (Raise e, (self, w)))
  \/ (OpenForReading fName (self, w) = (Ok tt, (self, w))
      /\ ReadFileHandle self <> None)
  \/ (exists f,
        OpenForReading fName (self, w)
        = (Ok tt, (set_handles self (Some {| rh_name := f; rh_pos := 0 |})
                     (WriteFileHandle self) (Some f), w))
        /\ ReadFileHandle self = None
        /\ or_else fName (FileName self) = Some f
        /\ is_Some (files w !! f)).
Proof.
  unfold OpenForReading.
  destruct (ReadFileHandle self) eqn:Eh; [right; left; split; [reflexivity|discriminate]|].
  destruct (or_else fName (FileName self)) as [f|]; [|left; eauto].
  destruct (files w !! f) eqn:Ef; [|left; eauto].
  right; right. exists f. repeat split; eauto.
Qed.

Lemma list_getitem_fresh (w : world) (l : list Z) (i : Z) :
  list_getitem (length (heap w)) i (set_heap w (heap w ++ [l]))
  = (py_index l i, set_heap w (heap w ++ [l])).
Proof.
  unfold list_getitem, bind, deref, liftR. simpl heap.
  rewrite list_lookup_middle by reflexivity.
  destruct (py_index l i); reflexivity.
Qed.

(** [Read] with no range and no region: open, note the range
    [[0, ImgNumber, 1]] in a new list, read the stack. *)
Lemma Read_default_run (order : byteorder) (self self1 : MIfile)
    (w : world) :
  OpenForReading None (self, w) = (Ok tt, (self1, w)) ->
  Read order None None false (self, w)
  = (let w2 := set_heap w (heap w ++ [[0; ImgNumber self1; 1]]) in
     GetStack order 0 (ImgNumber self1) (self1, w2)).
Proof.
  intros Ho. unfold Read. unfold bind at 1. rewrite Ho.
  unfold bind at 1. unfold MIfile_Validate_zRange at 1.
  unfold bind at 1, self_ at 1. cbn [fst snd].
  unfold in_world at 1. cbn [fst snd].
  unfold Validate_zRange, bind at 1, alloc, ret. cbn [fst snd].
  unfold bind at 1, in_world at 1. cbn [fst snd].
  rewrite list_getitem_fresh.
  change (py_index [0; ImgNumber self1; 1] 2) with (Ok (A:=Z) 1).
  cbn [Z.eqb Pos.eqb andb]. rewrite bool_decide_eq_true_2 by reflexivity.
  unfold bind at 1. unfold bind at 1, in_world at 1. cbn [fst snd].
  rewrite list_getitem_fresh.
  change (py_index [0; ImgNumber self1; 1] 0) with (Ok (A:=Z) 0).
  unfold bind at 1, in_world at 1. cbn [fst snd].
  rewrite list_getitem_fresh.
  change (py_index [0; ImgNumber self1; 1] 1) with (Ok (A:=Z) (ImgNumber self1)).
  cbv iota beta. rewrite Z.sub_0_r.
  destruct (GetStack order 0 (ImgNumber self1) _) as [[a|e] s'] eqn:E;
    reflexivity.
Qed.

Lemma Read_default_answer (order : byteorder) (self : MIfile) (w : world) :
  answer (Read order None None false) self w
  = answer (OpenForReading None ;;; GetStack order 0 (ImgNumber self)) self w.
Proof.
  unfold answer at 2. unfold bind.
  destruct (OpenForReading_inv None self w) as [[e He]|[[Ho _]|[f [Ho _]]]].
  - rewrite He. unfold answer, Read, bind. now rewrite He.
  - rewrite Ho. unfold answer at 1. rewrite (Read_default_run _ _ _ _ Ho).
    cbv zeta. apply GetStack_set_heap.
  - rewrite Ho. unfold answer at 1. rewrite (Read_default_run _ _ _ _ Ho).
    cbv zeta. apply GetStack_set_heap.
Qed.

(** The array [Read] returns when the file holds the declared frames. *)
Lemma Read_default_ok (order : byteorder) (self : MIfile) (w : world)
    (f : string) (content : list Z) :
  reading_file self = Some f ->
  files w !! f = Some content ->
  consistent self ->
  0 <= hdrSize self -> 0 <= ImgNumber self ->
  0 <= ImgHeight self -> 0 <= ImgWidth self ->
  declared_size self <= Z.of_nat (length content) ->
  exists t,
    answer (Read order None None false) self w
    = Ok {| nd_dtype := t;
            nd_shape := [ImgNumber self; ImgHeight self; ImgWidth self];
            nd_data := pixels_at order self w f (hdrSize self)
                         (ImgNumber self * PxPerImg self) |}.
Proof.
  intros Hf Hc Hcons Hhdr Hn Hh Hw Hsize.
  assert (Hfc : file_content w f = content)
    by (unfold file_content; now rewrite Hc).
  pose proof Hcons as (Hshape & Hpx & Hd & Ht).
  unfold declared_size in Hsize.
  rewrite Read_default_answer. unfold answer, bind.
  destruct (OpenForReading_inv None self w)
    as [[e He]|[[Ho Hne]|[f' [Ho [Hnone [Hor Hsome]]]]]].
  - exfalso. unfold OpenForReading, reading_file in *.
    destruct (ReadFileHandle self); [discriminate|].
    simpl in He. rewrite Hf in He. rewrite Hc in He. discriminate.
  - rewrite Ho. unfold reading_file in Hf.
    destruct (ReadFileHandle self) as [h|] eqn:Eh; [|contradiction].
    injection Hf as <-.
    eexists.
    fold (answer (GetStack order 0 (ImgNumber self)) self w).
    rewrite (GetStack_ok order self w h); auto.
    + unfold _get_offset.
      replace (hdrSize self + (0 * PxPerImg self + 0 * ImgWidth self + 0)
                              * PixelDepth self) with (hdrSize self) by lia.
      reflexivity.
    + lia.
    + unfold _get_offset. rewrite Hfc. lia.
  - rewrite Ho.
    set (self1 := set_handles self _ _ _) in *.
    unfold reading_file in Hf. rewrite Hnone in Hf.
    simpl in Hor. rewrite Hf in Hor. injection Hor as <-.
    eexists.
    fold (answer (GetStack order 0 (ImgNumber self)) self1 w).
    change (ImgNumber self) with (ImgNumber self1) at 1.
    rewrite (GetStack_ok order self1 w {| rh_name := f; rh_pos := 0 |});
      subst self1; cbn; auto.
    + unfold _get_offset, pixels_at. cbn.
      replace (hdrSize self + (0 * PxPerImg self + 0 * ImgWidth self + 0)
                              * PixelDepth self) with (hdrSize self) by lia.
      reflexivity.
    + lia.
    + unfold _get_offset. cbn. rewrite Hfc. lia.
Qed.

(** C5, as the code has it.  [Read] with no frame range and no region
    opens the read handle when there is none and hands over to
    [GetStack(0, ImgNumber)]: it answers what [GetStack] answers on the
    store so opened.  On a store that is already open for reading the two
    calls give the same answer; and when the file holds at least the
    declared frames the answer is the array of shape
    [[ImgNumber, ImgHeight, ImgWidth]] of the pixels that follow the
    header. *)
Theorem Read_default_equals_GetStack (order : byteorder) (self : MIfile)
    (w : world) :
  answer (Read order None None false) self w
  = answer (OpenForReading None ;;; GetStack order 0 (ImgNumber self)) self w
  /\ (ReadFileHandle self <> None ->
      answer (Read order None None false) self w
      = answer (GetStack order 0 (ImgNumber self)) self w)
  /\ (forall f content,
        reading_file self = Some f ->
        files w !! f = Some content ->
        consistent self ->
        0 <= hdrSize self -> 0 <= ImgNumber self ->
        0 <= ImgHeight self -> 0 <= ImgWidth self ->
        declared_size self <= Z.of_nat (length content) ->
        exists arr,
          answer (Read order None None false) self w = Ok arr
          /\ answer (OpenForReading None ;;; GetStack order 0 (ImgNumber self))
               self w = Ok arr
          /\ nd_shape arr = [ImgNumber self; ImgHeight self; ImgWidth self]
          /\ nd_data arr
             = pixels_at order self w f (hdrSize self)
                 (ImgNumber self * PxPerImg self)).
Proof.
  split; [apply Read_default_answer|]. split.
  - intros Hopen. rewrite Read_default_answer. unfold answer at 1, bind.
    destruct (OpenForReading_inv None self w)
      as [[e He]|[[Ho _]|[f [Ho [Hn _]]]]].
    + unfold OpenForReading in He.
      destruct (ReadFileHandle self); [discriminate | contradiction].
    + now rewrite Ho.
    + contradiction.
  - intros f content Hf Hc Hcons Hhdr Hn Hh Hw Hsize.
    destruct (Read_default_ok order self w f content Hf Hc Hcons Hhdr Hn Hh
                Hw Hsize) as [t Ht].
    eexists. split; [exact Ht|]. split; [|split; reflexivity].
    rewrite <- Read_default_answer. exact Ht.
Qed.

Lemma Read_default_equals_GetStack_witness :
  (ReadFileHandle open6 <> None
   /\ answer (Read little_endian None None false) open6 world6
      = answer (GetStack little_endian 0 (ImgNumber open6)) open6 world6)
  /\ exists arr,
       answer (Read little_endian None None false) store6 world6 = Ok arr
       /\ answer (OpenForReading None ;;; GetStack little_endian 0 3)
            store6 world6 = Ok arr
       /\ nd_shape arr = [3; 1; 2]
       /\ nd_data arr = map Num [1; 2; 3; 4; 5; 6].
Proof.
  split.
  - split; [discriminate|].
    apply (proj1 (proj2 (Read_default_equals_GetStack little_endian open6
                           world6))).
    discriminate.
  - destruct (proj2 (proj2 (Read_default_equals_GetStack little_endian store6
                              world6))
                "a"%string [1; 2; 3; 4; 5; 6] eq_refl eq_refl)
      as [arr H].
    + repeat split.
    + discriminate.
    + discriminate.
    + discriminate.
    + discriminate.
    + discriminate.
    + exists arr. exact H.
Defined.

(** [GetStack] does not open the read handle.  On a store that has
    none, whose file holds the declared frames, [Read] returns the stack
    and [GetStack(0, ImgNumber)] raises AttributeError: the two calls do
    not answer the same. *)
Lemma Read_GetStack_counterexample :
  declared_size store6 <= Z.of_nat (length (file_content world6 "a"))
  /\ answer (Read little_endian None None false) store6 world6
     = Ok {| nd_dtype := np_int64; nd_shape := [3; 1; 2];
             nd_data := map Num [1; 2; 3; 4; 5; 6] |}
  /\ answer (GetStack little_endian 0 (ImgNumber store6)) store6 world6
     = Raise AttributeError
  /\ answer (Read little_endian None None false) store6 world6
     <> answer (GetStack little_endian 0 (ImgNumber store6)) store6 world6.
Proof.
  split; [discriminate|]. split; [reflexivity|]. split; [reflexivity|].
  discriminate.
Qed.

(** ** Reading past the end *)

Lemma GetStack_raise (order : byteorder) (self : MIfile) (w : world)
    (start_idx imgs_num : Z) (e : exn) :
  0 <= imgs_num ->
  answer (_read_pixels order (imgs_num * PxPerImg self)
            (Some (_get_offset self start_idx 0 0))) self w = Raise e ->
  answer (GetStack order start_idx imgs_num) self w = Raise e.
Proof.
  intros Hn. unfold answer, GetStack, bind, self_. cbn [fst snd].
  destruct (Z.ltb_spec imgs_num 0); [lia|].
  destruct (_read_pixels _ _ _ _) as [[a|e'] s']; simpl; [discriminate|].
  now intros [= ->].
Qed.

(** A stack read that runs past the declared frames, on a file that holds
    no more than these, ends in the end-of-file error. *)
Lemma GetStack_past_declared (order : byteorder) (self : MIfile) (w : world)
    (h : rhandle) (start_idx imgs_num : Z) :
  ReadFileHandle self = Some h ->
  0 <= hdrSize self -> 0 < PxPerImg self -> 0 < PixelDepth self ->
  0 <= start_idx -> 0 < imgs_num ->
  ImgNumber self < start_idx + imgs_num ->
  Z.of_nat (length (file_content w (rh_name h))) <= declared_size self ->
  exists got,
    got < imgs_num * PxPerImg self * PixelDepth self
    /\ answer (GetStack order start_idx imgs_num) self w
       = Raise (IOError_EOF (Some (_get_offset self start_idx 0 0)) got
                  (imgs_num * PxPerImg self * PixelDepth self)
                  (imgs_num * PxPerImg self) (ReadingFileName self)).
Proof.
  intros Hh Hhdr Hpx Hd Hs Hn Hpast Hlen.
  set (off := _get_offset self start_idx 0 0).
  assert (Hoff : off = hdrSize self + start_idx * PxPerImg self * PixelDepth self)
    by (unfold off, _get_offset; lia).
  assert (Hshort : bytes_available w h (Some off)
                   < imgs_num * PxPerImg self * PixelDepth self).
  { unfold bytes_available, read_position. rewrite length_drop.
    unfold declared_size in Hlen.
    assert (0 < PxPerImg self * PixelDepth self) by nia.
    assert (ImgNumber self * (PxPerImg self * PixelDepth self)
            < (start_idx + imgs_num) * (PxPerImg self * PixelDepth self))
      by (apply Z.mul_lt_mono_pos_r; lia).
    assert (0 <= start_idx * (PxPerImg self * PixelDepth self)) by nia.
    nia. }
  exists (bytes_available w h (Some off)). split; [exact Hshort|].
  apply GetStack_raise; [lia|].
  apply (_read_pixels_short order self w h); auto.
  simpl. lia.
Qed.

(** C7. A call of the read primitive that the file cannot serve in full
    raises the end-of-file error, which carries the number of bytes
    obtained and the number asked for; whatever the primitive returns
    has exactly the requested number of pixels, never fewer; and a stack
    read past the declared frame count, on a file that ends with the
    declared frames, raises that error. *)
Theorem short_read_raises_EOF (order : byteorder) (self : MIfile) (w : world)
    (h : rhandle) :
  ReadFileHandle self = Some h ->
  (forall px_num seek_pos,
      seek_allowed seek_pos ->
      bytes_available w h seek_pos < px_num * PixelDepth self ->
      answer (_read_pixels order px_num seek_pos) self w
      = Raise (IOError_EOF seek_pos (bytes_available w h seek_pos)
                 (px_num * PixelDepth self) px_num (ReadingFileName self)))
  /\ (forall px_num seek_pos a,
        answer (_read_pixels order px_num seek_pos) self w = Ok a ->
        nd_shape a = [px_num] /\ nd_size a = px_num)
  /\ (forall start_idx imgs_num,
        0 <= hdrSize self -> 0 < PxPerImg self -> 0 < PixelDepth self ->
        Z.of_nat (length (file_content w (rh_name h))) <= declared_size self ->
        0 <= start_idx -> 0 < imgs_num ->
        ImgNumber self < start_idx + imgs_num ->
        exists got,
          got < imgs_num * PxPerImg self * PixelDepth self
          /\ answer (GetStack order start_idx imgs_num) self w
             = Raise (IOError_EOF (Some (_get_offset self start_idx 0 0)) got
                        (imgs_num * PxPerImg self * PixelDepth self)
                        (imgs_num * PxPerImg self) (ReadingFileName self))).
Proof.
  intros Hh. split; [|split].
  - intros. now apply (_read_pixels_short order self w h).
  - intros. eapply _read_pixels_Ok_size; eauto.
  - intros. now apply (GetStack_past_declared order self w h).
Qed.

Lemma short_read_raises_EOF_witness :
  answer (_read_pixels little_endian 4 (Some 4)) open6 world6
  = Raise (IOError_EOF (Some 4) 2 4 4 (Some "a"%string))
  /\ exists got,
       got < 4
       /\ answer (GetStack little_endian 2 2) open6 world6
          = Raise (IOError_EOF (Some 4) got 4 4 (Some "a"%string)).
Proof.
  pose proof (short_read_raises_EOF little_endian open6 world6
                {| rh_name := "a"; rh_pos := 0 |} eq_refl) as [H1 [_ H3]].
  split.
  - apply (H1 4 (Some 4)); [simpl; lia | reflexivity].
  - apply (H3 2 2); first [reflexivity | discriminate].
Defined.

(** The file may hold more than the store declares: a read past the
    declared frame count then returns the frames that follow. *)
Example GetStack_past_declared_in_longer_file :
  ImgNumber open6 = 3
  /\ answer (GetStack little_endian 3 1) open6 world8
     = Ok {| nd_dtype := np_int64; nd_shape := [1; 1; 2];
             nd_data := [Num 7; Num 8] |}.
Proof. split; reflexivity. Qed.


(** ** Chunked writing *)

Lemma OpenForWriting_attributes (order : byteorder) (fName : option string)
    (self s1 : MIfile) (w w1 : world) (r : result unit) :
  OpenForWriting order fName None (self, w) = (r, (s1, w1)) ->
  MaxBufferSize s1 = MaxBufferSize self /\ PixelFormat s1 = PixelFormat self.
Proof.
  unfold OpenForWriting, bind, open_wb, ret.
  destruct (WriteFileHandle self).
  - now intros [= <- <- <-].
  - destruct (or_else fName (FileName self)); now intros [= <- <- <-].
Qed.

(** [WriteData] uses the size measure in two comparisons only. *)
Lemma WriteData_size_measure (order : byteorder) (g g' : ndarray -> Z)
    (data_arr : ndarray) (closeAfter : bool) (self : MIfile) (w : world) :
  (g data_arr >? MaxBufferSize self) = (g' data_arr >? MaxBufferSize self) ->
  (forall first, getitem0 data_arr = Ok first ->
     (g first >? MaxBufferSize self) = (g' first >? MaxBufferSize self)) ->
  WriteData order g data_arr closeAfter (self, w)
  = WriteData order g' data_arr closeAfter (self, w).
Proof.
  intros H1 H2. unfold WriteData, bind.
  destruct (OpenForWriting order None None (self, w)) as [[[]|e] [s1 w1]] eqn:E;
    [|reflexivity].
  apply OpenForWriting_attributes in E as [Eb _].
  unfold self_. cbn [fst snd]. rewrite Eb, H1.
  destruct (g' data_arr >? MaxBufferSize self); [|reflexivity].
  unfold liftR. destruct (getitem0 data_arr) as [first|] eqn:E0; [|reflexivity].
  now rewrite (H2 first eq_refl).
Qed.

(** C1. An array of ten frames of a hundred float64 pixels (8000 bytes)
    written to a store whose buffer budget is 1000 bytes, for any size
    measure under which the array exceeds the budget and one frame does
    not: [WriteData] computes [xsec_per_buffer = 1000 // 100 = 10] frames
    per chunk and hands the whole array to a single [write], a chunk of
    1000 elements and 8000 bytes, eight times the budget. *)
Theorem WriteData_chunk_exceeds_budget (order : byteorder)
    (getsizeof : ndarray -> Z) :
  getsizeof array_f64 > MaxBufferSize store_f64 ->
  getsizeof frame_f64 <= MaxBufferSize store_f64 ->
  MaxBufferSize store_f64 = 1000
  /\ getitem0 array_f64 = Ok frame_f64
  /\ answer (WriteData order getsizeof array_f64 true) store_f64
       (world_of [] []) = Ok tt
  /\ write_calls (world_after (WriteData order getsizeof array_f64 true)
                    store_f64 (world_of [] []))
     = [("out"%string, replicate (Z.to_nat 8000) 0)].
Proof.
  intros Hbig Hsmall.
  split; [reflexivity|]. split; [reflexivity|].
  unfold answer, world_after.
  rewrite (WriteData_size_measure order getsizeof buffer_bytes).
  - destruct order; vm_compute; split; reflexivity.
  - transitivity true.
    + rewrite Z.gtb_ltb. apply Z.ltb_lt. lia.
    + reflexivity.
  - intros first Hf. change (getitem0 array_f64) with (Ok frame_f64) in Hf.
    injection Hf as <-. transitivity false.
    + rewrite Z.gtb_ltb. apply Z.ltb_ge. lia.
    + reflexivity.
Qed.

Lemma WriteData_chunk_exceeds_budget_witness :
  buffer_bytes array_f64 = 8000
  /\ buffer_bytes frame_f64 = 800
  /\ write_calls (world_after (WriteData little_endian buffer_bytes array_f64
                                true) store_f64 (world_of [] []))
     = [("out"%string, replicate (Z.to_nat 8000) 0)].
Proof.
  split; [reflexivity|]. split; [reflexivity|].
  apply (WriteData_chunk_exceeds_budget little_endian buffer_bytes);
    vm_compute; congruence.
Defined.

(** With one byte per pixel the same rule keeps a chunk within the
    budget: 25 frames of four uint8 pixels and a budget of 10 bytes give
    chunks of two frames. *)
Example WriteData_chunks_of_bytes :
  write_calls
    (world_after
       (WriteData little_endian buffer_bytes
          {| nd_dtype := np_uint8; nd_shape := [5; 2; 2];
             nd_data := map Num [1; 2; 3; 4; 5; 6; 7; 8; 9; 10; 11; 12; 13;
                                 14; 15; 16; 17; 18; 19; 20] |} true)
       (new_MIfile "out" (metadata 0 [5; 2; 2] FB 10)) (world_of [] []))
  = [("out"%string, [1; 2; 3; 4; 5; 6; 7; 8]);
     ("out"%string, [9; 10; 11; 12; 13; 14; 15; 16]);
     ("out"%string, [17; 18; 19; 20])].
Proof. reflexivity. Qed.

(** A frame beyond the budget is refused. *)
Example WriteData_oversized_frame :
  answer (WriteData little_endian buffer_bytes
            {| nd_dtype := np_uint8; nd_shape := [2; 1; 4];
               nd_data := map Num [1; 2; 3; 4; 5; 6; 7; 8] |} true)
    (new_MIfile "out" (metadata 0 [2; 1; 4] FB 3)) (world_of [] [])
  = Raise IOError_large_array.
Proof. reflexivity. Qed.

(** ** Merging *)

(** C3. Three stores of one pixel each, holding 1, 2 and 3, merged along
    axis 2: the concatenation of their contents in list order is
    [[[1, 2, 3]]], but the loop over the inputs reads from [cur_mifile],
    which the loading loop has left bound to the last store, and the file
    written holds 1, 3, 3. *)
Theorem merge_reads_last_store_each_turn (order : byteorder) :
  contents_in_list_order order [store_px "a"; store_px "b"; store_px "c"] 2
    world_abc
  = Ok {| nd_dtype := np_int64; nd_shape := [1; 1; 3];
          nd_data := [Num 1; Num 2; Num 3] |}
  /\ exists objs w',
       MergeMIfiles order buffer_bytes no_settings (Some "out"%string)
         [ItemStore (store_px "a"); ItemStore (store_px "b");
          ItemStore (store_px "c")] None 2 None world_abc
       = (Ok objs, w')
       /\ write_calls w' = [("out"%string, [1; 3; 3])]
       /\ file_content w' "out" = [1; 3; 3].
Proof.
  split.
  - destruct order; reflexivity.
  - destruct order; eexists; eexists; (split; [vm_compute; reflexivity|]);
      split; reflexivity.
Qed.

(** With two stores the last store is the second one, and the merge is
    the concatenation. *)
Example merge_of_two_along_axis_2 :
  file_content
    (snd (MergeMIfiles little_endian buffer_bytes no_settings
            (Some "out"%string)
            [ItemStore (store_px "a"); ItemStore (store_px "b")] None 2 None
            world_abc)) "out"
  = [1; 2].
Proof. reflexivity. Qed.

(** Along axis 1 the loading loop compares the first store with the
    initial shape [[0, 0, 0]] and refuses it. *)
Example merge_along_axis_1 :
  MergeMIfiles little_endian buffer_bytes no_settings (Some "out"%string)
    [ItemStore (store_px "a"); ItemStore (store_px "b")] None 1 None world_abc
  = (Raise (IOError_shapes [0; 1; 0] [1; 1; 1] 1), world_abc).
Proof. reflexivity. Qed.

(** Along the frame axis the inputs are appended in list order. *)
Example merge_along_axis_0 :
  file_content
    (snd (MergeMIfiles little_endian buffer_bytes no_settings
            (Some "out"%string)
            [ItemStore (store_px "a"); ItemStore (store_px "b");
             ItemStore (store_px "c")] None 0 None world_abc)) "out"
  = [1; 2; 3].
Proof. reflexivity. Qed.

(** C8. The loading loop takes an input for the first one as long as the
    accumulated height is 0, and then copies its extents and format
    without comparing.  Stores of shapes [[3, 0, 2]] and [[3, 0, 3]], of
    formats 'B' and 'H', merge along axis 0 without error into a store
    of shape [[6, 0, 3]]; a store with the default shape [[0, 0, 0]] and
    format 'B' followed by a store of shape [[1, 1, 2]] and format 'H'
    merge without error, and the pixels of the second are written. *)
Theorem merge_accepts_mismatch_at_height_0 (order : byteorder) :
  (exists ins out w',
      MergeMIfiles order buffer_bytes no_settings (Some "out"%string)
        [ItemStore store_3x0x2; ItemStore store_3x0x3] None 0 None world_pq
      = (Ok (ins, out), w')
      /\ Shape out = [6; 0; 3] /\ PixelFormat out = FH)
  /\ (exists ins out w',
        MergeMIfiles order buffer_bytes no_settings (Some "out"%string)
          [ItemStore store_default; ItemStore store_1x1x2] None 0 None
          world_pq2
        = (Ok (ins, out), w')
        /\ Shape out = [1; 1; 2] /\ PixelFormat out = FH
        /\ file_content w' "out" = [1; 0; 2; 0]).
Proof.
  split.
  - destruct order; eexists; eexists; eexists;
      (split; [vm_compute; reflexivity|]); split; reflexivity.
  - destruct order; eexists; eexists; eexists;
      (split; [vm_compute; reflexivity|]); repeat split; reflexivity.
Qed.

(** The example of the specification, with frames of two rows: the
    mismatch in width is refused, and nothing has been written. *)
Example merge_rejects_width_mismatch :
  MergeMIfiles little_endian buffer_bytes no_settings (Some "out"%string)
    [ItemStore store_3x2x2; ItemStore store_3x2x3] None 0 None world_pq
  = (Raise (IOError_shapes [6; 2; 2] [3; 2; 3] 0), world_pq).
Proof. reflexivity. Qed.

(** Once the accumulated height is not 0, a turn of the loading loop
    along axis 0 refuses a store whose height or width differs, and then
    one whose pixel format differs. *)
Lemma merge_step_checks (acc : merge_acc) (m : MIfile) (s0 s1 s2 n h wd : Z) :
  merge_axis acc = 0 ->
  out_shape acc = [s0; s1; s2] ->
  Shape m = [n; h; wd] ->
  s1 <> 0 ->
  (s1 <> h \/ s2 <> wd ->
   merge_step no_settings acc (ItemStore m)
   = Raise (IOError_shapes [s0 + n; s1; s2] [n; h; wd] 0))
  /\ (s1 = h -> s2 = wd -> out_px_format acc <> Some (PixelFormat m) ->
      merge_step no_settings acc (ItemStore m) = Raise IOError_format).
Proof.
  intros Hax Hout Hm Hs1.
  assert (E1 : (s1 =? 0) = false) by now apply Z.eqb_neq.
  assert (Hrun : merge_step no_settings acc (ItemStore m)
                 = if negb (s1 =? h) then
                     Raise (IOError_shapes [s0 + n; s1; s2] [n; h; wd] 0)
                   else if negb (s2 =? wd) then
                     Raise (IOError_shapes [s0 + n; s1; s2] [n; h; wd] 0)
                   else if negb (bool_decide
                                   (out_px_format acc = Some (PixelFormat m)))
                   then Raise IOError_format
                   else Ok {| mi_in_list := mi_in_list acc ++ [m];
                              out_shape := [s0 + n; s1; s2];
                              out_px_format := out_px_format acc;
                              out_fps := out_fps acc;
                              out_px_size := out_px_size acc;
                              merge_axis := 0 |}).
  { unfold merge_step. cbn [rbind]. cbv zeta.
    unfold GetShape, DataFormat. rewrite Hax, Hout, Hm.
    cbn [rbind Z.ltb Z.compare].
    change (py_index [s0; s1; s2] 0) with (Ok (A:=Z) s0).
    change (py_index [n; h; wd] 0) with (Ok (A:=Z) n).
    cbn [rbind].
    change (py_setitem [s0; s1; s2] 0 (s0 + n)) with (Ok [s0 + n; s1; s2]).
    cbn [rbind].
    change (py_index [s0 + n; s1; s2] 1) with (Ok (A:=Z) s1).
    cbn [rbind]. rewrite E1.
    change (axes [n; h; wd]) with [0; 1; 2].
    cbn [rfold rbind Z.eqb negb Pos.eqb].
    change (py_index [s0 + n; s1; s2] 1) with (Ok (A:=Z) s1).
    change (py_index [n; h; wd] 1) with (Ok (A:=Z) h).
    cbn [rbind].
    destruct (negb (s1 =? h)); [reflexivity|].
    cbn [rfold rbind Z.eqb negb Pos.eqb].
    change (py_index [s0 + n; s1; s2] 2) with (Ok (A:=Z) s2).
    change (py_index [n; h; wd] 2) with (Ok (A:=Z) wd).
    cbn [rbind].
    destruct (negb (s2 =? wd)); reflexivity. }
  rewrite Hrun. split.
  - intros [Hne|Hne].
    + destruct (Z.eqb_spec s1 h); [contradiction | reflexivity].
    + destruct (negb (s1 =? h)); [reflexivity|].
      destruct (Z.eqb_spec s2 wd); [contradiction | reflexivity].
  - intros -> -> Hf. rewrite !Z.eqb_refl. cbn [negb].
    now rewrite bool_decide_eq_false_2 by exact Hf.
Qed.

(** ** Byte strings of values *)

Lemma length_le_bytes (n : nat) (z : Z) : length (le_bytes n z) = n.
Proof.
  revert z. induction n as [|n IH]; intros z; simpl; [reflexivity|].
  now rewrite IH.
Qed.

Lemma length_to_bytes (order : byteorder) (n : nat) (z : Z) :
  length (to_bytes order n z) = n.
Proof.
  destruct order; simpl; [|rewrite length_rev]; apply length_le_bytes.
Qed.

Lemma le_value_le_bytes (n : nat) (z : Z) :
  0 <= z < 256 ^ Z.of_nat n -> le_value (le_bytes n z) = z.
Proof.
  revert z. induction n as [|n IH]; intros z Hz.
  - simpl in *. lia.
  - cbn [le_bytes le_value]. rewrite IH.
    + pose proof (Z.div_mod z 256). lia.
    + rewrite Nat2Z.inj_succ, Z.pow_succ_r in Hz by lia.
      split; [apply Z.div_pos; lia|].
      apply Z.div_lt_upper_bound; lia.
Qed.

Lemma from_bytes_to_bytes (order : byteorder) (n : nat) (z : Z) :
  0 <= z < 256 ^ Z.of_nat n -> from_bytes order (to_bytes order n z) = z.
Proof.
  intros Hz. destruct order; simpl.
  - now apply le_value_le_bytes.
  - rewrite rev_involutive. now apply le_value_le_bytes.
Qed.

Lemma le_value_bytes (bs : list Z) :
  Forall is_byte bs -> 0 <= le_value bs < 256 ^ Z.of_nat (length bs).
Proof.
  induction 1 as [|b bs Hb _ IH].
  - simpl. lia.
  - cbn [le_value length]. rewrite Nat2Z.inj_succ, Z.pow_succ_r by lia.
    unfold is_byte in Hb. lia.
Qed.

Lemma from_bytes_bytes (order : byteorder) (bs : list Z) :
  Forall is_byte bs -> 0 <= from_bytes order bs < 256 ^ Z.of_nat (length bs).
Proof.
  intros H. destruct order; simpl.
  - now apply le_value_bytes.
  - rewrite <- length_rev. apply le_value_bytes. now apply List.Forall_rev.
Qed.

Lemma pow256_depth (f : px_format) :
  256 ^ Z.of_nat (Z.to_nat (_data_depth f)) = 2 ^ fmt_bits f.
Proof. destruct f; reflexivity. Qed.

Lemma fmt_bits_pos (f : px_format) : 0 < fmt_bits f.
Proof. destruct f; reflexivity. Qed.

Lemma wrap_unsigned_range (bits z : Z) :
  0 <= bits -> 0 <= wrap_unsigned bits z < 2 ^ bits.
Proof.
  intros Hb. unfold wrap_unsigned. apply Z.mod_pos_bound.
  apply Z.pow_pos_nonneg; lia.
Qed.

Lemma wrap_unsigned_small (bits z : Z) :
  0 <= z < 2 ^ bits -> wrap_unsigned bits z = z.
Proof. intros Hz. unfold wrap_unsigned. now apply Z.mod_small. Qed.

Lemma wrap_signed_unsigned (bits z : Z) :
  0 < bits ->
  - 2 ^ (bits - 1) <= z < 2 ^ (bits - 1) ->
  wrap_signed bits (wrap_unsigned bits z) = z.
Proof.
  intros Hb Hz. unfold wrap_signed, wrap_unsigned.
  assert (Hp : 2 ^ bits = 2 * 2 ^ (bits - 1)).
  { replace bits with (Z.succ (bits - 1)) at 1 by lia.
    rewrite Z.pow_succ_r by lia. reflexivity. }
  assert (Hpos : 0 < 2 ^ (bits - 1)) by (apply Z.pow_pos_nonneg; lia).
  rewrite Z.mod_mod by lia.
  destruct (Z_lt_le_dec z 0) as [Hneg|Hnn].
  - assert (E : z mod 2 ^ bits = z + 2 ^ bits).
    { symmetry. apply (Z.mod_unique z (2 ^ bits) (-1)); lia. }
    rewrite E. destruct (Z.ltb_spec (z + 2 ^ bits) (2 ^ (bits - 1))); lia.
  - rewrite Z.mod_small by lia.
    destruct (Z.ltb_spec z (2 ^ (bits - 1))); lia.
Qed.

Lemma wrap_signed_small (bits z : Z) :
  0 < bits ->
  - 2 ^ (bits - 1) <= z < 2 ^ (bits - 1) ->
  wrap_signed bits z = z.
Proof.
  intros Hb Hz. unfold wrap_signed.
  assert (Hp : 2 ^ bits = 2 * 2 ^ (bits - 1)).
  { replace bits with (Z.succ (bits - 1)) at 1 by lia.
    rewrite Z.pow_succ_r by lia. reflexivity. }
  assert (Hpos : 0 < 2 ^ (bits - 1)) by (apply Z.pow_pos_nonneg; lia).
  destruct (Z_lt_le_dec z 0) as [Hneg|Hnn].
  - assert (E : z mod 2 ^ bits = z + 2 ^ bits).
    { symmetry. apply (Z.mod_unique z (2 ^ bits) (-1)); lia. }
    rewrite E. destruct (Z.ltb_spec (z + 2 ^ bits) (2 ^ (bits - 1))); lia.
  - rewrite Z.mod_small by lia.
    destruct (Z.ltb_spec z (2 ^ (bits - 1))); lia.
Qed.

Lemma range_of_andb (a z b : Z) :
  (a <=? z) && (z <? b) = true -> a <= z < b.
Proof.
  intros H. apply andb_true_iff in H as [H1 H2].
  apply Z.leb_le in H1. apply Z.ltb_lt in H2. lia.
Qed.

Lemma from_bytes_encoded (order : byteorder) (f : px_format) (u : Z) :
  0 <= u < 2 ^ fmt_bits f ->
  from_bytes order (to_bytes order (Z.to_nat (_data_depth f)) u) = u.
Proof.
  intros Hu. apply from_bytes_to_bytes. now rewrite pow256_depth.
Qed.

(** Packing a value of the format and unpacking the bytes gives the
    value back. *)
Lemma unpack1_pack1 (order : byteorder) (f : px_format) (v : scalar) :
  element_of f v = true ->
  pack1 order f v = Ok (encode order f v)
  /\ length (encode order f v) = Z.to_nat (_data_depth f)
  /\ unpack1 order f (encode order f v) = v.
Proof.
  intros Hv. unfold encode.
  assert (Hs : forall g z, - 2 ^ (fmt_bits g - 1) <= z < 2 ^ (fmt_bits g - 1) ->
            Num (wrap_signed (fmt_bits g)
                   (from_bytes order
                      (to_bytes order (Z.to_nat (_data_depth g))
                         (wrap_unsigned (fmt_bits g) z)))) = Num z).
  { intros g z Hz. pose proof (fmt_bits_pos g).
    rewrite from_bytes_encoded by (apply wrap_unsigned_range; lia).
    now rewrite wrap_signed_unsigned by lia. }
  destruct f, v as [z|p|p]; try discriminate Hv;
    cbn [element_of] in Hv.
  - unfold pack1. rewrite Hv. split; [reflexivity|].
    split; [apply length_to_bytes|]. apply Hs. now apply range_of_andb.
  - unfold pack1. rewrite Hv. split; [reflexivity|].
    split; [apply length_to_bytes|]. unfold unpack1.
    rewrite from_bytes_encoded; [reflexivity | now apply range_of_andb].
  - apply orb_true_iff in Hv as [E|E]; apply Z.eqb_eq in E; subst z;
      (split; [reflexivity|]); (split; [reflexivity|]);
      destruct order; reflexivity.
  - unfold pack1. rewrite Hv. split; [reflexivity|].
    split; [apply length_to_bytes|]. apply Hs. now apply range_of_andb.
  - unfold pack1. rewrite Hv. split; [reflexivity|].
    split; [apply length_to_bytes|]. unfold unpack1.
    rewrite from_bytes_encoded; [reflexivity | now apply range_of_andb].
  - unfold pack1. rewrite Hv. split; [reflexivity|].
    split; [apply length_to_bytes|]. apply Hs. now apply range_of_andb.
  - unfold pack1. rewrite Hv. split; [reflexivity|].
    split; [apply length_to_bytes|]. unfold unpack1.
    rewrite from_bytes_encoded; [reflexivity | now apply range_of_andb].
  - unfold pack1. rewrite Hv. split; [reflexivity|].
    split; [apply length_to_bytes|]. unfold unpack1.
    rewrite from_bytes_encoded; [reflexivity | now apply range_of_andb].
  - unfold pack1. rewrite Hv. split; [reflexivity|].
    split; [apply length_to_bytes|]. unfold unpack1.
    rewrite from_bytes_encoded; [reflexivity | now apply range_of_andb].
Qed.

(** A value of the format is left as it is by the conversion to the
    element type of the format. *)
Lemma astype1_element (f : px_format) (v : scalar) :
  element_of f v = true -> astype1 (_data_types f) v = Ok v.
Proof.
  intros Hv.
  destruct f, v as [z|p|p]; try discriminate Hv; cbn [element_of] in Hv;
    cbn [_data_types astype1]; try reflexivity.
  - f_equal. f_equal. apply (wrap_signed_small 8); [lia|].
    now apply range_of_andb in Hv.
  - f_equal. f_equal. apply (wrap_unsigned_small 8).
    now apply range_of_andb in Hv.
  - apply orb_true_iff in Hv as [E|E]; apply Z.eqb_eq in E; now subst z.
  - f_equal. f_equal. apply (wrap_signed_small 16); [lia|].
    now apply range_of_andb in Hv.
  - f_equal. f_equal. apply (wrap_unsigned_small 16).
    now apply range_of_andb in Hv.
  - f_equal. f_equal. apply (wrap_signed_small 32); [lia|].
    now apply range_of_andb in Hv.
  - f_equal. f_equal. apply (wrap_unsigned_small 32).
    now apply range_of_andb in Hv.
Qed.

(** ** Lists of results *)

Lemma rmap_Ok {A B} (f : A -> result B) (g : A -> B) (xs : list A) :
  Forall (fun x => f x = Ok (g x)) xs -> rmap f xs = Ok (map g xs).
Proof.
  induction 1 as [|x xs Hx _ IH]; simpl; [reflexivity|].
  now rewrite Hx, IH.
Qed.

Lemma split_bytes_concat (width : nat) (bss : list (list Z)) :
  Forall (fun bs => length bs = width) bss ->
  split_bytes (length bss) width (concat bss) = bss.
Proof.
  induction 1 as [|bs bss Hbs _ IH]; simpl; [reflexivity|].
  rewrite take_app_length' by (symmetry; exact Hbs).
  rewrite drop_app_length' by (symmetry; exact Hbs).
  now rewrite IH.
Qed.

Lemma length_concat_fixed (width : nat) (bss : list (list Z)) :
  Forall (fun bs => length bs = width) bss ->
  length (concat bss) = (length bss * width)%nat.
Proof.
  induction 1 as [|bs bss Hbs _ IH]; simpl; [reflexivity|].
  rewrite length_app, IH, Hbs. lia.
Qed.

(** The byte string of a sequence of values of the format. *)
Lemma struct_pack_elements (order : byteorder) (f : px_format)
    (vs : list scalar) :
  Forall (fun v => element_of f v = true) vs ->
  struct_pack order f vs = Ok (concat (map (encode order f) vs)).
Proof.
  intros H. unfold struct_pack.
  rewrite (rmap_Ok _ (encode order f)); [reflexivity|].
  eapply Forall_impl; [exact H|]. intros v Hv.
  now apply unpack1_pack1.
Qed.

Lemma encoded_widths (order : byteorder) (f : px_format) (vs : list scalar) :
  Forall (fun v => element_of f v = true) vs ->
  Forall (fun bs => length bs = Z.to_nat (_data_depth f))
    (map (encode order f) vs).
Proof.
  intros H. apply Forall_map. eapply Forall_impl; [exact H|].
  intros v Hv. now apply unpack1_pack1.
Qed.

(** Unpacking the byte string of a sequence of values gives the
    values. *)
Lemma unpack_encoded (order : byteorder) (f : px_format) (vs : list scalar) :
  Forall (fun v => element_of f v = true) vs ->
  map (unpack1 order f)
    (split_bytes (length vs) (Z.to_nat (_data_depth f))
       (concat (map (encode order f) vs)))
  = vs.
Proof.
  intros H.
  rewrite <- (length_map (encode order f) vs).
  rewrite split_bytes_concat by now apply encoded_widths.
  rewrite map_map. rewrite <- (map_id vs) at 2.
  apply map_ext_Forall. eapply Forall_impl; [exact H|].
  intros v Hv. now apply unpack1_pack1.
Qed.

(** The bytes [_imgs_to_bytes] makes of an array of values of the
    format. *)
Lemma _imgs_to_bytes_elements (order : byteorder) (f : px_format)
    (a : ndarray) :
  Forall (fun v => element_of f v = true) (nd_data a) ->
  _imgs_to_bytes order a f true
  = Ok (concat (map (encode order f) (nd_data a))).
Proof.
  intros H. unfold _imgs_to_bytes, astype, flatten. cbn [nd_data nd_shape].
  rewrite (rmap_Ok _ (fun v => v)).
  - cbn [rbind nd_shape length Nat.eqb nd_data]. rewrite map_id.
    now apply struct_pack_elements.
  - eapply Forall_impl; [exact H|]. intros v Hv. now apply astype1_element.
Qed.

(** ** Writing *)

Lemma moved_write_handle_refl (s : MIfile) : moved_write_handle s s.
Proof. exists (WriteFileHandle s). now destruct s. Qed.

Lemma moved_write_handle_trans (s1 s2 s3 : MIfile) :
  moved_write_handle s1 s2 -> moved_write_handle s2 s3 ->
  moved_write_handle s1 s3.
Proof. intros [wh ->] [wh' ->]. now exists wh'. Qed.

Lemma handle_write_appends (s : MIfile) (w : world) (f : string)
    (c bs : list Z) :
  appending s w f c ->
  exists s' w',
    handle_write bs (s, w) = (Ok tt, (s', w'))
    /\ appending s' w' f (c ++ bs)
    /\ moved_write_handle s s'
    /\ write_calls w' = write_calls w ++ [(f, bs)].
Proof.
  intros [Hh Hc]. unfold handle_write. rewrite Hh.
  unfold file_write, file_content. cbn [wh_name wh_pos]. rewrite Hc.
  cbn [default]. unfold id. rewrite Nat2Z.id.
  rewrite take_ge by lia. rewrite Nat.sub_diag. cbn [replicate app].
  rewrite drop_ge by lia. rewrite app_nil_r.
  eexists. eexists. split; [reflexivity|]. split; [|split].
  - split.
    + cbn. rewrite length_app, Nat2Z.inj_add. reflexivity.
    + cbn. apply lookup_insert_eq.
  - eexists. reflexivity.
  - reflexivity.
Qed.

(** A loop of writes appends the byte strings in turn. *)
Lemma write_loop_appends (xs : list Z) (body : Z -> Meth unit)
    (B : Z -> list Z) (f : string) :
  (forall i s w, i ∈ xs -> body i (s, w) = handle_write (B i) (s, w)) ->
  forall s w c,
    appending s w f c ->
    exists s' w',
      for_each xs body (s, w) = (Ok tt, (s', w'))
      /\ appending s' w' f (c ++ concat (map B xs))
      /\ moved_write_handle s s'
      /\ write_calls w' = write_calls w ++ map (fun i => (f, B i)) xs.
Proof.
  induction xs as [|x xs IH]; intros Hbody s w c Happ.
  - exists s, w. cbn. rewrite !app_nil_r.
    split; [reflexivity|]. split; [exact Happ|].
    split; [apply moved_write_handle_refl | reflexivity].
  - cbn [for_each]. unfold bind.
    rewrite Hbody by (left).
    destruct (handle_write_appends s w f c (B x) Happ)
      as (s1 & w1 & E1 & A1 & M1 & L1).
    rewrite E1.
    destruct (IH (fun i s w Hi => Hbody i s w (list_elem_of_further _ _ _ Hi))
                s1 w1 _ A1) as (s2 & w2 & E2 & A2 & M2 & L2).
    rewrite E2. exists s2, w2. split; [reflexivity|].
    cbn [map concat]. rewrite app_assoc. split; [exact A2|].
    split; [eapply moved_write_handle_trans; eauto|].
    rewrite L2, L1, <- app_assoc. reflexivity.
Qed.

(** Cutting a list into runs of [c] elements and joining the runs gives
    the list. *)
Lemma chunks_concat {A} (c cnt : nat) (D : list A) :
  (length D <= cnt * c)%nat ->
  concat (map (fun i => take c (drop (i * c) D)) (seq 0 cnt)) = D.
Proof.
  revert D. induction cnt as [|cnt IH]; intros D HD.
  - simpl in *. destruct D; [reflexivity | simpl in HD; lia].
  - cbn [seq map concat]. rewrite Nat.mul_0_l, drop_0.
    rewrite <- seq_shift, map_map.
    transitivity (take c D ++ drop c D); [|apply take_drop].
    f_equal.
    transitivity (concat (map (fun i => take c (drop (i * c) (drop c D)))
                            (seq 0 cnt)));
      [|apply IH; rewrite length_drop; lia].
    f_equal. apply map_ext. intros i.
    rewrite drop_drop; repeat f_equal; lia.
Qed.

Lemma concat_map_concat {A B} (g : A -> list B) (ls : list (list A)) :
  concat (map g (concat ls))
  = concat (map (fun l => concat (map g l)) ls).
Proof.
  induction ls as [|l ls IH]; cbn [concat map]; [reflexivity|].
  now rewrite map_app, concat_app, IH.
Qed.

Lemma py_range_from_0 (n k : Z) :
  0 < n -> 0 < k ->
  py_range 0 n k
  = map (fun i => Z.of_nat i * k) (seq 0 (Z.to_nat ((n - 1) / k + 1))).
Proof.
  intros Hn Hk. unfold py_range, range_len.
  destruct (Z.ltb_spec 0 k); [|lia].
  destruct (Z.ltb_spec 0 n); [|lia].
  replace (n - 0 - 1) with (n - 1) by lia.
  apply map_ext. intros i. lia.
Qed.

(** The slice that [WriteData] takes at frame [i0 * k]: a run of
    [k * m] elements of the buffer, or what is left of it. *)
Lemma slice0_chunk (X : ndarray) (n k : Z) (rest : list Z) (i0 : nat) :
  nd_shape X = n :: rest ->
  0 < prod rest -> nd_size X = n * prod rest -> 0 < k ->
  Z.of_nat i0 * k < n ->
  slice0 X (Z.of_nat i0 * k) (Z.min (Z.of_nat i0 * k + k) n)
  = Ok {| nd_dtype := nd_dtype X;
          nd_shape := (Z.min (Z.of_nat i0 * k + k) n - Z.of_nat i0 * k) :: rest;
          nd_data := take (Z.to_nat (k * prod rest))
                       (drop (i0 * Z.to_nat (k * prod rest)) (nd_data X)) |}.
Proof.
  intros Hshape Hm Hsize Hk Hi. unfold slice0. rewrite Hshape.
  set (m := prod rest) in *. set (i := Z.of_nat i0 * k) in *.
  assert (Hi0 : 0 <= i) by (subst i; nia).
  assert (Hlo : slice_bound n i = i).
  { unfold slice_bound. destruct (Z.ltb_spec i 0); lia. }
  assert (Hhi : slice_bound n (Z.min (i + k) n) = Z.min (i + k) n).
  { unfold slice_bound. destruct (Z.ltb_spec (Z.min (i + k) n) 0); lia. }
  rewrite Hlo, Hhi. rewrite Z.max_r by lia.
  f_equal. f_equal.
  assert (Hlen : Z.of_nat (length (nd_data X)) = n * m) by exact Hsize.
  assert (Hdrop : Z.to_nat (i * m) = (i0 * Z.to_nat (k * m))%nat)
    by (subst i; nia).
  rewrite Hdrop.
  set (D' := drop (i0 * Z.to_nat (k * m)) (nd_data X)).
  assert (HD' : Z.of_nat (length D') = n * m - i * m).
  { subst D'. rewrite length_drop. rewrite <- Hdrop. nia. }
  destruct (Z_le_gt_dec (i + k) n) as [Hle|Hgt].
  - rewrite Z.min_l by lia. f_equal. f_equal. lia.
  - rewrite Z.min_r by lia.
    rewrite !take_ge; [reflexivity | nia | nia].
Qed.

(** The loop of [WriteData] over the chunks leaves the bytes of the
    whole array in the file. *)
Lemma chunk_loop_appends (order : byteorder) (fmt : px_format)
    (s1 : MIfile) (w1 : world) (X : ndarray) (f : string) (n k : Z)
    (rest : list Z) :
  appending s1 w1 f [] ->
  nd_shape X = n :: rest ->
  0 < n -> 0 < prod rest -> nd_size X = n * prod rest -> 0 < k ->
  Forall (fun v => element_of fmt v = true) (nd_data X) ->
  exists s2 w2,
    for_each (py_range 0 n k)
      (fun i =>
         chunk <- liftR (slice0 X i (Z.min (i + k) n)) ;;
         bs <- liftR (_imgs_to_bytes order chunk fmt true) ;;
         handle_write bs) (s1, w1)
    = (Ok tt, (s2, w2))
    /\ appending s2 w2 f (concat (map (encode order fmt) (nd_data X)))
    /\ moved_write_handle s1 s2.
Proof.
  intros Happ Hshape Hn Hm Hsize Hk Hel.
  set (m := prod rest) in *.
  set (c := Z.to_nat (k * m)).
  set (cnt := Z.to_nat ((n - 1) / k + 1)).
  set (B := fun i : Z =>
              concat (map (encode order fmt)
                        (take c (drop (Z.to_nat (i * m)) (nd_data X))))).
  assert (Hq : 0 <= (n - 1) / k) by (apply Z.div_pos; lia).
  assert (Hcnt : forall i0 : nat, (i0 < cnt)%nat -> Z.of_nat i0 * k < n).
  { intros i0 Hi0. subst cnt.
    assert (Z.of_nat i0 <= (n - 1) / k) by lia.
    assert (k * ((n - 1) / k) <= n - 1) by (apply Z.mul_div_le; lia).
    nia. }
  rewrite py_range_from_0 by lia. fold cnt.
  destruct (write_loop_appends
              (map (fun i => Z.of_nat i * k) (seq 0 cnt))
              (fun i =>
                 chunk <- liftR (slice0 X i (Z.min (i + k) n)) ;;
                 bs <- liftR (_imgs_to_bytes order chunk fmt true) ;;
                 handle_write bs)
              B f) with (s := s1) (w := w1) (c := @nil Z)
    as (s2 & w2 & E & A & M & _).
  - intros i s w Hi. apply list_elem_of_fmap in Hi as (i0 & -> & Hi0).
    apply elem_of_seq in Hi0.
    unfold bind at 1, liftR at 1.
    rewrite (slice0_chunk X n k rest i0) by (auto; apply Hcnt; lia).
    unfold bind at 1, liftR at 1.
    rewrite _imgs_to_bytes_elements.
    + cbn [nd_data]. unfold B. fold m. fold c.
      replace (Z.to_nat (Z.of_nat i0 * k * m)) with (i0 * c)%nat
        by (subst c; nia).
      reflexivity.
    + cbn [nd_data]. apply Forall_take, Forall_drop. exact Hel.
  - exact Happ.
  - exists s2, w2. split; [exact E|]. split; [|exact M].
    cbn [app] in A.
    replace (concat (map (encode order fmt) (nd_data X)))
      with (concat (map B (map (fun i => Z.of_nat i * k) (seq 0 cnt))));
      [exact A|].
    rewrite map_map.
    rewrite <- (chunks_concat c cnt (nd_data X)) at 1.
    + rewrite concat_map_concat, map_map. f_equal.
      apply map_ext. intros i0. unfold B.
      replace (Z.to_nat (Z.of_nat i0 * k * m)) with (i0 * c)%nat
        by (subst c; nia).
      reflexivity.
    + assert (Hlen : Z.of_nat (length (nd_data X)) = n * m) by exact Hsize.
      assert (n <= Z.of_nat cnt * k).
      { subst cnt. rewrite Z2Nat.id by lia.
        pose proof (Z.div_mod (n - 1) k ltac:(lia)).
        pose proof (Z.mod_pos_bound (n - 1) k ltac:(lia)). nia. }
      subst c. nia.
Qed.

Lemma Close_both (s : MIfile) (w : world) :
  Close true true (s, w)
  = (Ok tt, (set_handles s None None (ReadingFileName s), w)).
Proof.
  unfold Close, bind, self_, set_self, ret. cbn [fst snd andb].
  destruct s as [fn rh wh rn md mb hs sh inb ih iw pp pf pd pt fps ps].
  cbn. destruct wh, rh; reflexivity.
Qed.

(** [WriteData] with [closeAfter] on a store that is not open for
    writing: the file holds the bytes of the array, value after value,
    and both handles are released. *)
Lemma WriteData_run (order : byteorder) (g : ndarray -> Z) (self : MIfile)
    (w : world) (X : ndarray) (f : string) (n : Z) (rest : list Z) :
  FileName self = Some f ->
  WriteFileHandle self = None ->
  nd_shape X = n :: rest ->
  0 <= n -> 0 <= prod rest -> nd_size X = n * prod rest ->
  Forall (fun v => element_of (PixelFormat self) v = true) (nd_data X) ->
  within_budget g self X ->
  exists w',
    WriteData order g X true (self, w)
    = (Ok tt, (set_handles self None None (ReadingFileName self), w'))
    /\ files w' !! f
       = Some (concat (map (encode order (PixelFormat self)) (nd_data X))).
Proof.
  intros Hf Hwh Hshape Hn Hm Hsize Hel Hfit.
  unfold WriteData. unfold bind at 1.
  unfold OpenForWriting, bind at 1, open_wb. rewrite Hwh.
  cbn [or_else]. rewrite Hf. unfold ret at 1.
  set (s1 := set_handles self (ReadFileHandle self)
               (Some {| wh_name := f; wh_pos := 0 |}) (ReadingFileName self)).
  set (w1 := set_files w (<[f:=[]]> (files w))).
  assert (A1 : appending s1 w1 f []).
  { split; [reflexivity|]. cbn. apply lookup_insert_eq. }
  unfold bind at 1, self_ at 1. cbn [fst snd].
  change (MaxBufferSize s1) with (MaxBufferSize self).
  change (PixelFormat s1) with (PixelFormat self).
  assert (Hend : forall s2 w2,
            appending s2 w2 f
              (concat (map (encode order (PixelFormat self)) (nd_data X))) ->
            moved_write_handle s1 s2 ->
            exists w',
              Close true true (s2, w2)
              = (Ok tt, (set_handles self None None (ReadingFileName self), w'))
              /\ files w' !! f
                 = Some (concat (map (encode order (PixelFormat self))
                                   (nd_data X)))).
  { intros s2 w2 [_ A2] [wh ->]. exists w2. rewrite Close_both.
    split; [reflexivity | exact A2]. }
  destruct (Z.gtb_spec (g X) (MaxBufferSize self)) as [Hbig|Hsmall].
  - destruct Hfit as [Hfit|(first & Hfirst & Hfits & Hne)]; [lia|].
    unfold bind at 1. unfold bind at 1, liftR at 1. rewrite Hfirst.
    destruct (Z.gtb_spec (g first) (MaxBufferSize self)); [lia|].
    assert (Hflat : nd_size (flatten first) = nd_size first) by reflexivity.
    rewrite Hflat.
    destruct (Z.eqb_spec (nd_size first) 0); [contradiction|].
    unfold getitem0 in Hfirst. rewrite Hshape in Hfirst.
    destruct (Z.ltb_spec 0 n) as [Hn0|]; [|discriminate].
    injection Hfirst as <-. unfold nd_size in Hne. cbn [nd_data] in Hne.
    assert (Hm0 : 0 < prod rest).
    { destruct (Z_lt_le_dec 0 (prod rest)); [assumption|].
      exfalso. apply Hne. rewrite length_take.
      replace (Z.to_nat (prod rest)) with 0%nat by lia. reflexivity. }
    unfold bind at 1, liftR at 1, np_len. rewrite Hshape.
    set (k := Z.max 1 _).
    destruct (chunk_loop_appends order (PixelFormat self) s1 w1 X f n k rest
                A1 Hshape Hn0 Hm0 Hsize ltac:(subst k; lia) Hel)
      as (s2 & w2 & E & A2 & M).
    rewrite E. now apply Hend.
  - unfold bind at 1. unfold bind at 1, liftR at 1.
    rewrite _imgs_to_bytes_elements by exact Hel.
    destruct (handle_write_appends s1 w1 f []
                (concat (map (encode order (PixelFormat self)) (nd_data X)))
                A1) as (s2 & w2 & E & A2 & M & _).
    rewrite E. now apply Hend.
Qed.

(** ** Writing and reading back *)

(** C4, as the code has it.  On a store without header that is not open
    for writing, for an array of the declared shape whose values are
    values of the pixel format, and which [WriteData] does not refuse for
    its size: after [WriteData] and [Close], and once the store is open
    for reading, [GetStack(0, ImgNumber)] returns an array with the shape
    and the values of the array written.  This holds for each of the nine
    pixel formats and for either byte order. *)
Theorem write_read_roundtrip (order : byteorder) (getsizeof : ndarray -> Z)
    (self : MIfile) (w : world) (X : ndarray) (f : string) :
  consistent self ->
  FileName self = Some f ->
  WriteFileHandle self = None ->
  hdrSize self = 0 ->
  0 <= ImgNumber self -> 0 <= ImgHeight self -> 0 <= ImgWidth self ->
  nd_shape X = Shape self ->
  nd_size X = prod (Shape self) ->
  Forall (fun v => element_of (PixelFormat self) v = true) (nd_data X) ->
  within_budget getsizeof self X ->
  reconstructs
    (answer (write_close_open_read order getsizeof X (ImgNumber self)) self w)
    X.
Proof.
  intros Hcons Hf Hwh Hhdr Hn Hh Hw Hshape Hsize Hel Hfit.
  pose proof Hcons as (HS & Hpx & Hd & Ht).
  rewrite HS in Hshape, Hsize.
  assert (Hprod : prod [ImgNumber self; ImgHeight self; ImgWidth self]
                  = ImgNumber self * prod [ImgHeight self; ImgWidth self])
    by reflexivity.
  assert (Hrest : prod [ImgHeight self; ImgWidth self] = PxPerImg self)
    by (rewrite Hpx; unfold prod; simpl; lia).
  destruct (WriteData_run order getsizeof self w X f (ImgNumber self)
              [ImgHeight self; ImgWidth self] Hf Hwh Hshape Hn
              ltac:(rewrite Hrest, Hpx; nia) ltac:(now rewrite <- Hprod)
              Hel Hfit) as (w' & Ewrite & Hfile).
  set (bytes := concat (map (encode order (PixelFormat self)) (nd_data X)))
    in *.
  set (s2 := set_handles self None None (ReadingFileName self)) in *.
  set (s3 := set_handles s2 (Some {| rh_name := f; rh_pos := 0 |}) None
               (Some f)).
  assert (Hlen : Z.of_nat (length bytes)
                 = ImgNumber self * PxPerImg self * PixelDepth self).
  { subst bytes.
    rewrite (length_concat_fixed (Z.to_nat (_data_depth (PixelFormat self))))
      by now apply encoded_widths.
    rewrite length_map. rewrite Hd.
    assert (Z.of_nat (length (nd_data X)) = ImgNumber self * PxPerImg self)
      by (rewrite <- Hrest, <- Hprod; exact Hsize).
    assert (0 < _data_depth (PixelFormat self))
      by (destruct (PixelFormat self); reflexivity).
    nia. }
  assert (Hrun : answer (write_close_open_read order getsizeof X
                           (ImgNumber self)) self w
                 = answer (GetStack order 0 (ImgNumber self)) s3 w').
  { unfold answer, write_close_open_read. unfold bind at 1. rewrite Ewrite.
    unfold bind at 1. rewrite Close_closed by reflexivity.
    unfold bind at 1. unfold OpenForReading.
    change (ReadFileHandle s2) with (@None rhandle).
    change (or_else None (FileName s2)) with (FileName self).
    rewrite Hf, Hfile. reflexivity. }
  rewrite Hrun.
  rewrite (GetStack_ok order s3 w' {| rh_name := f; rh_pos := 0 |}).
  - eexists. split; [reflexivity|]. cbn [nd_shape nd_data].
    split; [symmetry; exact Hshape|].
    unfold pixels_at, _get_offset, file_content. cbn [rh_name].
    rewrite Hfile. cbn [default]. unfold id.
    change (hdrSize s3) with (hdrSize self).
    change (PxPerImg s3) with (PxPerImg self).
    change (PixelDepth s3) with (PixelDepth self).
    change (PixelFormat s3) with (PixelFormat self).
    change (ImgNumber s3) with (ImgNumber self).
    change (ImgWidth s3) with (ImgWidth self).
    rewrite Hhdr.
    replace (Z.to_nat (0 + (0 * PxPerImg self + 0 * ImgWidth self + 0)
                           * PixelDepth self)) with 0%nat by lia.
    rewrite drop_0. rewrite take_ge by lia.
    replace (Z.to_nat (ImgNumber self * PxPerImg self))
      with (length (nd_data X)).
    + rewrite Hd. now apply unpack_encoded.
    + assert (Z.of_nat (length (nd_data X)) = ImgNumber self * PxPerImg self)
        by (rewrite <- Hrest, <- Hprod; exact Hsize).
      lia.
  - reflexivity.
  - exact Hcons.
  - change (hdrSize s3) with (hdrSize self). lia.
  - exact Hh.
  - exact Hw.
  - lia.
  - exact Hn.
  - unfold _get_offset, file_content. cbn [rh_name]. rewrite Hfile.
    cbn [default]. unfold id.
    change (hdrSize s3) with (hdrSize self).
    change (PxPerImg s3) with (PxPerImg self).
    change (PixelDepth s3) with (PixelDepth self).
    change (ImgNumber s3) with (ImgNumber self).
    change (ImgWidth s3) with (ImgWidth self).
    lia.
Qed.

Lemma write_read_roundtrip_witness :
  reconstructs
    (answer (write_close_open_read little_endian buffer_bytes array_i16 3)
       store_i16 (world_of [] [])) array_i16
  /\ reconstructs
       (answer (write_close_open_read big_endian buffer_bytes array_i16 3)
          store_i16_budget5 (world_of [] [])) array_i16.
Proof.
  split.
  - apply (write_read_roundtrip little_endian buffer_bytes store_i16
             (world_of [] []) array_i16 "h"%string);
      try reflexivity; try discriminate.
    + repeat split.
    + repeat constructor.
    + left. discriminate.
  - apply (write_read_roundtrip big_endian buffer_bytes store_i16_budget5
             (world_of [] []) array_i16 "h"%string);
      try reflexivity; try discriminate.
    + repeat split.
    + repeat constructor.
    + right. eexists. split; [reflexivity|]. split; discriminate.
Defined.

(** The claim of the specification fails as it stands.  [GetStack] does
    not open the read handle, so right after [WriteData] and [Close] it
    raises; with a header length of 1 the file written has no header, and
    the read, which starts behind the header, meets the end of the file,
    also when the store is opened for reading first; a frame beyond the
    budget is refused by [WriteData]; and a store that is open for
    writing appends to what its file holds. *)
Lemma roundtrip_counterexample :
  ~ reconstructs
      (answer (write_close_read little_endian buffer_bytes array_7 1)
         store_hdr1 (world_of [] [])) array_7
  /\ ~ reconstructs
        (answer (write_close_open_read little_endian buffer_bytes array_7 1)
           store_hdr1 (world_of [] [])) array_7
  /\ ~ reconstructs
        (answer (write_close_read little_endian buffer_bytes array_7 1)
           store_hdr0 (world_of [] [])) array_7
  /\ ~ reconstructs
        (answer (write_close_open_read little_endian buffer_bytes
                   array_2x1x4 2) store_budget3 (world_of [] []))
        array_2x1x4
  /\ ~ reconstructs
        (answer (write_close_open_read little_endian buffer_bytes array_7 1)
           store_appending world_r9) array_7.
Proof.
  repeat split; intros (arr & H & Hs & Hd); vm_compute in H;
    try discriminate H.
  injection H as <-. discriminate Hd.
Qed.

(** What these runs answer. *)
Example roundtrip_without_open :
  answer (write_close_read little_endian buffer_bytes array_7 1)
    store_hdr0 (world_of [] [])
  = Raise AttributeError.
Proof. reflexivity. Qed.

Example roundtrip_with_header :
  answer (write_close_open_read little_endian buffer_bytes array_7 1)
    store_hdr1 (world_of [] [])
  = Raise (IOError_EOF (Some 1) 0 1 1 (Some "r"%string)).
Proof. reflexivity. Qed.

Example roundtrip_oversized_frame :
  answer (write_close_open_read little_endian buffer_bytes array_2x1x4 2)
    store_budget3 (world_of [] [])
  = Raise IOError_large_array.
Proof. reflexivity. Qed.

Example roundtrip_on_open_write_handle :
  answer (write_close_open_read little_endian buffer_bytes array_7 1)
    store_appending world_r9
  = Ok {| nd_dtype := np_int64; nd_shape := [1; 1; 1]; nd_data := [Num 9] |}.
Proof. reflexivity. Qed.

(** ** Loops *)

(** A loop whose turns all succeed and keep an invariant indexed by the
    number of turns. *)
Lemma fold_ST_invariant {S A B} (I : nat -> B -> S -> Prop) (xs : list A)
    (body : B -> A -> ST S B) :
  (forall i x b s, xs !! i = Some x -> I i b s ->
     exists b' s', body b x s = (Ok b', s') /\ I (Datatypes.S i) b' s') ->
  forall b s, I 0%nat b s ->
    exists b' s', fold_ST xs body b s = (Ok b', s') /\ I (length xs) b' s'.
Proof.
  revert I. induction xs as [|x xs IH]; intros I Hstep b s H0.
  - exists b, s. split; [reflexivity | exact H0].
  - cbn [fold_ST]. unfold bind.
    destruct (Hstep 0%nat x b s eq_refl H0) as (b1 & s1 & E1 & H1).
    rewrite E1.
    destruct (IH (fun i => I (Datatypes.S i))
                (fun i y b s Hy Hi => Hstep (Datatypes.S i) y b s Hy Hi)
                b1 s1 H1) as (b2 & s2 & E2 & H2).
    exists b2, s2. split; [exact E2 | exact H2].
Qed.

(** A loop keeps what each of its turns keeps. *)
Lemma fold_ST_preserves {S A B} (P : B -> Prop) (xs : list A)
    (body : B -> A -> ST S B) :
  (forall b x s b' s', P b -> body b x s = (Ok b', s') -> P b') ->
  forall b s b' s', P b -> fold_ST xs body b s = (Ok b', s') -> P b'.
Proof.
  intros Hstep. induction xs as [|x xs IH]; intros b s b' s' Hb.
  - cbn. intros [= <- <-]. exact Hb.
  - cbn [fold_ST]. unfold bind.
    destruct (body b x s) as [[b1|e] s1] eqn:E1; [|discriminate].
    apply IH. eapply Hstep; eauto.
Qed.

Lemma enumerate_lookup {A} (l : list A) (i : nat) (j : nat) (x : A) :
  enumerate l !! i = Some (j, x) -> j = i /\ l !! i = Some x.
Proof.
  unfold enumerate. intros H.
  apply lookup_zip_with_Some in H as (a & b & [= -> ->] & Ha & Hb).
  apply lookup_seq in Ha as [-> _]. split; [reflexivity | exact Hb].
Qed.

Lemma length_enumerate {A} (l : list A) : length (enumerate l) = length l.
Proof.
  unfold enumerate. rewrite length_zip_with, length_seq. lia.
Qed.

(** ** Pixel traces *)

(** The element type of the result of [GetTimetraces] is float64
    whatever the pixel format. *)
Lemma setitem2_dtype (res res' : ndarray) (p z : nat) (px : ndarray) :
  setitem2 res p z px = Ok res' -> nd_dtype res' = nd_dtype res.
Proof.
  unfold setitem2.
  destruct (nd_shape res) as [|a [|b [|]]]; try discriminate.
  destruct (nd_data px) as [|v [|]]; try discriminate.
  destruct (astype1 _ v); [|discriminate].
  now intros [= <-].
Qed.

Lemma bind_Ok_inv {S A B} (m : ST S A) (k : A -> ST S B) (s s' : S) (b : B) :
  bind m k s = (Ok b, s') ->
  exists a s1, m s = (Ok a, s1) /\ k a s1 = (Ok b, s').
Proof.
  unfold bind. destruct (m s) as [[a|e] s1]; [|discriminate].
  intros H. now exists a, s1.
Qed.

Lemma answer_Ok_inv {A} (m : Meth A) (self : MIfile) (w : world) (a : A) :
  answer m self w = Ok a -> exists s', m (self, w) = (Ok a, s').
Proof.
  unfold answer. destruct (m (self, w)) as [r s']. cbn. intros ->.
  now exists s'.
Qed.

Lemma GetTimetraces_dtype (order : byteorder) (self : MIfile) (w : world)
    (pxLocs : px_locs) (zRange : option loc) (arr : ndarray) :
  answer (GetTimetraces order pxLocs zRange) self w = Ok arr ->
  nd_dtype arr = np_float64.
Proof.
  intros H. apply answer_Ok_inv in H as [s' H].
  unfold GetTimetraces in H.
  apply bind_Ok_inv in H as (v & s1 & _ & H).
  destruct v as [z|]; [|discriminate H].
  apply bind_Ok_inv in H as (zl & s2 & _ & H).
  apply bind_Ok_inv in H as (list_z & s3 & _ & H).
  apply bind_Ok_inv in H as (locs & s4 & _ & H).
  apply bind_Ok_inv in H as (res & s5 & E & H).
  assert (Hres : nd_dtype res = np_float64).
  { eapply (fold_ST_preserves (fun r => nd_dtype r = np_float64));
      [| |exact E]; [|reflexivity].
    intros b x s b' s'' Hb Hin.
    eapply (fold_ST_preserves (fun r => nd_dtype r = np_float64));
      [| |exact Hin]; [|exact Hb].
    clear. intros b y s b' s' Hb H.
    apply bind_Ok_inv in H as (self0 & s1 & _ & H).
    apply bind_Ok_inv in H as (px & s2 & _ & H).
    unfold liftR in H. injection H as H _.
    apply setitem2_dtype in H. congruence. }
  destruct (length locs =? 1)%nat; injection H as <- _; exact Hres.
Qed.

Lemma wrap_signed_range (bits z : Z) :
  0 < bits -> - 2 ^ (bits - 1) <= wrap_signed bits z < 2 ^ (bits - 1).
Proof.
  intros Hb. unfold wrap_signed.
  assert (Hp : 2 ^ bits = 2 * 2 ^ (bits - 1)).
  { replace bits with (Z.succ (bits - 1)) at 1 by lia.
    rewrite Z.pow_succ_r by lia. reflexivity. }
  assert (Hpos : 0 < 2 ^ (bits - 1)) by (apply Z.pow_pos_nonneg; lia).
  pose proof (Z.mod_pos_bound z (2 ^ bits) ltac:(lia)).
  destruct (Z.ltb_spec (z mod 2 ^ bits) (2 ^ (bits - 1))); lia.
Qed.

(** A pixel unpacked from bytes is converted to float64 without change
    of value. *)
Lemma float64_of_unpacked (order : byteorder) (f : px_format) (bs : list Z) :
  Forall is_byte bs ->
  length bs = Z.to_nat (_data_depth f) ->
  astype1 np_float64 (unpack1 order f bs) = Ok (unpack1 order f bs).
Proof.
  intros Hb Hlen.
  pose proof (from_bytes_bytes order bs Hb) as Hu.
  rewrite Hlen, pow256_depth in Hu.
  assert (Hs : forall z, - 2 ^ 53 <= z <= 2 ^ 53 ->
                 astype1 np_float64 (Num z) = Ok (Num z)).
  { intros z Hz. cbn [astype1].
    destruct (Z.leb_spec (Z.abs z) (2 ^ 53)); [reflexivity | lia]. }
  pose proof (wrap_signed_range (fmt_bits f) (from_bytes order bs)
                (fmt_bits_pos f)) as Hw.
  assert (Hb1 : f <> Fd -> 2 ^ (fmt_bits f - 1) <= 2 ^ 53)
    by (intros Hf; apply Z.pow_le_mono_r;
        [lia | destruct f; try contradiction; unfold fmt_bits; simpl; lia]).
  assert (Hb2 : f <> Fd -> 2 ^ fmt_bits f <= 2 ^ 53)
    by (intros Hf; apply Z.pow_le_mono_r;
        [lia | destruct f; try contradiction; unfold fmt_bits; simpl; lia]).
  destruct f; unfold unpack1; try reflexivity;
    try (apply Hs; specialize (Hb1 ltac:(discriminate));
         specialize (Hb2 ltac:(discriminate)); lia).
  destruct (from_bytes order bs =? 0); reflexivity.
Qed.

Lemma reading_self (self : MIfile) (h : rhandle) :
  ReadFileHandle self = Some h -> reading self self (rh_name h).
Proof.
  intros Hh. exists (rh_pos h).
  destruct self as [fn rh wh rn md mb hs sh inb ih iw pp pf pd pt fps ps].
  cbn in *. subst rh. now destruct h.
Qed.

(** One pixel read at an offset the file covers. *)
Lemma read_one_pixel (order : byteorder) (s self : MIfile) (w : world)
    (name : string) (img row col : Z) :
  reading s self name ->
  PixelDepth self = _data_depth (PixelFormat self) ->
  0 <= _get_offset self img row col ->
  _get_offset self img row col + PixelDepth self
    <= Z.of_nat (length (file_content w name)) ->
  exists s',
    _read_pixels order 1 (Some (_get_offset s img row col)) (s, w)
    = (Ok {| nd_dtype := unpacked_dtype (PixelFormat self);
             nd_shape := [1];
             nd_data := [stored_pixel order self w name img row col] |},
       (s', w))
    /\ reading s' self name.
Proof.
  intros [pos ->] Hd Hoff Hlen.
  set (s := set_handles self _ _ _).
  assert (Hdp : 0 < PixelDepth self)
    by (rewrite Hd; destruct (PixelFormat self); reflexivity).
  eexists. split.
  - rewrite (_read_pixels_ok order s w {| rh_name := name; rh_pos := pos |});
      try reflexivity; try assumption; try lia.
    + unfold asarray_tuple, pixels_at, stored_pixel.
      change (PixelFormat s) with (PixelFormat self).
      change (PixelDepth s) with (PixelDepth self).
      change (_get_offset s img row col) with (_get_offset self img row col).
      cbn [rh_name]. rewrite Z.mul_1_l.
      change (Z.to_nat 1) with 1%nat. cbn [split_bytes map length].
      rewrite take_take, Nat.min_id. reflexivity.
    + change (PixelDepth s) with (PixelDepth self).
      change (_get_offset s img row col) with (_get_offset self img row col).
      cbn [rh_name]. lia.
  - eexists. reflexivity.
Qed.

(** The offset of a coordinate within the declared shape lies within
    the declared frames. *)
Lemma offset_in_declared_size (self : MIfile) (img row col : Z) :
  consistent self ->
  0 <= hdrSize self ->
  0 <= img < ImgNumber self -> 0 <= row < ImgHeight self ->
  0 <= col < ImgWidth self ->
  0 <= _get_offset self img row col
  /\ _get_offset self img row col + PixelDepth self <= declared_size self.
Proof.
  intros (_ & Hpx & Hd & _) Hhdr Hi Hr Hc.
  assert (Hdp : 0 < PixelDepth self)
    by (rewrite Hd; destruct (PixelFormat self); reflexivity).
  unfold _get_offset, declared_size. rewrite Hpx.
  set (H := ImgHeight self) in *. set (W := ImgWidth self) in *.
  set (N := ImgNumber self) in *. set (d := PixelDepth self) in *.
  assert (HW : 0 <= H * W) by nia.
  assert (Hi1 : 0 <= img * (H * W)) by (apply Z.mul_nonneg_nonneg; lia).
  assert (Hr1 : 0 <= row * W) by nia.
  set (HW' := H * W) in *. set (iHW := img * HW') in *.
  set (rW := row * W) in *.
  assert (H2 : iHW + rW + col + 1 <= N * HW').
  { assert (rW + col + 1 <= HW') by (subst rW HW'; nia).
    assert ((img + 1) * HW' <= N * HW')
      by (apply Z.mul_le_mono_nonneg_r; lia).
    subst iHW. lia. }
  split; [nia|].
  assert ((iHW + rW + col + 1) * d <= N * HW' * d)
    by (apply Z.mul_le_mono_nonneg_r; lia).
  lia.
Qed.

Lemma cells_filled_weaken (order : byteorder) (self : MIfile) (w : world)
    (name : string) (locs : list (Z * Z)) (list_z : list Z)
    (done done' : nat -> nat -> Prop) (res : ndarray) :
  (forall p z, (p < length locs)%nat -> (z < length list_z)%nat ->
               done' p z -> done p z) ->
  cells_filled order self w name locs list_z done res ->
  cells_filled order self w name locs list_z done' res.
Proof.
  intros Hd (Ht & Hs & Hl & Hc). repeat split; try assumption.
  intros p z r c zv Hp Hz Hdone. apply Hc; try assumption.
  apply Hd; try assumption; eapply lookup_lt_Some; eauto.
Qed.

Lemma cell_index_injective (nz p z p' z' : nat) :
  (z < nz)%nat -> (z' < nz)%nat ->
  (p * nz + z = p' * nz + z')%nat -> p = p' /\ z = z'.
Proof.
  intros Hz Hz' E.
  destruct (Nat.lt_trichotomy p p') as [Hlt|[->|Hgt]].
  - exfalso. assert ((p + 1) * nz <= p' * nz)%nat by (apply Nat.mul_le_mono_r; lia).
    lia.
  - split; [reflexivity | lia].
  - exfalso. assert ((p' + 1) * nz <= p * nz)%nat by (apply Nat.mul_le_mono_r; lia).
    lia.
Qed.

(** A loop that succeeds has kept an invariant that its successful
    turns keep. *)
Lemma fold_ST_Ok_invariant {S A B} (I : nat -> B -> S -> Prop) (xs : list A)
    (body : B -> A -> ST S B) :
  (forall i x b s b' s', xs !! i = Some x -> I i b s ->
     body b x s = (Ok b', s') -> I (Datatypes.S i) b' s') ->
  forall b s b' s', I 0%nat b s ->
    fold_ST xs body b s = (Ok b', s') -> I (length xs) b' s'.
Proof.
  revert I. induction xs as [|x xs IH]; intros I Hstep b s b' s' H0.
  - cbn. intros [= <- <-]. exact H0.
  - cbn [fold_ST]. intros H.
    apply bind_Ok_inv in H as (b1 & s1 & E1 & H).
    apply (IH (fun i => I (Datatypes.S i))
             (fun i y b s b' s' Hy Hi => Hstep (Datatypes.S i) y b s b' s' Hy Hi)
             b1 s1 b' s'); [|exact H].
    eapply Hstep; [reflexivity | exact H0 | exact E1].
Qed.

Section Traces.

Variable order : byteorder.
Variable self : MIfile.
Variable w : world.
Variable name : string.
Variable locs : list (Z * Z).
Variable list_z : list Z.

Hypothesis self_consistent : consistent self.

Local Abbreviation turn := (trace_turn order).

(** A turn on a store whose read handle is open on [name], at an
    offset the file covers: the pixel is read and converted, and on
    success it is stored in its cell. *)
Lemma turn_run (s : MIfile) (res : ndarray) (done : nat -> nat -> Prop)
    (p z : nat) (r c zv : Z) :
  reading s self name ->
  cells_filled order self w name locs list_z done res ->
  0 <= _get_offset self zv r c ->
  _get_offset self zv r c + PixelDepth self
    <= Z.of_nat (length (file_content w name)) ->
  exists s',
    reading s' self name
    /\ turn (z, zv) res (p, (r, c)) (s, w)
       = (rbind (astype1 np_float64 (stored_pixel order self w name zv r c))
            (fun v =>
               Ok {| nd_dtype := nd_dtype res; nd_shape := nd_shape res;
                     nd_data := <[(p * length list_z + z)%nat := v]>
                                  (nd_data res) |}),
          (s', w)).
Proof.
  intros Hs (Ht & Hsh & Hl & Hc) Ho1 Ho2.
  pose proof self_consistent as (_ & _ & Hd & _).
  destruct (read_one_pixel order s self w name zv r c Hs Hd Ho1 Ho2)
    as (s' & Er & Hs').
  exists s'. split; [exact Hs'|].
  unfold turn. unfold bind at 1, self_ at 1. cbn [fst snd].
  unfold bind at 1. rewrite Er.
  unfold liftR, setitem2. rewrite Hsh. cbn [nd_data]. rewrite Ht.
  rewrite Nat2Z.id. reflexivity.
Qed.

(** Storing the converted pixel fills in the cell and leaves the others
    as they are. *)
Lemma cell_stored (res : ndarray) (done : nat -> nat -> Prop)
    (p z : nat) (r c zv : Z) (v : scalar) :
  locs !! p = Some (r, c) ->
  list_z !! z = Some zv ->
  astype1 np_float64 (stored_pixel order self w name zv r c) = Ok v ->
  cells_filled order self w name locs list_z done res ->
  cells_filled order self w name locs list_z
    (fun p' z' => done p' z' \/ (p' = p /\ z' = z))
    {| nd_dtype := nd_dtype res; nd_shape := nd_shape res;
       nd_data := <[(p * length list_z + z)%nat := v]> (nd_data res) |}.
Proof.
  intros Hp Hz Hv (Ht & Hsh & Hl & Hc).
  assert (Hpn : (p < length locs)%nat) by (eapply lookup_lt_Some; eauto).
  assert (Hzn : (z < length list_z)%nat) by (eapply lookup_lt_Some; eauto).
  repeat split; cbn [nd_dtype nd_shape nd_data]; try assumption.
  - rewrite length_insert. exact Hl.
  - intros p' z' r' c' zv' Hp' Hz' Hdone.
    assert (Hzn' : (z' < length list_z)%nat)
      by (eapply lookup_lt_Some; eauto).
    destruct (decide (p' = p /\ z' = z)) as [[-> ->]|Hne].
    + rewrite Hp in Hp'. rewrite Hz in Hz'.
      injection Hp' as <- <-. injection Hz' as <-.
      exists v. split; [|exact Hv].
      apply list_lookup_insert_eq. rewrite Hl. nia.
    + rewrite list_lookup_insert_ne.
      * destruct Hdone as [Hdone|He]; [now apply Hc | contradiction].
      * intros E. apply cell_index_injective in E as [-> ->];
          try assumption. now apply Hne.
Qed.

(** *** Whenever the loops succeed *)


Lemma turn_Ok (s : MIfile) (res res' : ndarray) (st' : MIfile * world)
    (done : nat -> nat -> Prop) (p z : nat) (r c zv : Z) :
  during s self name ->
  locs !! p = Some (r, c) ->
  list_z !! z = Some zv ->
  cells_filled order self w name locs list_z done res ->
  turn (z, zv) res (p, (r, c)) (s, w) = (Ok res', st') ->
  st'.2 = w /\ during st'.1 self name
  /\ cells_filled order self w name locs list_z
       (fun p' z' => done p' z' \/ (p' = p /\ z' = z)) res'.
Proof.
  intros Hs Hp Hz Hcells Hturn.
  pose proof self_consistent as (_ & _ & Hd & _).
  destruct Hs as [Hs|[-> Hnone]].
  2:{ exfalso. unfold turn, bind, self_ in Hturn. cbn [fst snd] in Hturn.
      unfold _read_pixels in Hturn. rewrite Hnone in Hturn.
      discriminate Hturn. }
  destruct (Z_lt_le_dec (_get_offset self zv r c) 0) as [Hneg|Ho1].
  { exfalso. destruct Hs as [pos ->].
    unfold turn, bind, self_ in Hturn. cbn [fst snd] in Hturn.
    unfold _read_pixels in Hturn. cbn [ReadFileHandle set_handles] in Hturn.
    unfold file_seek in Hturn.
    change (_get_offset (set_handles self _ _ _) zv r c)
      with (_get_offset self zv r c) in Hturn.
    destruct (Z.ltb_spec (_get_offset self zv r c) 0); [|lia].
    discriminate Hturn. }
  destruct (Z_le_gt_dec (_get_offset self zv r c + PixelDepth self)
              (Z.of_nat (length (file_content w name)))) as [Ho2|Hshort].
  - destruct (turn_run s res done p z r c zv Hs Hcells Ho1 Ho2)
      as (s' & Hs' & Erun).
    rewrite Erun in Hturn.
    destruct (astype1 np_float64 (stored_pixel order self w name zv r c))
      as [v|e] eqn:Ev; cbn [rbind] in Hturn; [|discriminate Hturn].
    injection Hturn as <- <-. cbn [fst snd].
    split; [reflexivity|]. split; [left; exact Hs'|].
    exact (cell_stored res done p z r c zv v Hp Hz Ev Hcells).
  - exfalso. destruct Hs as [pos ->].
    set (s := set_handles self _ _ _) in *.
    pose proof (_read_pixels_short order s w
                  {| rh_name := name; rh_pos := pos |} 1
                  (Some (_get_offset s zv r c)) eq_refl) as Hraise.
    unfold turn, bind, self_ in Hturn. cbn [fst snd] in Hturn.
    unfold answer in Hraise.
    destruct (_read_pixels order 1 (Some (_get_offset s zv r c)) (s, w))
      as [[px|e] st1]; [|discriminate Hturn].
    cbn [fst] in Hraise.
    assert (Hcontra : Ok px = Raise (IOError_EOF (Some (_get_offset s zv r c))
                                      (bytes_available w
                                         {| rh_name := name; rh_pos := pos |}
                                         (Some (_get_offset s zv r c)))
                                      (1 * PixelDepth s) 1
                                      (ReadingFileName s))).
    { apply Hraise.
      - exact Ho1.
      - unfold bytes_available, read_position. cbn [rh_name].
        change (_get_offset s zv r c) with (_get_offset self zv r c).
        change (PixelDepth s) with (PixelDepth self).
        rewrite length_drop.
        assert (Hdp : 0 < PixelDepth self)
          by (rewrite Hd; destruct (PixelFormat self); reflexivity).
        lia. }
    discriminate Hcontra.
Qed.

Lemma column_Ok (s : MIfile) (res res' : ndarray) (st' : MIfile * world)
    (done : nat -> nat -> Prop) (z : nat) (zv : Z) :
  during s self name ->
  list_z !! z = Some zv ->
  cells_filled order self w name locs list_z done res ->
  fold_ST (enumerate locs) (turn (z, zv)) res (s, w) = (Ok res', st') ->
  st'.2 = w /\ during st'.1 self name
  /\ cells_filled order self w name locs list_z
       (fun p' z' => done p' z' \/ z' = z) res'.
Proof.
  intros Hs Hz Hcells Hfold.
  pose proof (fold_ST_Ok_invariant
                (fun i res st =>
                   st.2 = w /\ during st.1 self name
                   /\ cells_filled order self w name locs list_z
                        (fun p' z' => done p' z' \/ (z' = z /\ (p' < i)%nat))
                        res)
                (enumerate locs) (turn (z, zv))) as Hinv.
  destruct (Hinv
              ltac:(intros i [j [r c]] b [s0 w0] b' st1 Hi (Hw0 & Hs0 & Hc0) E;
                    cbn [fst snd] in *; subst w0;
                    apply enumerate_lookup in Hi as [-> Hi];
                    destruct (turn_Ok s0 b b' st1 _ i z r c zv Hs0 Hi Hz Hc0 E)
                      as (Hw1 & Hs1 & Hc1);
                    split; [exact Hw1|]; split; [exact Hs1|];
                    eapply cells_filled_weaken; [|exact Hc1];
                    intros p' z' _ _ [Hd|[-> Hlt]]; [left; now left|];
                    destruct (decide (p' = i)) as [->|];
                    [right; split; reflexivity|];
                    left; right; split; [reflexivity | lia])
              res (s, w) res' st') as (Hw' & Hs' & Hc').
  - cbn [fst snd]. split; [reflexivity|]. split; [exact Hs|].
    eapply cells_filled_weaken; [|exact Hcells].
    intros p' z' _ _ [Hd|[_ Hlt]]; [exact Hd | lia].
  - exact Hfold.
  - split; [exact Hw'|]. split; [exact Hs'|].
    eapply cells_filled_weaken; [|exact Hc'].
    intros p' z' Hp' _ [Hd| ->]; [now left|].
    right. split; [reflexivity|]. now rewrite length_enumerate.
Qed.

Lemma table_Ok (s : MIfile) (res' : ndarray) (st' : MIfile * world) :
  during s self name ->
  fold_ST (enumerate list_z)
    (fun res zi => fold_ST (enumerate locs) (turn zi) res)
    (np_empty2 (length locs) (length list_z)) (s, w) = (Ok res', st') ->
  cells_filled order self w name locs list_z (fun _ _ => True) res'.
Proof.
  intros Hs Hfold.
  pose proof (fold_ST_Ok_invariant
                (fun i res st =>
                   st.2 = w /\ during st.1 self name
                   /\ cells_filled order self w name locs list_z
                        (fun _ z' => (z' < i)%nat) res)
                (enumerate list_z)
                (fun res zi => fold_ST (enumerate locs) (turn zi) res))
    as Hinv.
  destruct (Hinv
              ltac:(intros i [j zv] b [s0 w0] b' st1 Hi (Hw0 & Hs0 & Hc0) E;
                    cbn [fst snd] in *; subst w0;
                    apply enumerate_lookup in Hi as [-> Hi];
                    destruct (column_Ok s0 b b' st1 _ i zv Hs0 Hi Hc0 E)
                      as (Hw1 & Hs1 & Hc1);
                    split; [exact Hw1|]; split; [exact Hs1|];
                    eapply cells_filled_weaken; [|exact Hc1];
                    intros p' z' _ _ Hlt;
                    destruct (decide (z' = i)); [now right | left; lia])
              (np_empty2 (length locs) (length list_z)) (s, w) res' st')
    as (_ & _ & Hc').
  - cbn [fst snd]. split; [reflexivity|]. split; [exact Hs|].
    repeat split.
    + cbn. now rewrite length_replicate.
    + intros p z r c zv _ _ Hlt. lia.
  - exact Hfold.
  - eapply cells_filled_weaken; [|exact Hc'].
    intros p' z' _ Hz' _. now rewrite length_enumerate.
Qed.

(** *** The loops succeed on a file that holds the declared frames *)

Hypothesis header_nonneg : 0 <= hdrSize self.
Hypothesis bytes_in_file : Forall is_byte (file_content w name).
Hypothesis file_holds_frames :
  declared_size self <= Z.of_nat (length (file_content w name)).
Hypothesis locs_in_frame :
  Forall (fun rc => 0 <= rc.1 < ImgHeight self /\ 0 <= rc.2 < ImgWidth self)
    locs.
Hypothesis frames_declared :
  Forall (fun zv => 0 <= zv < ImgNumber self) list_z.

Lemma trace_step (s : MIfile) (res : ndarray) (done : nat -> nat -> Prop)
    (p z : nat) (r c zv : Z) :
  reading s self name ->
  locs !! p = Some (r, c) ->
  list_z !! z = Some zv ->
  cells_filled order self w name locs list_z done res ->
  exists res' s',
    turn (z, zv) res (p, (r, c)) (s, w) = (Ok res', (s', w))
    /\ reading s' self name
    /\ cells_filled order self w name locs list_z
         (fun p' z' => done p' z' \/ (p' = p /\ z' = z)) res'.
Proof.
  intros Hs Hp Hz Hcells.
  pose proof self_consistent as (_ & _ & Hd & _).
  assert (Hrc := proj1 (Forall_lookup _ _) locs_in_frame p (r, c) Hp).
  assert (Hzv := proj1 (Forall_lookup _ _) frames_declared z zv Hz).
  cbn [fst snd] in Hrc.
  destruct (offset_in_declared_size self zv r c self_consistent header_nonneg
              Hzv (proj1 Hrc) (proj2 Hrc)) as [Ho1 Ho2].
  assert (Hdp : 0 < PixelDepth self)
    by (rewrite Hd; destruct (PixelFormat self); reflexivity).
  destruct (turn_run s res done p z r c zv Hs Hcells Ho1 ltac:(lia))
    as (s' & Hs' & Erun).
  assert (Hconv : astype1 np_float64 (stored_pixel order self w name zv r c)
                  = Ok (stored_pixel order self w name zv r c)).
  { unfold stored_pixel. apply float64_of_unpacked.
    - apply Forall_take, Forall_drop. exact bytes_in_file.
    - rewrite length_take, length_drop. lia. }
  rewrite Hconv in Erun. cbn [rbind] in Erun.
  eexists. exists s'. split; [exact Erun|]. split; [exact Hs'|].
  exact (cell_stored res done p z r c zv _ Hp Hz Hconv Hcells).
Qed.

Lemma trace_column (s : MIfile) (res : ndarray) (done : nat -> nat -> Prop)
    (z : nat) (zv : Z) :
  reading s self name ->
  list_z !! z = Some zv ->
  cells_filled order self w name locs list_z done res ->
  exists res' s',
    fold_ST (enumerate locs) (turn (z, zv)) res (s, w) = (Ok res', (s', w))
    /\ reading s' self name
    /\ cells_filled order self w name locs list_z
         (fun p' z' => done p' z' \/ z' = z) res'.
Proof.
  intros Hs Hz Hcells.
  destruct (fold_ST_invariant
              (fun i res st =>
                 st.2 = w /\ reading st.1 self name
                 /\ cells_filled order self w name locs list_z
                      (fun p' z' => done p' z' \/ (z' = z /\ (p' < i)%nat))
                      res)
              (enumerate locs) (turn (z, zv)))
    with (b := res) (s := (s, w)) as (res' & [s' w'] & E & Hw & Hs' & Hc').
  - intros i [j [r c]] b [s0 w0] Hi (Hw0 & Hs0 & Hc0). cbn [fst snd] in *.
    subst w0. apply enumerate_lookup in Hi as [-> Hi].
    destruct (trace_step s0 b _ i z r c zv Hs0 Hi Hz Hc0)
      as (b' & s1 & E1 & Hs1 & Hc1).
    exists b', (s1, w). split; [exact E1|]. cbn [fst snd].
    split; [reflexivity|]. split; [exact Hs1|].
    eapply cells_filled_weaken; [|exact Hc1].
    intros p' z' _ _ [Hd|[-> Hlt]]; [left; now left|].
    destruct (decide (p' = i)) as [->|]; [right; split; reflexivity|].
    left. right. split; [reflexivity | lia].
  - cbn [fst snd]. split; [reflexivity|]. split; [exact Hs|].
    eapply cells_filled_weaken; [|exact Hcells].
    intros p' z' _ _ [Hd|[_ Hlt]]; [exact Hd | lia].
  - cbn [fst snd] in *. subst w'. exists res', s'.
    split; [exact E|]. split; [exact Hs'|].
    eapply cells_filled_weaken; [|exact Hc'].
    intros p' z' Hp' _ [Hd| ->]; [now left|].
    right. split; [reflexivity|]. now rewrite length_enumerate.
Qed.

Lemma trace_table (s : MIfile) :
  reading s self name ->
  exists res' s',
    fold_ST (enumerate list_z)
      (fun res zi => fold_ST (enumerate locs) (turn zi) res)
      (np_empty2 (length locs) (length list_z)) (s, w)
    = (Ok res', (s', w))
    /\ cells_filled order self w name locs list_z (fun _ _ => True) res'.
Proof.
  intros Hs.
  destruct (fold_ST_invariant
              (fun i res st =>
                 st.2 = w /\ reading st.1 self name
                 /\ cells_filled order self w name locs list_z
                      (fun _ z' => (z' < i)%nat) res)
              (enumerate list_z)
              (fun res zi => fold_ST (enumerate locs) (turn zi) res))
    with (b := np_empty2 (length locs) (length list_z)) (s := (s, w))
    as (res' & [s' w'] & E & Hw & Hs' & Hc').
  - intros i [j zv] b [s0 w0] Hi (Hw0 & Hs0 & Hc0). cbn [fst snd] in *.
    subst w0. apply enumerate_lookup in Hi as [-> Hi].
    destruct (trace_column s0 b _ i zv Hs0 Hi Hc0)
      as (b' & s1 & E1 & Hs1 & Hc1).
    exists b', (s1, w). split; [exact E1|]. cbn [fst snd].
    split; [reflexivity|]. split; [exact Hs1|].
    eapply cells_filled_weaken; [|exact Hc1].
    intros p' z' _ _ Hlt. destruct (decide (z' = i)); [now right | left; lia].
  - cbn [fst snd]. split; [reflexivity|]. split; [exact Hs|].
    repeat split.
    + cbn. now rewrite length_replicate.
    + intros p z r c zv _ _ Hlt. lia.
  - cbn [fst snd] in *. subst w'. exists res', s'. split; [exact E|].
    eapply cells_filled_weaken; [|exact Hc'].
    intros p' z' _ Hz' _. now rewrite length_enumerate.
Qed.

End Traces.

Lemma py_range_all (n : Z) :
  0 <= n -> py_range 0 n 1 = map Z.of_nat (seq 0 (Z.to_nat n)).
Proof.
  intros Hn. unfold py_range, range_len. cbn [Z.ltb Z.compare].
  destruct (Z.ltb_spec 0 n).
  - rewrite Z.div_1_r. replace (Z.to_nat (n - 0 - 1 + 1)) with (Z.to_nat n) by lia.
    apply map_ext. intros i. lia.
  - replace (Z.to_nat n) with 0%nat by lia. reflexivity.
Qed.

Lemma py_range_all_lookup (n : Z) (z : nat) :
  0 <= n -> (z < Z.to_nat n)%nat -> py_range 0 n 1 !! z = Some (Z.of_nat z).
Proof.
  intros Hn Hz. rewrite py_range_all by exact Hn.
  rewrite list_lookup_fmap, lookup_seq_lt by exact Hz. reflexivity.
Qed.

Lemma length_py_range_all (n : Z) :
  0 <= n -> length (py_range 0 n 1) = Z.to_nat n.
Proof.
  intros Hn. rewrite py_range_all by exact Hn.
  now rewrite length_map, length_seq.
Qed.

(** [GetTimetraces] over all frames, on a store that is open for reading
    a file that holds the declared frames, at locations within the
    frame. *)
Lemma GetTimetraces_run (order : byteorder) (self : MIfile) (w : world)
    (pxLocs : px_locs) (h : rhandle) :
  ReadFileHandle self = Some h ->
  consistent self ->
  0 <= hdrSize self -> 0 <= ImgNumber self ->
  Forall is_byte (file_content w (rh_name h)) ->
  declared_size self <= Z.of_nat (length (file_content w (rh_name h))) ->
  locations pxLocs <> [] ->
  Forall (fun rc => 0 <= rc.1 < ImgHeight self /\ 0 <= rc.2 < ImgWidth self)
    (locations pxLocs) ->
  exists res,
    answer (GetTimetraces order pxLocs None) self w
    = Ok (if (length (locations pxLocs) =? 1)%nat then flatten res else res)
    /\ cells_filled order self w (rh_name h) (locations pxLocs)
         (py_range 0 (ImgNumber self) 1) (fun _ _ => True) res.
Proof.
  intros Hh Hcons Hhdr Hn Hbytes Hsize Hne Hlocs.
  set (w1 := set_heap w (heap w ++ [[0; ImgNumber self; 1]])).
  assert (Hframes : Forall (fun zv => 0 <= zv < ImgNumber self)
                      (py_range 0 (ImgNumber self) 1)).
  { rewrite py_range_all by exact Hn. apply Forall_forall. intros zv Hzv.
    apply list_elem_of_fmap in Hzv as (i & -> & Hi).
    apply elem_of_seq in Hi. lia. }
  destruct (trace_table order self w1 (rh_name h) (locations pxLocs)
              (py_range 0 (ImgNumber self) 1) Hcons Hhdr Hbytes Hsize Hlocs
              Hframes self (reading_self self h Hh))
    as (res & s' & E & Hcells).
  exists res. split; [|exact Hcells].
  unfold answer, GetTimetraces.
  unfold bind at 1. unfold MIfile_Validate_zRange at 1.
  unfold bind at 1, self_ at 1. cbn [fst snd].
  unfold in_world at 1. cbn [fst snd].
  unfold Validate_zRange, bind at 1, alloc, ret at 1. cbn [fst snd].
  fold w1.
  unfold bind at 1, in_world at 1. cbn [fst snd].
  unfold deref at 1. cbn [heap w1 set_heap].
  rewrite list_lookup_middle by reflexivity.
  unfold bind at 1, liftR at 1, range3. cbn [Z.eqb].
  unfold bind at 1.
  replace (match pxLocs with
           | OneLoc r c => ret [(r, c)]
           | Locs [] => raise IndexError
           | Locs ((_ :: _) as l) => ret l
           end (self, w1))
    with (Ok (locations pxLocs), (self, w1)).
  2:{ destruct pxLocs as [r c|[|p l]]; try reflexivity. now destruct Hne. }
  unfold bind at 1.
  fold w1 in E. unfold trace_turn in E. rewrite E.
  destruct (length (locations pxLocs) =? 1)%nat; reflexivity.
Qed.

(** What the validation of the frame range leaves behind when it
    succeeds: the normalised range in a list of the heap, the files as
    they were. *)
Lemma MIfile_Validate_zRange_Ok (self : MIfile) (w : world)
    (zRange : option loc) (v : option loc) (s1 : MIfile * world) :
  MIfile_Validate_zRange zRange (self, w) = (Ok v, s1) ->
  exists z w1 nl,
    v = Some z /\ s1 = (self, w1) /\ files w1 = files w
    /\ heap w1 !! z = Some nl
    /\ normalised_range w zRange (ImgNumber self) = Some nl.
Proof.
  unfold MIfile_Validate_zRange, bind, self_, in_world. cbn [fst snd].
  destruct zRange as [r|].
  - destruct (heap w !! r) as [l|] eqn:Hr.
    + destruct l as [|a [|b rest]].
      * assert (E : Validate_zRange (Some r) (ImgNumber self) true w
                    = (Raise IndexError, w)).
        { unfold Validate_zRange, bind, list_getitem, bind, deref, liftR.
          now rewrite Hr. }
        rewrite E. discriminate.
      * assert (E : Validate_zRange (Some r) (ImgNumber self) true w
                    = (Raise IndexError, w)).
        { unfold Validate_zRange, bind, list_getitem, bind, deref, liftR.
          now rewrite Hr. }
        rewrite E. discriminate.
      * rewrite (Validate_zRange_run w r a b (ImgNumber self) rest true Hr).
        intros [= <- <-]. eexists. eexists. eexists.
        split; [reflexivity|]. split; [reflexivity|].
        split; [reflexivity|]. split.
        -- eapply heap_set_lookup; eauto.
        -- unfold normalised_range. now rewrite Hr.
    + assert (E : Validate_zRange (Some r) (ImgNumber self) true w
                  = (Raise TypeError, w)).
      { unfold Validate_zRange, bind, list_getitem, bind, deref.
        now rewrite Hr. }
      rewrite E. discriminate.
  - unfold Validate_zRange, bind, alloc, ret. intros [= <- <-].
    eexists. eexists. eexists.
    split; [reflexivity|]. split; [reflexivity|].
    split; [reflexivity|]. split; [|reflexivity].
    cbn. apply list_lookup_middle. reflexivity.
Qed.

(** Whenever [GetTimetraces] returns, its result holds, for each
    location and each frame of the range, the stored pixel converted to
    float64. *)
Lemma GetTimetraces_Ok (order : byteorder) (self : MIfile) (w : world)
    (pxLocs : px_locs) (zRange : option loc) (arr : ndarray) :
  consistent self ->
  answer (GetTimetraces order pxLocs zRange) self w = Ok arr ->
  exists res list_z,
    arr = (if (length (locations pxLocs) =? 1)%nat then flatten res else res)
    /\ range_frames w zRange (ImgNumber self) = Some list_z
    /\ cells_filled order self w (reading_name self) (locations pxLocs)
         list_z (fun _ _ => True) res.
Proof.
  intros Hcons H. apply answer_Ok_inv in H as [s' H].
  unfold GetTimetraces in H.
  apply bind_Ok_inv in H as (v & s1 & Hval & H).
  apply MIfile_Validate_zRange_Ok in Hval
    as (z & w1 & nl & -> & -> & Hfiles & Hz & Hnorm).
  apply bind_Ok_inv in H as (zl & s2 & Hderef & H).
  unfold in_world, deref in Hderef. cbn [fst snd] in Hderef.
  rewrite Hz in Hderef. injection Hderef as <- <-.
  apply bind_Ok_inv in H as (list_z & s3 & Hrange & H).
  assert (Hframes : range_frames w zRange (ImgNumber self) = Some list_z
                    /\ s3 = (self, w1)).
  { unfold range_frames. rewrite Hnorm.
    destruct nl as [|a [|b [|c [|]]]]; try discriminate Hrange.
    unfold liftR, range3 in Hrange.
    destruct (c =? 0); [discriminate Hrange|].
    injection Hrange as <- <-. split; reflexivity. }
  destruct Hframes as [Hframes ->].
  apply bind_Ok_inv in H as (locs & s4 & Hlocs & H).
  assert (Hl : locs = locations pxLocs /\ s4 = (self, w1)).
  { destruct pxLocs as [r c|[|p l]]; try discriminate Hlocs;
      injection Hlocs as <- <-; split; reflexivity. }
  destruct Hl as [-> ->].
  apply bind_Ok_inv in H as (res & s5 & Hfold & H).
  exists res, list_z. split; [|split; [exact Hframes|]].
  - destruct (length (locations pxLocs) =? 1)%nat;
      injection H as <- _; reflexivity.
  - assert (Hcells : cells_filled order self w1 (reading_name self)
                       (locations pxLocs) list_z (fun _ _ => True) res).
    { apply (table_Ok order self w1 (reading_name self) (locations pxLocs)
               list_z Hcons self res s5); [|exact Hfold].
      unfold reading_name.
      destruct (ReadFileHandle self) as [h|] eqn:Hh.
      - left. now apply reading_self.
      - right. split; [reflexivity | exact Hh]. }
    destruct Hcells as (Ht & Hs & Hlen & Hc).
    repeat split; try assumption.
    intros p zi r c zv Hp Hzi Hdone.
    destruct (Hc p zi r c zv Hp Hzi Hdone) as (x & Hx & Hconv).
    exists x. split; [exact Hx|].
    unfold stored_pixel, file_content in *. rewrite <- Hfiles. exact Hconv.
Qed.

(** C10. [GetTimetraces] returns 64-bit floats whatever the pixel format
    of the store.  Whenever it returns, the element type of the result is
    float64, which for every integer and boolean format is not the
    element type of the pixels, and the entry of location [p] and of the
    [z]-th frame of the range is the pixel stored at that frame and
    location, converted to float64.  And it does return on a store that
    is open for reading a file that holds the declared frames, sampled
    at locations within the frame over all frames. *)
Theorem GetTimetraces_returns_float64 (order : byteorder) (self : MIfile)
    (w : world) (pxLocs : px_locs) :
  (forall zRange arr,
      answer (GetTimetraces order pxLocs zRange) self w = Ok arr ->
      nd_dtype arr = np_float64
      /\ (integer_or_boolean (PixelFormat self) = true ->
          nd_dtype arr <> _data_types (PixelFormat self))
      /\ (consistent self ->
          exists list_z,
            range_frames w zRange (ImgNumber self) = Some list_z
            /\ length (nd_data arr)
               = (length (locations pxLocs) * length list_z)%nat
            /\ forall p z r c zv,
                 locations pxLocs !! p = Some (r, c) ->
                 list_z !! z = Some zv ->
                 exists v,
                   nd_data arr !! (p * length list_z + z)%nat = Some v
                   /\ astype1 np_float64
                        (stored_pixel order self w (reading_name self) zv r c)
                      = Ok v))
  /\ (forall h,
        ReadFileHandle self = Some h ->
        consistent self ->
        0 <= hdrSize self -> 0 <= ImgNumber self ->
        Forall is_byte (file_content w (rh_name h)) ->
        declared_size self <= Z.of_nat (length (file_content w (rh_name h))) ->
        locations pxLocs <> [] ->
        Forall (fun rc => 0 <= rc.1 < ImgHeight self
                          /\ 0 <= rc.2 < ImgWidth self) (locations pxLocs) ->
        exists arr,
          answer (GetTimetraces order pxLocs None) self w = Ok arr
          /\ length (nd_data arr)
             = (length (locations pxLocs) * Z.to_nat (ImgNumber self))%nat).
Proof.
  split.
  - intros zRange arr Harr.
    pose proof (GetTimetraces_dtype _ _ _ _ _ _ Harr) as Ht.
    split; [exact Ht|]. split.
    + rewrite Ht. destruct (PixelFormat self); intros Hf; discriminate.
    + intros Hcons.
      destruct (GetTimetraces_Ok order self w pxLocs zRange arr Hcons Harr)
        as (res & list_z & -> & Hframes & _ & _ & Hl & Hc).
      exists list_z. split; [exact Hframes|].
      replace (nd_data (if (length (locations pxLocs) =? 1)%nat
                        then flatten res else res)) with (nd_data res)
        by (destruct (_ =? _)%nat; reflexivity).
      split; [exact Hl|].
      intros p z r c zv Hp Hz. now apply Hc.
  - intros h Hh Hcons Hhdr Hn Hbytes Hsize Hne Hlocs.
    destruct (GetTimetraces_run order self w pxLocs h Hh Hcons Hhdr Hn Hbytes
                Hsize Hne Hlocs) as (res & Hrun & Ht & Hs & Hl & Hc).
    rewrite length_py_range_all in Hl by exact Hn.
    eexists. split; [exact Hrun|].
    destruct (_ =? _)%nat; exact Hl.
Qed.

Lemma GetTimetraces_returns_float64_witness :
  exists arr,
    answer (GetTimetraces little_endian (Locs [(0, 0); (0, 1)]) None)
      open6 world6 = Ok arr
    /\ nd_dtype arr = np_float64
    /\ nd_dtype arr <> _data_types (PixelFormat open6)
    /\ nd_data arr !! 3%nat = Some (Num 2).
Proof.
  destruct (proj2 (GetTimetraces_returns_float64 little_endian open6 world6
                     (Locs [(0, 0); (0, 1)]))
              {| rh_name := "a"; rh_pos := 0 |} eq_refl) as (arr & H1 & _).
  - repeat split.
  - discriminate.
  - discriminate.
  - repeat constructor; discriminate.
  - discriminate.
  - discriminate.
  - repeat constructor; discriminate.
  - destruct (proj1 (GetTimetraces_returns_float64 little_endian open6 world6
                       (Locs [(0, 0); (0, 1)])) None arr H1)
      as (H2 & H3 & H4).
    exists arr. split; [exact H1|]. split; [exact H2|].
    split; [apply H3; reflexivity|].
    destruct (H4 ltac:(repeat split)) as (list_z & Hf & _ & Hc).
    vm_compute in Hf. injection Hf as <-.
    destruct (Hc 1%nat 0%nat 0 1 0 eq_refl eq_refl) as (v & Hv & Hconv).
    vm_compute in Hconv. injection Hconv as <-. exact Hv.
Defined.

(** The traces of two locations of [store6], opened for reading. *)
Example GetTimetraces_two_locations :
  answer (GetTimetraces little_endian (Locs [(0, 0); (0, 1)]) None)
    open6 world6
  = Ok {| nd_dtype := np_float64; nd_shape := [2; 3];
          nd_data := [Num 1; Num 3; Num 5; Num 2; Num 4; Num 6] |}.
Proof. reflexivity. Qed.

(** One location gives a flat sequence. *)
Example GetTimetraces_one_location :
  answer (GetTimetraces little_endian (OneLoc 0 1) None) open6 world6
  = Ok {| nd_dtype := np_float64; nd_shape := [3];
          nd_data := [Num 2; Num 4; Num 6] |}.
Proof. reflexivity. Qed.

(** A strided range given by the caller: frames 0 and 2. *)
Example GetTimetraces_strided :
  answer (GetTimetraces little_endian (OneLoc 0 1) (Some 0%nat)) open6
    (world_of [("a"%string, [1; 2; 3; 4; 5; 6])] [[0; -1; 2]])
  = Ok {| nd_dtype := np_float64; nd_shape := [2];
          nd_data := [Num 2; Num 6] |}.
Proof. reflexivity. Qed.

(** * Further properties of the code *)

(** ** The validators on their results and on short or absent lists *)

(** X1. A region that [ValidateROI] accepts lies within the frame: its
    corner is inside, its resolved extents are not negative and end at
    or before the frame's edges.  The list keeps its first two entries
    and any entry after the fourth, and validating it once more returns
    it and changes nothing. *)
Theorem ValidateROI_result_within_frame (w w' : world) (r : loc)
    (x y wd ht : Z) (rest : list Z) (rows cols : Z) (b : bool)
    (res : option loc) :
  heap w !! r = Some (x :: y :: wd :: ht :: rest) ->
  ValidateROI (Some r) [rows; cols] b w = (Ok res, w') ->
  exists wd' ht',
    heap w' !! r = Some (x :: y :: wd' :: ht' :: rest)
    /\ 0 <= x < cols /\ 0 <= y < rows
    /\ 0 <= wd' /\ x + wd' <= cols
    /\ 0 <= ht' /\ y + ht' <= rows
    /\ forall b', ValidateROI (Some r) [rows; cols] b' w' = (Ok (Some r), w').
Proof.
  intros Hr Hrun.
  rewrite (ValidateROI_run w r x y wd ht rows cols rest b Hr) in Hrun.
  destruct ((0 <=? x) && (x <? cols)) eqn:Ex; [|discriminate Hrun].
  destruct ((0 <=? y) && (y <? rows)) eqn:Ey; [|discriminate Hrun].
  apply range_of_andb in Ex, Ey. cbn [negb] in Hrun.
  set (wd' := if wd <? 0 then cols - x else wd) in *.
  set (ht' := if ht <? 0 then rows - y else ht) in *.
  destruct (wd' + x <=? cols) eqn:Ew; [|discriminate Hrun].
  destruct (ht' + y <=? rows) eqn:Eh; [|discriminate Hrun].
  cbn [negb] in Hrun. injection Hrun as _ <-.
  apply Z.leb_le in Ew, Eh.
  assert (Hwd : 0 <= wd').
  { subst wd'. destruct (Z.ltb_spec wd 0); lia. }
  assert (Hht : 0 <= ht').
  { subst ht'. destruct (Z.ltb_spec ht 0); lia. }
  exists wd', ht'.
  set (w1 := set_heap w _).
  assert (Hr' : heap w1 !! r = Some (x :: y :: wd' :: ht' :: rest)).
  { subst w1. erewrite heap_set_lookup by eauto. reflexivity. }
  split; [exact Hr'|]. repeat (split; [lia|]).
  intros b'.
  rewrite (ValidateROI_run w1 r x y wd' ht' rows cols rest b' Hr').
  assert (E1 : (0 <=? x) && (x <? cols) = true).
  { apply andb_true_iff. split; [apply Z.leb_le | apply Z.ltb_lt]; lia. }
  assert (E2 : (0 <=? y) && (y <? rows) = true).
  { apply andb_true_iff. split; [apply Z.leb_le | apply Z.ltb_lt]; lia. }
  rewrite E1, E2. cbn [negb].
  assert (Ew' : (wd' <? 0) = false) by (apply Z.ltb_ge; lia).
  assert (Eh' : (ht' <? 0) = false) by (apply Z.ltb_ge; lia).
  unfold resolve_ROI. rewrite Ew', Eh'.
  assert (E3 : (wd' + x <=? cols) = true) by (apply Z.leb_le; lia).
  assert (E4 : (ht' + y <=? rows) = true) by (apply Z.leb_le; lia).
  rewrite E3, E4. cbn [negb].
  now rewrite (set_heap_same w1 r _ Hr').
Qed.

Lemma ValidateROI_result_within_frame_witness :
  exists wd' ht',
    heap (world_of [] [[5; 5; 15; 5; 9]]) !! 0%nat
    = Some [5; 5; wd'; ht'; 9]
    /\ 0 <= 5 < 20 /\ 0 <= 5 < 10
    /\ 0 <= wd' /\ 5 + wd' <= 20
    /\ 0 <= ht' /\ 5 + ht' <= 10
    /\ forall b', ValidateROI (Some 0%nat) [10; 20] b'
                    (world_of [] [[5; 5; 15; 5; 9]])
                  = (Ok (Some 0%nat), world_of [] [[5; 5; 15; 5; 9]]).
Proof.
  apply (ValidateROI_result_within_frame
           (world_of [] [[5; 5; -1; -1; 9]]) (world_of [] [[5; 5; 15; 5; 9]])
           0%nat 5 5 (-1) (-1) [9] 10 20 false (Some 0%nat));
    reflexivity.
Defined.

(** X2. An absent region.  With [replaceNone] unset the answer is [None]
    and nothing changes; with [replaceNone] set the answer is a new list
    [[0, 0, columns, rows]], and that list passes [ValidateROI] exactly
    when the frame has a row and a column: the full region of an empty
    frame is refused by the check of its own corner. *)
Theorem ValidateROI_of_None (w : world) (rows cols : Z) :
  ValidateROI None [rows; cols] false w = (Ok None, w)
  /\ ValidateROI None [rows; cols] true w
     = (Ok (Some (length (heap w))),
        set_heap w (heap w ++ [[0; 0; cols; rows]]))
  /\ (0 < rows /\ 0 < cols ->
      forall b,
        ValidateROI (Some (length (heap w))) [rows; cols] b
          (set_heap w (heap w ++ [[0; 0; cols; rows]]))
        = (Ok (Some (length (heap w))),
           set_heap w (heap w ++ [[0; 0; cols; rows]])))
  /\ (~ (0 < rows /\ 0 < cols) ->
      forall b,
        is_Ok (fst (ValidateROI (Some (length (heap w))) [rows; cols] b
                      (set_heap w (heap w ++ [[0; 0; cols; rows]]))))
        = false).
Proof.
  set (w1 := set_heap w (heap w ++ [[0; 0; cols; rows]])).
  assert (Hr : heap w1 !! length (heap w) = Some [0; 0; cols; rows]).
  { subst w1. simpl. rewrite lookup_app_r by lia.
    now rewrite Nat.sub_diag. }
  split; [reflexivity|]. split; [reflexivity|]. split.
  - intros [Hrows Hcols] b.
    etransitivity;
      [exact (ValidateROI_run w1 _ 0 0 cols rows rows cols [] b Hr)|].
    assert (E1 : (0 <=? 0) && (0 <? cols) = true).
    { apply andb_true_iff. split; [apply Z.leb_le | apply Z.ltb_lt]; lia. }
    assert (E2 : (0 <=? 0) && (0 <? rows) = true).
    { apply andb_true_iff. split; [apply Z.leb_le | apply Z.ltb_lt]; lia. }
    rewrite E1, E2. cbn [negb]. unfold resolve_ROI.
    assert (Ew : (cols <? 0) = false) by (apply Z.ltb_ge; lia).
    assert (Eh : (rows <? 0) = false) by (apply Z.ltb_ge; lia).
    rewrite Ew, Eh.
    assert (E3 : (cols + 0 <=? cols) = true) by (apply Z.leb_le; lia).
    assert (E4 : (rows + 0 <=? rows) = true) by (apply Z.leb_le; lia).
    rewrite E3, E4. cbn [negb].
    now rewrite (set_heap_same w1 _ _ Hr).
  - intros Hempty b.
    pose proof (ValidateROI_run w1 _ 0 0 cols rows rows cols [] b Hr) as Hrun.
    cbv zeta in Hrun. unfold loc in *. rewrite Hrun. clear Hrun.
    destruct (Z.ltb_spec 0 cols) as [Hc|Hc]; [|reflexivity].
    destruct (Z.ltb_spec 0 rows) as [Hrw|Hrw]; [|reflexivity].
    exfalso. apply Hempty. lia.
Qed.

Lemma ValidateROI_of_None_witness :
  ValidateROI (Some 0%nat) [10; 20] false (world_of [] [[0; 0; 20; 10]])
  = (Ok (Some 0%nat), world_of [] [[0; 0; 20; 10]])
  /\ is_Ok (fst (ValidateROI (Some 0%nat) [0; 20] false
                   (world_of [] [[0; 0; 20; 0]]))) = false.
Proof.
  split.
  - apply (proj1 (proj2 (proj2 (ValidateROI_of_None (world_of [] []) 10 20)))).
    lia.
  - apply (proj2 (proj2 (proj2 (ValidateROI_of_None (world_of [] []) 0 20)))).
    lia.
Defined.

(** X3. [Validate_zRange] on a list.  A list of fewer than two entries
    raises IndexError and stays as it is.  On a list of two or more
    entries the call leaves a list of at least three entries that starts
    with the same index, and a second call on it changes nothing: the
    normalisation is idempotent. *)
Theorem Validate_zRange_on_lists (w : world) (r : loc) (l : list Z)
    (zSize : Z) (rn : bool) :
  heap w !! r = Some l ->
  ((length l < 2)%nat ->
   Validate_zRange (Some r) zSize rn w = (Raise IndexError, w))
  /\ ((2 <= length l)%nat ->
      exists w' l',
        Validate_zRange (Some r) zSize rn w = (Ok (Some r), w')
        /\ heap w' !! r = Some l'
        /\ (3 <= length l')%nat
        /\ l' !! 0%nat = l !! 0%nat
        /\ forall rn',
             Validate_zRange (Some r) zSize rn' w' = (Ok (Some r), w')).
Proof.
  intros Hr. split.
  - intros Hlen. unfold Validate_zRange.
    unfold bind at 1.
    rewrite (list_getitem_raise w r l 1 IndexError Hr); [reflexivity|].
    apply py_index_short; lia.
  - intros Hlen.
    destruct l as [|a [|b rest]]; [simpl in Hlen; lia | simpl in Hlen; lia |].
    set (l' := resolve_zRange (a :: b :: rest) zSize).
    set (w' := set_heap w (<[r := l']> (heap w))).
    assert (Hr' : heap w' !! r = Some l') by (eapply heap_set_lookup; eauto).
    assert (Hl' : exists e rest', l' = a :: e :: rest'
                                  /\ (1 <= length rest')%nat
                                  /\ ((e <? 0) = true -> e = zSize)).
    { subst l'. unfold resolve_zRange.
      set (e := if b <? 0 then zSize else b).
      assert (He : (e <? 0) = true -> e = zSize).
      { subst e. destruct (b <? 0) eqn:Eb; [reflexivity|].
        intros H. congruence. }
      destruct rest as [|c rest].
      - exists e, [1]. simpl. repeat split; [lia | exact He].
      - exists e, (c :: rest). simpl. repeat split; [lia | exact He]. }
    destruct Hl' as [e [rest' [El' [Hlen' He]]]].
    exists w', l'. split; [now apply Validate_zRange_run|].
    split; [exact Hr'|]. split; [rewrite El'; simpl; lia|].
    split; [now rewrite El'|].
    intros rn'. rewrite El' in Hr'.
    rewrite (Validate_zRange_run w' r a e zSize rest' rn' Hr').
    assert (Efix : resolve_zRange (a :: e :: rest') zSize = a :: e :: rest').
    { unfold resolve_zRange.
      assert (Ee : (if e <? 0 then zSize else e) = e).
      { destruct (e <? 0) eqn:E; [symmetry; now apply He | reflexivity]. }
      rewrite Ee.
      destruct rest' as [|c rest'']; [simpl in Hlen'; lia | reflexivity]. }
    rewrite Efix. now rewrite (set_heap_same w' r _ Hr').
Qed.

Lemma Validate_zRange_on_lists_witness :
  Validate_zRange (Some 0%nat) 10 true (world_of [] [[2]; [2; -1]])
  = (Raise IndexError, world_of [] [[2]; [2; -1]])
  /\ exists w' l',
       Validate_zRange (Some 1%nat) 10 true (world_of [] [[2]; [2; -1]])
       = (Ok (Some 1%nat), w')
       /\ heap w' !! 1%nat = Some l'
       /\ (3 <= length l')%nat
       /\ l' !! 0%nat = Some 2
       /\ forall rn',
            Validate_zRange (Some 1%nat) 10 rn' w' = (Ok (Some 1%nat), w').
Proof.
  split.
  - apply (proj1 (Validate_zRange_on_lists (world_of [] [[2]; [2; -1]])
                    0%nat [2] 10 true eq_refl)).
    simpl. lia.
  - apply (proj2 (Validate_zRange_on_lists (world_of [] [[2]; [2; -1]])
                    1%nat [2; -1] 10 true eq_refl)).
    simpl. lia.
Defined.

(** ** The layout of the pixels in the file *)

Lemma consistent_depth (self : MIfile) :
  consistent self -> 1 <= PixelDepth self <= 8.
Proof.
  intros [_ [_ [Hd _]]]. rewrite Hd.
  destruct (PixelFormat self); simpl; lia.
Qed.

(** The index of a pixel among the pixels of the file, in the order
    frame, row, column. *)
Lemma pixel_index_order (H W i r c i' r' c' : Z) :
  0 <= r < H -> 0 <= c < W -> 0 <= r' < H -> 0 <= c' < W ->
  i < i' \/ (i = i' /\ (r < r' \/ (r = r' /\ c < c'))) ->
  i * (H * W) + r * W + c + 1 <= i' * (H * W) + r' * W + c'.
Proof.
  intros Hr Hc Hr' Hc' [Hi | [-> [Hrr | [-> Hcc]]]].
  - assert (H1 : (i + 1) * (H * W) <= i' * (H * W)).
    { apply Z.mul_le_mono_nonneg_r; [apply Z.mul_nonneg_nonneg|]; lia. }
    assert (H2 : r * W <= (H - 1) * W).
    { apply Z.mul_le_mono_nonneg_r; lia. }
    assert (H3 : 0 <= r' * W) by (apply Z.mul_nonneg_nonneg; lia).
    lia.
  - assert (H1 : (r + 1) * W <= r' * W).
    { apply Z.mul_le_mono_nonneg_r; lia. }
    lia.
  - lia.
Qed.

(** X4. Distinct pixels occupy distinct bytes.  For rows and columns
    within the frame, a pixel that comes before another in the order
    frame, row, column ends at or before the offset of the other; so two
    coordinates with the same offset are the same coordinate. *)
Theorem _get_offset_separates_pixels (self : MIfile) (i r c i' r' c' : Z) :
  consistent self ->
  0 <= r < ImgHeight self -> 0 <= c < ImgWidth self ->
  0 <= r' < ImgHeight self -> 0 <= c' < ImgWidth self ->
  (i < i' \/ (i = i' /\ (r < r' \/ (r = r' /\ c < c'))) ->
   _get_offset self i r c + PixelDepth self <= _get_offset self i' r' c')
  /\ (_get_offset self i r c = _get_offset self i' r' c' ->
      i = i' /\ r = r' /\ c = c').
Proof.
  intros Hc Hr Hcl Hr' Hcl'.
  pose proof (consistent_depth self Hc) as Hd.
  destruct Hc as [_ [Hpx _]].
  assert (Hlt : forall a b d a' b' d',
             0 <= b < ImgHeight self -> 0 <= d < ImgWidth self ->
             0 <= b' < ImgHeight self -> 0 <= d' < ImgWidth self ->
             a < a' \/ (a = a' /\ (b < b' \/ (b = b' /\ d < d'))) ->
             _get_offset self a b d + PixelDepth self
             <= _get_offset self a' b' d').
  { intros a b d a' b' d' Hb Hd0 Hb' Hd' Hlex.
    pose proof (pixel_index_order _ _ a b d a' b' d' Hb Hd0 Hb' Hd' Hlex)
      as Hidx.
    unfold _get_offset. rewrite Hpx.
    set (k := a * (ImgHeight self * ImgWidth self) + b * ImgWidth self + d)
      in *.
    set (k' := a' * (ImgHeight self * ImgWidth self) + b' * ImgWidth self
               + d') in *.
    assert ((k + 1) * PixelDepth self <= k' * PixelDepth self)
      by (apply Z.mul_le_mono_nonneg_r; lia).
    lia. }
  split; [now apply Hlt|].
  intros Heq.
  destruct (Z.lt_trichotomy i i') as [Hi | [Hi | Hi]].
  - pose proof (Hlt i r c i' r' c' Hr Hcl Hr' Hcl' (or_introl Hi)). lia.
  - subst i'. destruct (Z.lt_trichotomy r r') as [Hrr | [Hrr | Hrr]].
    + pose proof (Hlt i r c i r' c' Hr Hcl Hr' Hcl'
                    (or_intror (conj eq_refl (or_introl Hrr)))). lia.
    + subst r'. destruct (Z.lt_trichotomy c c') as [Hcc | [Hcc | Hcc]].
      * pose proof (Hlt i r c i r c' Hr Hcl Hr' Hcl'
                      (or_intror (conj eq_refl
                                    (or_intror (conj eq_refl Hcc))))). lia.
      * now subst c'.
      * pose proof (Hlt i r c' i r c Hr' Hcl' Hr Hcl
                      (or_intror (conj eq_refl
                                    (or_intror (conj eq_refl Hcc))))). lia.
    + pose proof (Hlt i r' c' i r c Hr' Hcl' Hr Hcl
                    (or_intror (conj eq_refl (or_introl Hrr)))). lia.
  - pose proof (Hlt i' r' c' i r c Hr' Hcl' Hr Hcl (or_introl Hi)). lia.
Qed.

Lemma _get_offset_separates_pixels_witness :
  (_get_offset store_3x2x3 0 1 2 + PixelDepth store_3x2x3
   <= _get_offset store_3x2x3 1 0 0)
  /\ (_get_offset store_3x2x3 0 1 2 = _get_offset store_3x2x3 1 0 0 ->
      0 = 1 /\ 1 = 0 /\ 2 = 0).
Proof.
  destruct (_get_offset_separates_pixels store_3x2x3 0 1 2 1 0 0)
    as [Hlt Hinj];
    [repeat split | simpl; lia | simpl; lia | simpl; lia | simpl; lia |].
  split; [apply Hlt; left; lia | exact Hinj].
Defined.

(** X5. The pixels of the declared frames fill the bytes from the end of
    the header to the declared size: the first pixel starts where the
    header ends, every pixel of a declared coordinate lies between the
    two, and the last pixel ends at the declared size. *)
Theorem _get_offset_within_declared_frames (self : MIfile) (i r c : Z) :
  consistent self ->
  0 <= i < ImgNumber self -> 0 <= r < ImgHeight self ->
  0 <= c < ImgWidth self ->
  _get_offset self 0 0 0 = hdrSize self
  /\ hdrSize self <= _get_offset self i r c
  /\ _get_offset self i r c + PixelDepth self <= declared_size self
  /\ _get_offset self (ImgNumber self - 1) (ImgHeight self - 1)
       (ImgWidth self - 1) + PixelDepth self
     = declared_size self.
Proof.
  intros Hc Hi Hr Hcl.
  pose proof (consistent_depth self Hc) as Hd.
  destruct Hc as [_ [Hpx _]].
  unfold _get_offset, declared_size. rewrite Hpx.
  set (H := ImgHeight self) in *. set (W := ImgWidth self) in *.
  set (N := ImgNumber self) in *. set (d := PixelDepth self) in *.
  assert (Hlast : i * (H * W) + r * W + c + 1 <= N * (H * W)).
  { assert (H1 : (i + 1) * (H * W) <= N * (H * W)).
    { apply Z.mul_le_mono_nonneg_r; [apply Z.mul_nonneg_nonneg|]; lia. }
    assert (H2 : (r + 1) * W <= H * W).
    { apply Z.mul_le_mono_nonneg_r; lia. }
    lia. }
  assert (Hfirst : 0 <= i * (H * W) + r * W + c).
  { assert (0 <= i * (H * W)).
    { apply Z.mul_nonneg_nonneg; [|apply Z.mul_nonneg_nonneg]; lia. }
    assert (0 <= r * W) by (apply Z.mul_nonneg_nonneg; lia).
    lia. }
  split; [lia|]. split.
  - assert (0 <= (i * (H * W) + r * W + c) * d)
      by (apply Z.mul_nonneg_nonneg; lia).
    lia.
  - split.
    + assert ((i * (H * W) + r * W + c + 1) * d <= N * (H * W) * d)
        by (apply Z.mul_le_mono_nonneg_r; lia).
      lia.
    + ring.
Qed.

Lemma _get_offset_within_declared_frames_witness :
  _get_offset store_3x2x3 0 0 0 = 0
  /\ 0 <= _get_offset store_3x2x3 2 1 1
  /\ _get_offset store_3x2x3 2 1 1 + 1 <= 18
  /\ _get_offset store_3x2x3 2 1 2 + 1 = 18.
Proof.
  apply (_get_offset_within_declared_frames store_3x2x3 2 1 1);
    [repeat split | simpl; lia | simpl; lia | simpl; lia].
Defined.

(** ** Construction *)

(** X6. [MIfile(FileName, MetaData)] raises IndexError when the shape of
    the metadata (or of the defaults) has fewer than three entries.
    Otherwise it yields a store without handles whose frame count,
    height and width are the first three entries of the shape, whose
    pixels per frame are height times width and whose pixel depth is the
    byte size of the format; with a shape of exactly three entries the
    attributes are consistent. *)
Theorem MIfile_init_establishes (default_settings : Config)
    (FileName0 : option string) (MetaData0 : Config) :
  let shape :=
    Get (cfg_shape (with_defaults default_settings MetaData0)) [0; 0; 0] in
  ((length shape < 3)%nat ->
   MIfile_init default_settings FileName0 MetaData0 = Raise IndexError)
  /\ (forall n h wd rest,
        shape = n :: h :: wd :: rest ->
        exists m,
          MIfile_init default_settings FileName0 MetaData0 = Ok m
          /\ ReadFileHandle m = None /\ WriteFileHandle m = None
          /\ Shape m = shape
          /\ ImgNumber m = n /\ ImgHeight m = h /\ ImgWidth m = wd
          /\ PxPerImg m = h * wd
          /\ PixelDepth m = _data_depth (PixelFormat m)
          /\ 1 <= PixelDepth m <= 8
          /\ (rest = [] -> consistent m)).
Proof.
  intros shape. split.
  - intros Hlen. unfold MIfile_init. fold shape.
    destruct shape as [|n [|h [|wd rest]]]; try reflexivity.
    simpl in Hlen. lia.
  - intros n h wd rest Hs. unfold MIfile_init. fold shape. rewrite Hs.
    change (py_index (n :: h :: wd :: rest) 0) with (Ok (A:=Z) n).
    cbn [rbind].
    replace (py_index (n :: h :: wd :: rest) 1) with (Ok (A:=Z) h)
      by (symmetry; apply py_index_lookup; [lia | reflexivity]).
    cbn [rbind].
    replace (py_index (n :: h :: wd :: rest) 2) with (Ok (A:=Z) wd)
      by (symmetry; apply py_index_lookup; [lia | reflexivity]).
    cbn [rbind].
    eexists. split; [reflexivity|]. cbn.
    repeat (split; [reflexivity|]).
    split.
    + destruct (Get _ FB); simpl; lia.
    + intros ->. repeat split.
Qed.

Lemma MIfile_init_establishes_witness :
  MIfile_init no_settings (Some "a"%string) (metadata 0 [3; 2] FB 100)
  = Raise IndexError
  /\ exists m,
       MIfile_init no_settings (Some "a"%string) (metadata 0 [3; 2; 3] FH 100)
       = Ok m
       /\ PxPerImg m = 2 * 3 /\ PixelDepth m = 2 /\ consistent m.
Proof.
  split.
  - apply (proj1 (MIfile_init_establishes no_settings (Some "a"%string)
                    (metadata 0 [3; 2] FB 100))).
    simpl. lia.
  - destruct (proj2 (MIfile_init_establishes no_settings (Some "a"%string)
                       (metadata 0 [3; 2; 3] FH 100)) 3 2 3 [] eq_refl)
      as [m [E [_ [_ [_ [_ [_ [_ [Hpx [Hd [_ Hc]]]]]]]]]]].
    exists m. split; [exact E|]. split; [exact Hpx|].
    split; [|now apply Hc].
    rewrite Hd. injection E as <-. reflexivity.
Defined.

(** ** Pixels of a file, one by one *)

Lemma split_bytes_lookup (c wd i : nat) (bs : list Z) :
  (i < c)%nat ->
  split_bytes c wd bs !! i = Some (take wd (drop (i * wd) bs)).
Proof.
  revert i bs. induction c as [|c IH]; intros i bs Hi; [lia|].
  destruct i as [|i]; simpl.
  - reflexivity.
  - rewrite IH by lia. rewrite drop_drop. reflexivity.
Qed.

(** The [k]-th pixel from a byte position on is made of the bytes at
    that position plus [k] pixel depths. *)
Lemma pixels_at_lookup (order : byteorder) (self : MIfile) (w : world)
    (name : string) (p px_num k : Z) :
  0 <= p -> 0 <= k < px_num -> 0 < PixelDepth self ->
  pixels_at order self w name p px_num !! Z.to_nat k
  = Some (unpack1 order (PixelFormat self)
            (take (Z.to_nat (PixelDepth self))
               (drop (Z.to_nat (p + k * PixelDepth self))
                  (file_content w name)))).
Proof.
  intros Hp Hk Hd. unfold pixels_at.
  rewrite list_lookup_fmap, split_bytes_lookup by lia. simpl. f_equal.
  f_equal.
  set (d := PixelDepth self) in *.
  rewrite skipn_firstn_comm, take_take, drop_drop.
  assert (Hkd : 0 <= k * d) by (apply Z.mul_nonneg_nonneg; lia).
  assert (Hnd : (k + 1) * d <= px_num * d)
    by (apply Z.mul_le_mono_nonneg_r; lia).
  f_equal; [|f_equal]; lia.
Qed.

Lemma pixels_at_app (order : byteorder) (self : MIfile) (w : world)
    (name : string) (p n m : Z) :
  0 <= p -> 0 <= n -> 0 <= m -> 0 < PixelDepth self ->
  pixels_at order self w name p (n + m)
  = pixels_at order self w name p n
    ++ pixels_at order self w name (p + n * PixelDepth self) m.
Proof.
  intros Hp Hn Hm Hd. apply list_eq. intros i.
  set (d := PixelDepth self) in *.
  assert (Hnd : 0 <= n * d) by (apply Z.mul_nonneg_nonneg; lia).
  destruct (Nat.lt_ge_cases i (Z.to_nat n)) as [Hi | Hi].
  - rewrite lookup_app_l by (rewrite length_pixels_at; lia).
    replace i with (Z.to_nat (Z.of_nat i)) by lia.
    rewrite !pixels_at_lookup by lia. reflexivity.
  - rewrite lookup_app_r by (rewrite length_pixels_at; lia).
    rewrite length_pixels_at.
    destruct (Nat.lt_ge_cases i (Z.to_nat (n + m))) as [Hi2 | Hi2].
    + replace i with (Z.to_nat (Z.of_nat i)) at 1 by lia.
      replace (i - Z.to_nat n)%nat with (Z.to_nat (Z.of_nat i - n)) by lia.
      rewrite !pixels_at_lookup by lia.
      do 4 f_equal. fold d. lia.
    + rewrite !lookup_ge_None_2; [reflexivity | |];
        rewrite length_pixels_at; lia.
Qed.

(** The pixel a read finds [k] pixels after the offset of a coordinate
    is the stored pixel [k] columns further. *)
Lemma pixels_at_offset (order : byteorder) (self : MIfile) (w : world)
    (name : string) (img row col px_num k : Z) :
  0 <= _get_offset self img row col -> 0 <= k < px_num ->
  0 < PixelDepth self ->
  pixels_at order self w name (_get_offset self img row col) px_num
    !! Z.to_nat k
  = Some (stored_pixel order self w name img row (col + k)).
Proof.
  intros Hp Hk Hd. rewrite pixels_at_lookup by lia.
  unfold stored_pixel. do 4 f_equal. unfold _get_offset. lia.
Qed.

(** ** The read primitive, with and without a position *)

Lemma _read_pixels_from (order : byteorder) (self : MIfile) (w : world)
    (h : rhandle) (px_num : Z) (seek_pos : option Z) :
  ReadFileHandle self = Some h ->
  PixelDepth self = _data_depth (PixelFormat self) ->
  0 <= read_position h seek_pos -> 0 <= px_num ->
  read_position h seek_pos + px_num * PixelDepth self
    <= Z.of_nat (length (file_content w (rh_name h))) ->
  _read_pixels order px_num seek_pos (self, w)
  = (Ok (asarray_tuple (unpacked_dtype (PixelFormat self))
           (pixels_at order self w (rh_name h) (read_position h seek_pos)
              px_num)),
     (set_handles self
        (Some {| rh_name := rh_name h;
                 rh_pos := read_position h seek_pos
                           + px_num * PixelDepth self |})
        (WriteFileHandle self) (ReadingFileName self), w)).
Proof.
  intros Hh Hd Hp Hn Hlen. unfold _read_pixels. rewrite Hh.
  assert (Hs : seek_allowed seek_pos)
    by (destruct seek_pos; simpl in *; [exact Hp | exact I]).
  rewrite (file_seek_allowed h seek_pos Hs).
  set (p := read_position h seek_pos) in *.
  unfold file_read. cbn [rh_name rh_pos].
  assert (Hdp : 0 < PixelDepth self)
    by (rewrite Hd; destruct (PixelFormat self); reflexivity).
  set (n := px_num * PixelDepth self) in *.
  assert (Hn0 : 0 <= n) by (subst n; nia).
  destruct (Z.ltb_spec n (-1)); [lia|].
  destruct (Z.eqb_spec n (-1)); [lia|].
  set (rest := drop (Z.to_nat p) (file_content w (rh_name h))).
  assert (Hrest : (Z.to_nat n <= length rest)%nat)
    by (subst rest; rewrite length_drop; lia).
  assert (Htake : length (take (Z.to_nat n) rest) = Z.to_nat n)
    by (rewrite length_take; lia).
  rewrite Htake, Z2Nat.id by lia.
  destruct (Z.ltb_spec n n); [lia|].
  unfold struct_unpack.
  destruct (Z.ltb_spec px_num 0); [lia|].
  rewrite Htake, Z2Nat.id by lia. rewrite <- Hd. fold n.
  rewrite Z.eqb_refl. reflexivity.
Qed.

(** X7. A read without a seek position continues where the last read
    ended.  When the file holds [n + m] pixels from the byte position
    [p] on, reading [n] pixels at [p] and then [m] pixels at the current
    position returns, together, the values that one read of [n + m]
    pixels at [p] returns, and leaves the handle at the same position. *)
Theorem _read_pixels_continues (order : byteorder) (self : MIfile)
    (w : world) (h : rhandle) (n m p : Z) :
  ReadFileHandle self = Some h ->
  PixelDepth self = _data_depth (PixelFormat self) ->
  0 <= p -> 0 <= n -> 0 <= m ->
  p + (n + m) * PixelDepth self
    <= Z.of_nat (length (file_content w (rh_name h))) ->
  exists a b c s1 s2,
    _read_pixels order n (Some p) (self, w) = (Ok a, (s1, w))
    /\ _read_pixels order m None (s1, w) = (Ok b, (s2, w))
    /\ _read_pixels order (n + m) (Some p) (self, w) = (Ok c, (s2, w))
    /\ nd_data c = nd_data a ++ nd_data b.
Proof.
  intros Hh Hd Hp Hn Hm Hlen.
  assert (Hdp : 0 < PixelDepth self)
    by (rewrite Hd; destruct (PixelFormat self); reflexivity).
  set (d := PixelDepth self) in *.
  assert (Hnd : 0 <= n * d) by (apply Z.mul_nonneg_nonneg; lia).
  assert (Hmd : 0 <= m * d) by (apply Z.mul_nonneg_nonneg; lia).
  set (h1 := {| rh_name := rh_name h; rh_pos := p + n * d |}).
  set (s1 := set_handles self (Some h1) (WriteFileHandle self)
               (ReadingFileName self)).
  assert (E1 : _read_pixels order n (Some p) (self, w)
               = (Ok (asarray_tuple (unpacked_dtype (PixelFormat self))
                        (pixels_at order self w (rh_name h) p n)),
                  (s1, w))).
  { apply (_read_pixels_ok order self w h n p Hh Hd Hp Hn). fold d. lia. }
  assert (E2 : _read_pixels order m None (s1, w)
               = (Ok (asarray_tuple (unpacked_dtype (PixelFormat self))
                        (pixels_at order self w (rh_name h) (p + n * d) m)),
                  (set_handles s1
                     (Some {| rh_name := rh_name h;
                              rh_pos := p + n * d + m * d |})
                     (WriteFileHandle s1) (ReadingFileName s1), w))).
  { apply (_read_pixels_from order s1 w h1 m None eq_refl Hd);
      unfold s1, h1;
      cbn [read_position rh_pos rh_name PixelDepth set_handles]; fold d; lia. }
  assert (E3 : _read_pixels order (n + m) (Some p) (self, w)
               = (Ok (asarray_tuple (unpacked_dtype (PixelFormat self))
                        (pixels_at order self w (rh_name h) p (n + m))),
                  (set_handles self
                     (Some {| rh_name := rh_name h;
                              rh_pos := p + (n + m) * d |})
                     (WriteFileHandle self) (ReadingFileName self), w))).
  { apply (_read_pixels_ok order self w h (n + m) p Hh Hd Hp); lia. }
  eexists _, _, _, s1, _. split; [exact E1|]. split; [exact E2|]. split.
  - rewrite E3. subst s1. unfold set_handles. cbn. do 4 f_equal. f_equal.
    lia.
  - cbn [nd_data asarray_tuple]. apply pixels_at_app; lia.
Qed.

Lemma _read_pixels_continues_witness :
  exists a b c s1 s2,
    _read_pixels little_endian 2 (Some 1) (open6, world6)
    = (Ok a, (s1, world6))
    /\ _read_pixels little_endian 3 None (s1, world6) = (Ok b, (s2, world6))
    /\ _read_pixels little_endian (2 + 3) (Some 1) (open6, world6)
       = (Ok c, (s2, world6))
    /\ nd_data c = nd_data a ++ nd_data b.
Proof.
  apply (_read_pixels_continues little_endian open6 world6
           {| rh_name := "a"; rh_pos := 0 |} 2 3 1);
    [reflexivity | reflexivity | lia | lia | lia | vm_compute; discriminate].
Defined.

(** ** Unpacking and packing again *)










(** ** Reading one frame *)

(** A read on a store whose read handle is open on [name]. *)
Lemma read_pixels_reading (order : byteorder) (s self : MIfile) (w : world)
    (name : string) (n p : Z) :
  reading s self name ->
  PixelDepth self = _data_depth (PixelFormat self) ->
  0 <= p -> 0 <= n ->
  p + n * PixelDepth self <= Z.of_nat (length (file_content w name)) ->
  exists s',
    _read_pixels order n (Some p) (s, w)
    = (Ok (asarray_tuple (unpacked_dtype (PixelFormat self))
             (pixels_at order self w name p n)), (s', w))
    /\ reading s' self name.
Proof.
  intros [pos ->] Hd Hp Hn Hlen.
  set (s := set_handles self _ _ _).
  eexists. split.
  - apply (_read_pixels_ok order s w {| rh_name := name; rh_pos := pos |}
             n p eq_refl Hd Hp Hn Hlen).
  - eexists. reflexivity.
Qed.

Lemma reading_offset (s self : MIfile) (name : string) (img row col : Z) :
  reading s self name ->
  _get_offset s img row col = _get_offset self img row col.
Proof. intros [pos ->]. reflexivity. Qed.

Lemma in_world_getitem (s : MIfile) (w : world) (r : loc) (l : list Z)
    (i v : Z) :
  heap w !! r = Some l -> py_index l i = Ok v ->
  in_world (list_getitem r i) (s, w) = (Ok v, (s, w)).
Proof.
  intros Hr Hi. unfold in_world. cbn [fst snd].
  now rewrite (list_getitem_eq w r l i v Hr Hi).
Qed.

Lemma lookup_concat_fixed {A} (wd i j : nat) (chunks : list (list A))
    (ch : list A) :
  Forall (fun c => length c = wd) chunks ->
  chunks !! i = Some ch -> (j < wd)%nat ->
  concat chunks !! (i * wd + j)%nat = ch !! j.
Proof.
  revert i. induction chunks as [|c chunks IH]; intros i Hall Hi Hj;
    [discriminate|].
  apply Forall_cons in Hall as [Hc Hall].
  destruct i as [|i]; cbn [concat].
  - injection Hi as ->. now rewrite lookup_app_l by lia.
  - rewrite lookup_app_r by lia.
    replace (S i * wd + j - length c)%nat with (i * wd + j)%nat by lia.
    now apply IH.
Qed.

(** The entry of a region at a row and a column is the stored pixel of
    the frame at the row and the column counted from the corner. *)
Lemma crop_pixels_lookup (order : byteorder) (self : MIfile) (w : world)
    (name : string) (img x y wd ht i j : Z) :
  0 < PixelDepth self ->
  0 <= i < ht -> 0 <= j < wd ->
  0 <= _get_offset self img (y + i) x ->
  crop_pixels order self w name img x y wd ht !! Z.to_nat (i * wd + j)
  = Some (stored_pixel order self w name img (y + i) (x + j)).
Proof.
  intros Hd Hi Hj Hoff. unfold crop_pixels.
  replace (Z.to_nat (i * wd + j))
    with (Z.to_nat i * Z.to_nat wd + Z.to_nat j)%nat by nia.
  rewrite (lookup_concat_fixed (Z.to_nat wd) (Z.to_nat i) (Z.to_nat j) _
             (pixels_at order self w name (_get_offset self img (y + i) x)
                wd)).
  - now apply pixels_at_offset.
  - apply Forall_map, Forall_forall. intros k _. apply length_pixels_at.
  - rewrite list_lookup_fmap, lookup_seq_lt by lia. cbn.
    now rewrite Z2Nat.id by lia.
  - lia.
Qed.

Lemma length_concat_same {A} (wd : nat) (chunks : list (list A)) :
  Forall (fun c => length c = wd) chunks ->
  length (concat chunks) = (length chunks * wd)%nat.
Proof.
  induction 1 as [|c chunks Hc _ IH]; [reflexivity|].
  cbn [concat length]. rewrite length_app, IH, Hc. lia.
Qed.

Lemma length_crop_pixels (order : byteorder) (self : MIfile) (w : world)
    (name : string) (img x y wd ht : Z) :
  length (crop_pixels order self w name img x y wd ht)
  = (Z.to_nat ht * Z.to_nat wd)%nat.
Proof.
  unfold crop_pixels.
  rewrite (length_concat_same (Z.to_nat wd)).
  - now rewrite length_map, length_seq.
  - apply Forall_map, Forall_forall. intros k _. apply length_pixels_at.
Qed.




(** A run of whole rows, read at once, is the rows one after the
    other. *)
Lemma pixels_at_rows (order : byteorder) (self : MIfile) (w : world)
    (name : string) (wd : Z) (k : nat) :
  0 <= wd -> 0 < PixelDepth self ->
  forall p, 0 <= p ->
    pixels_at order self w name p (wd * Z.of_nat k)
    = concat (map (fun i => pixels_at order self w name
                              (p + Z.of_nat i * wd * PixelDepth self) wd)
                (seq 0 k)).
Proof.
  intros Hwd Hd. induction k as [|k IH]; intros p Hp.
  - rewrite Z.mul_0_r. reflexivity.
  - replace (wd * Z.of_nat (S k)) with (wd + wd * Z.of_nat k) by lia.
    rewrite pixels_at_app by nia.
    cbn [seq map concat]. f_equal; [f_equal; lia|].
    rewrite IH by nia. rewrite <- seq_shift, map_map. f_equal.
    apply map_ext. intros i. f_equal. lia.
Qed.

Lemma asarray_tuple_dtype (f : px_format) (vs : list scalar) :
  nd_dtype (asarray_tuple (unpacked_dtype f) vs)
  = read_dtype f (Z.of_nat (length vs)).
Proof. destruct vs; reflexivity. Qed.

Lemma read_dtype_pos (f : px_format) (n m : Z) :
  (0 < n <-> 0 < m) -> read_dtype f n = read_dtype f m.
Proof.
  intros H. unfold read_dtype.
  destruct (Z.ltb_spec 0 n), (Z.ltb_spec 0 m); try reflexivity; lia.
Qed.

(** A run of pixels within a row of a frame lies within the bytes of
    that frame. *)
Lemma row_within_frame (self : MIfile) (img row x n : Z) :
  consistent self -> 0 <= hdrSize self -> 0 <= img ->
  0 <= row < ImgHeight self -> 0 <= x -> 0 <= n -> x + n <= ImgWidth self ->
  0 <= _get_offset self img row x
  /\ _get_offset self img row x + n * PixelDepth self
     <= _get_offset self (img + 1) 0 0.
Proof.
  intros Hc Hh Hi Hr Hx Hn Hxn.
  pose proof (consistent_depth self Hc) as Hd.
  destruct Hc as [_ [Hpx _]].
  unfold _get_offset. rewrite Hpx.
  set (H := ImgHeight self) in *. set (W := ImgWidth self) in *.
  set (d := PixelDepth self) in *.
  assert (H0 : 0 <= img * (H * W)).
  { apply Z.mul_nonneg_nonneg; [|apply Z.mul_nonneg_nonneg]; lia. }
  assert (H1 : 0 <= row * W) by (apply Z.mul_nonneg_nonneg; lia).
  assert (H2 : (row + 1) * W <= H * W)
    by (apply Z.mul_le_mono_nonneg_r; lia).
  split.
  - assert (0 <= (img * (H * W) + row * W + x) * d)
      by (apply Z.mul_nonneg_nonneg; lia).
    lia.
  - assert ((img * (H * W) + row * W + x + n) * d
            <= ((img + 1) * (H * W)) * d)
      by (apply Z.mul_le_mono_nonneg_r; lia).
    lia.
Qed.


(** [GetImage] without region. *)
Lemma GetImage_frame_run (order : byteorder) (s self : MIfile) (w : world)
    (name : string) (img : Z) :
  reading s self name -> consistent self ->
  0 <= hdrSize self -> 0 <= img ->
  0 <= ImgHeight self -> 0 <= ImgWidth self ->
  _get_offset self (img + 1) 0 0
    <= Z.of_nat (length (file_content w name)) ->
  exists s',
    GetImage order img None (s, w)
    = (Ok {| nd_dtype := read_dtype (PixelFormat self)
                           (ImgHeight self * ImgWidth self);
             nd_shape := [ImgHeight self; ImgWidth self];
             nd_data := crop_pixels order self w name img 0 0
                          (ImgWidth self) (ImgHeight self) |},
       (s', w))
    /\ reading s' self name.
Proof.
  intros Hs Hc Hhdr Himg HH HW Hfile.
  pose proof (consistent_depth self Hc) as Hdp.
  assert (Hd : PixelDepth self = _data_depth (PixelFormat self))
    by (destruct Hc as [_ [_ [Hd _]]]; exact Hd).
  assert (Hpx : PxPerImg self = ImgHeight self * ImgWidth self)
    by (destruct Hc as [_ [Hpx _]]; exact Hpx).
  assert (Hs' := Hs). destruct Hs' as [pos Es].
  set (H := ImgHeight self) in *. set (W := ImgWidth self) in *.
  assert (HHW : 0 <= H * W) by (apply Z.mul_nonneg_nonneg; lia).
  assert (Hoff : 0 <= _get_offset self img 0 0
                 /\ _get_offset self img 0 0 + H * W * PixelDepth self
                    <= _get_offset self (img + 1) 0 0).
  { unfold _get_offset. rewrite Hpx. fold H W. split; [|lia].
    assert (0 <= (img * (H * W) + 0 * W + 0) * PixelDepth self)
      by (apply Z.mul_nonneg_nonneg; [|lia];
          assert (0 <= img * (H * W)) by (apply Z.mul_nonneg_nonneg; lia);
          lia).
    lia. }
  destruct (read_pixels_reading order s self w name (H * W)
              (_get_offset self img 0 0) Hs Hd (proj1 Hoff) HHW
              ltac:(lia)) as [s1 [E1 Hs1]].
  unfold GetImage. unfold bind at 1, self_ at 1. cbn [fst].
  unfold GetStack. unfold bind at 1. unfold bind at 1, self_ at 1.
  cbn [fst]. change (1 <? 0) with false. cbv iota.
  replace (1 * PxPerImg s) with (H * W)
    by (rewrite Es; cbn [PxPerImg set_handles]; lia).
  rewrite (reading_offset s self name img 0 0 Hs).
  unfold bind at 1. rewrite E1.
  replace (ImgHeight s) with H by (rewrite Es; reflexivity).
  replace (ImgWidth s) with W by (rewrite Es; reflexivity).
  unfold liftR at 1, reshape at 1.
  assert (Hsz : nd_size (asarray_tuple (unpacked_dtype (PixelFormat self))
                           (pixels_at order self w name
                              (_get_offset self img 0 0) (H * W)))
                = H * W).
  { unfold nd_size. cbn [nd_data asarray_tuple]. rewrite length_pixels_at.
    lia. }
  assert (Hsh3 : forallb (Z.leb 0) [1; H; W] = true).
  { cbn. apply andb_true_iff. split; [apply Z.leb_le; lia|].
    apply andb_true_iff. split; [apply Z.leb_le; lia | reflexivity]. }
  assert (Hsh2 : forallb (Z.leb 0) [H; W] = true).
  { cbn. apply andb_true_iff. split; [apply Z.leb_le; lia|].
    apply andb_true_iff. split; [apply Z.leb_le; lia | reflexivity]. }
  rewrite Hsh3, Hsz.
  replace (prod [1; H; W] =? H * W) with true
    by (symmetry; apply Z.eqb_eq; cbn; lia).
  cbn [andb]. unfold liftR, reshape. unfold nd_size at 1.
  cbn [nd_data nd_dtype]. rewrite asarray_tuple_dtype.
  cbn [nd_data asarray_tuple]. rewrite Hsh2, !length_pixels_at.
  replace (prod [H; W] =? Z.of_nat (Z.to_nat (H * W))) with true
    by (symmetry; apply Z.eqb_eq; cbn; lia).
  cbn [andb].
  exists s1. split; [|exact Hs1].
  rewrite (read_dtype_pos _ _ (H * W)) by lia.
  f_equal. f_equal. f_equal. unfold crop_pixels.
  replace (H * W) with (W * Z.of_nat (Z.to_nat H)) by lia.
  rewrite (pixels_at_rows order self w name W (Z.to_nat H) HW) by lia.
  f_equal. apply map_ext. intros i. f_equal.
  unfold _get_offset. fold W. lia.
Qed.

(** X9. [GetImage] without region on a store that is open for reading,
    when the file holds the frame [img]: the answer has the shape
    (height, width), and its entry at row [i] and column [j] is the
    pixel stored at the offset of ([img], [i], [j]). *)
Theorem GetImage_frame_pixels (order : byteorder) (self : MIfile) (w : world)
    (h : rhandle) (img : Z) :
  ReadFileHandle self = Some h -> consistent self ->
  0 <= hdrSize self -> 0 <= img ->
  0 <= ImgHeight self -> 0 <= ImgWidth self ->
  _get_offset self (img + 1) 0 0
    <= Z.of_nat (length (file_content w (rh_name h))) ->
  exists arr,
    answer (GetImage order img None) self w = Ok arr
    /\ nd_shape arr = [ImgHeight self; ImgWidth self]
    /\ nd_size arr = ImgHeight self * ImgWidth self
    /\ forall i j,
         0 <= i < ImgHeight self -> 0 <= j < ImgWidth self ->
         nd_data arr !! Z.to_nat (i * ImgWidth self + j)
         = Some (stored_pixel order self w (rh_name h) img i j).
Proof.
  intros Hh Hc Hhdr Himg HH HW Hfile.
  destruct (GetImage_frame_run order self self w (rh_name h) img
              (reading_self self h Hh) Hc Hhdr Himg HH HW Hfile)
    as [s' [E _]].
  eexists. unfold answer. rewrite E. split; [reflexivity|].
  split; [reflexivity|]. unfold nd_size. cbn [nd_data]. split.
  - rewrite length_crop_pixels. lia.
  - intros i j Hi Hj.
    pose proof (consistent_depth self Hc) as Hdp.
    destruct (row_within_frame self img i 0 0 Hc Hhdr Himg Hi
                ltac:(lia) ltac:(lia) ltac:(lia)) as [Hoff _].
    rewrite (crop_pixels_lookup order self w (rh_name h) img 0 0 _ _ i j)
      by (try lia; exact Hoff).
    reflexivity.
Qed.

Lemma GetImage_frame_pixels_witness :
  exists arr,
    answer (GetImage little_endian 1 None) open6 world6 = Ok arr
    /\ nd_shape arr = [1; 2]
    /\ nd_size arr = 1 * 2
    /\ forall i j,
         0 <= i < 1 -> 0 <= j < 2 ->
         nd_data arr !! Z.to_nat (i * 2 + j)
         = Some (stored_pixel little_endian open6 world6 "a" 1 i j).
Proof.
  apply (GetImage_frame_pixels little_endian open6 world6
           {| rh_name := "a"; rh_pos := 0 |} 1);
    [reflexivity | repeat split | simpl; lia | lia | simpl; lia
     | simpl; lia | vm_compute; discriminate].
Defined.



(** ** Reading a range of frames *)

(** What [OpenForReading] leaves when the file of the store exists: a
    store that differs from the given one in its read handle and reading
    name at most, open on that file. *)
Lemma OpenForReading_opens (self : MIfile) (w : world) (f : string)
    (content : list Z) :
  reading_file self = Some f -> files w !! f = Some content ->
  exists rh rn,
    OpenForReading None (self, w)
    = (Ok tt, (set_handles self (Some rh) (WriteFileHandle self) rn, w))
    /\ rh_name rh = f.
Proof.
  intros Hf Hc. unfold OpenForReading, reading_file in *.
  destruct (ReadFileHandle self) as [h|] eqn:Eh.
  - injection Hf as <-. exists h, (ReadingFileName self).
    split; [|reflexivity].
    destruct self as [fn rh wh rn md mb hs sh inb ih iw pp pf pd pt fps ps].
    cbn in *. now subst rh.
  - simpl. rewrite Hf, Hc. eexists _, _. split; reflexivity.
Qed.

Lemma Read_opens (order : byteorder) (self self1 : MIfile) (w : world)
    (zRange cropROI : option loc) (closeAfter : bool) :
  OpenForReading None (self, w) = (Ok tt, (self1, w)) ->
  ReadFileHandle self1 <> None ->
  Read order zRange cropROI closeAfter (self, w)
  = Read order zRange cropROI closeAfter (self1, w).
Proof.
  intros Ho Hne.
  assert (E : OpenForReading None (self1, w) = (Ok tt, (self1, w))).
  { unfold OpenForReading. destruct (ReadFileHandle self1); [reflexivity|].
    contradiction. }
  unfold Read. unfold bind at 1. rewrite Ho.
  symmetry. unfold bind at 1. rewrite E. reflexivity.
Qed.

(** The answer of [Read] is that of its reading part: closing does not
    fail. *)
Lemma Read_tail {A} (m : Meth A) (closeAfter : bool) (s : MIfile)
    (w : world) (a : A) :
  answer m s w = Ok a ->
  answer (res <- m ;;
          (if closeAfter then Close true true else ret tt) ;;; ret res) s w
  = Ok a.
Proof.
  unfold answer, bind. destruct (m (s, w)) as [[r|e] [s' w']]; cbn [fst].
  - intros [= ->]. destruct closeAfter; [rewrite Close_both|]; reflexivity.
  - discriminate.
Qed.

Lemma MIfile_Validate_zRange_run (s : MIfile) (w : world)
    (zRange : option loc) (nl : list Z) :
  normalised_range w zRange (ImgNumber s) = Some nl ->
  exists z w1,
    MIfile_Validate_zRange zRange (s, w) = (Ok (Some z), (s, w1))
    /\ heap w1 !! z = Some nl
    /\ files w1 = files w
    /\ (forall r l, zRange <> Some r -> heap w !! r = Some l ->
          heap w1 !! r = Some l).
Proof.
  unfold normalised_range, MIfile_Validate_zRange, bind, self_, in_world.
  cbn [fst snd]. destruct zRange as [r|].
  - destruct (heap w !! r) as [[|a [|b rest]]|] eqn:Hr; try discriminate.
    intros [= <-].
    rewrite (Validate_zRange_run w r a b (ImgNumber s) rest true Hr).
    eexists _, _. split; [reflexivity|]. split.
    + eapply heap_set_lookup; eauto.
    + split; [reflexivity|]. intros r' l Hne Hl. cbn [heap set_heap].
      rewrite list_lookup_insert_ne by congruence. exact Hl.
  - intros [= <-]. unfold Validate_zRange, bind, alloc, ret.
    eexists _, _. split; [reflexivity|]. split.
    + cbn. apply list_lookup_middle. reflexivity.
    + split; [reflexivity|]. intros r l _ Hl. cbn [heap set_heap].
      rewrite lookup_app_l; [exact Hl|]. eapply lookup_lt_Some; eauto.
Qed.

Lemma GetStack_negative (order : byteorder) (start_idx imgs_num : Z)
    (s : MIfile) (w : world) :
  imgs_num < 0 -> 0 <= ImgNumber s - start_idx ->
  GetStack order start_idx imgs_num (s, w)
  = GetStack order start_idx (ImgNumber s - start_idx) (s, w).
Proof.
  intros Hneg Hpos. unfold GetStack, bind, self_. cbn [fst snd].
  destruct (Z.ltb_spec imgs_num 0); [|lia].
  destruct (Z.ltb_spec (ImgNumber s - start_idx) 0); [lia|]. reflexivity.
Qed.

Lemma pixels_at_same_files (order : byteorder) (s : MIfile) (w w1 : world)
    (name : string) (p n : Z) :
  files w1 = files w ->
  pixels_at order s w1 name p n = pixels_at order s w name p n.
Proof. intros Hf. unfold pixels_at, file_content. now rewrite Hf. Qed.

(** [Read] with step 1 and no region, on a store that is open. *)
Lemma Read_contiguous_open (order : byteorder) (s : MIfile) (w : world)
    (h : rhandle) (zRange : option loc) (closeAfter : bool) (a b : Z) :
  ReadFileHandle s = Some h -> consistent s ->
  0 <= hdrSize s -> 0 <= ImgHeight s -> 0 <= ImgWidth s ->
  normalised_range w zRange (ImgNumber s) = Some [a; b; 1] ->
  0 <= a ->
  let count := if b - a <? 0 then ImgNumber s - a else b - a in
  0 <= count ->
  _get_offset s (a + count) 0 0
    <= Z.of_nat (length (file_content w (rh_name h))) ->
  answer (Read order zRange None closeAfter) s w
  = Ok {| nd_dtype := read_dtype (PixelFormat s) (count * PxPerImg s);
          nd_shape := [count; ImgHeight s; ImgWidth s];
          nd_data := pixels_at order s w (rh_name h) (_get_offset s a 0 0)
                       (count * PxPerImg s) |}.
Proof.
  intros Hh Hc Hhdr HH HW Hn Ha count Hcount Hfile.
  destruct (MIfile_Validate_zRange_run s w zRange _ Hn)
    as [z [w1 [Ev [Hz [Hfiles _]]]]].
  assert (Eo : OpenForReading None (s, w) = (Ok tt, (s, w))).
  { unfold OpenForReading. now rewrite Hh. }
  unfold answer, Read. unfold bind at 1. rewrite Eo.
  unfold bind at 1. rewrite Ev. cbv iota beta.
  unfold bind at 1.
  rewrite (in_world_getitem s w1 z [a; b; 1] 2 1 Hz) by idx.
  change (1 =? 1) with true. rewrite bool_decide_eq_true_2 by reflexivity.
  cbn [andb].
  apply (Read_tail _ closeAfter s w1).
  unfold answer. unfold bind at 1.
  rewrite (in_world_getitem s w1 z [a; b; 1] 0 a Hz) by idx.
  unfold bind at 1.
  rewrite (in_world_getitem s w1 z [a; b; 1] 1 b Hz) by idx.
  assert (Eg : GetStack order a (b - a) (s, w1)
               = GetStack order a count (s, w1)).
  { subst count. destruct (Z.ltb_spec (b - a) 0); [|reflexivity].
    apply GetStack_negative; lia. }
  rewrite Eg.
  change (fst (GetStack order a count (s, w1)))
    with (answer (GetStack order a count) s w1).
  assert (Hpx : PxPerImg s = ImgHeight s * ImgWidth s)
    by (destruct Hc as [_ [Hpx _]]; exact Hpx).
  assert (Hfc : file_content w1 (rh_name h) = file_content w (rh_name h)).
  { unfold file_content. now rewrite Hfiles. }
  rewrite (GetStack_ok order s w1 h a count Hh Hc Hhdr HH HW Ha Hcount).
  - rewrite asarray_tuple_dtype, length_pixels_at.
    rewrite (read_dtype_pos _ _ (count * PxPerImg s)) by nia.
    now rewrite (pixels_at_same_files order s w w1) by exact Hfiles.
  - rewrite Hfc. unfold _get_offset in *. lia.
Qed.

(** X11. [Read] with a frame range of step 1 (or without step, or
    without range) and no region reads the frames in one piece, from the
    start index on: up to the end index when that is not before the
    start, and otherwise up to the last declared frame, since the
    negative count that the code passes on means "to the end". *)
Theorem Read_contiguous_range (order : byteorder) (self : MIfile)
    (w : world) (f : string) (content : list Z) (zRange : option loc)
    (closeAfter : bool) (a b : Z) :
  reading_file self = Some f -> files w !! f = Some content ->
  consistent self ->
  0 <= hdrSize self -> 0 <= ImgHeight self -> 0 <= ImgWidth self ->
  normalised_range w zRange (ImgNumber self) = Some [a; b; 1] ->
  0 <= a ->
  let count := if b - a <? 0 then ImgNumber self - a else b - a in
  0 <= count ->
  _get_offset self (a + count) 0 0 <= Z.of_nat (length content) ->
  exists arr,
    answer (Read order zRange None closeAfter) self w = Ok arr
    /\ nd_shape arr = [count; ImgHeight self; ImgWidth self]
    /\ nd_data arr
       = pixels_at order self w f (_get_offset self a 0 0)
           (count * PxPerImg self).
Proof.
  intros Hf Hfc Hc Hhdr HH HW Hn Ha count Hcount Hfile.
  destruct (OpenForReading_opens self w f content Hf Hfc)
    as [rh [rn [Ho Hname]]].
  set (self1 := set_handles self (Some rh) (WriteFileHandle self) rn) in *.
  assert (Hcontent : file_content w (rh_name rh) = content).
  { unfold file_content. now rewrite Hname, Hfc. }
  unfold answer.
  rewrite (Read_opens order self self1 w zRange None closeAfter Ho)
    by discriminate.
  eexists. split.
  - apply (Read_contiguous_open order self1 w rh zRange closeAfter a b
             eq_refl Hc Hhdr HH HW Hn Ha Hcount).
    rewrite Hcontent. exact Hfile.
  - split; [reflexivity|]. cbn [nd_data]. now rewrite Hname.
Qed.

Lemma Read_contiguous_range_witness :
  exists arr,
    answer (Read little_endian (Some 0%nat) None false) store6
      (world_of [("a"%string, [1; 2; 3; 4; 5; 6])] [[1; 0]])
    = Ok arr
    /\ nd_shape arr = [2; 1; 2]
    /\ nd_data arr = [Num 3; Num 4; Num 5; Num 6].
Proof.
  apply (Read_contiguous_range little_endian store6
           (world_of [("a"%string, [1; 2; 3; 4; 5; 6])] [[1; 0]])
           "a" [1; 2; 3; 4; 5; 6] (Some 0%nat) false 1 0);
    [reflexivity | reflexivity | repeat split | vm_compute; discriminate
     | vm_compute; discriminate | vm_compute; discriminate | reflexivity
     | lia | vm_compute; discriminate | vm_compute; discriminate].
Defined.








(** ** Handles *)

(** X13. A store that is open for reading stays on its file.  Whatever
    names are given, a second [OpenForReading] changes nothing: neither
    the file of the handle nor its position.  When no handle is open and
    the file to open does not exist, the call raises FileNotFoundError
    and leaves the store as it was. *)
Theorem OpenForReading_keeps_the_open_handle (fName fName' : option string)
    (self : MIfile) (w : world) :
  (OpenForReading fName ;;; OpenForReading fName') (self, w)
  = OpenForReading fName (self, w)
  /\ (forall h, ReadFileHandle self = Some h ->
        OpenForReading fName (self, w) = (Ok tt, (self, w)))
  /\ (forall f, ReadFileHandle self = None ->
        or_else fName (FileName self) = Some f -> files w !! f = None ->
        OpenForReading fName (self, w)
        = (Raise (FileNotFoundError f), (self, w))).
Proof.
  split; [|split].
  - unfold bind.
    destruct (OpenForReading_inv fName self w)
      as [[e He]|[[Ho Hne]|[f [Ho _]]]].
    + now rewrite He.
    + rewrite Ho. unfold OpenForReading.
      destruct (ReadFileHandle self); [reflexivity | contradiction].
    + rewrite Ho. reflexivity.
  - intros h Hh. unfold OpenForReading. now rewrite Hh.
  - intros f Hh Hf Hnone. unfold OpenForReading. now rewrite Hh, Hf, Hnone.
Qed.

Lemma OpenForReading_keeps_the_open_handle_witness :
  OpenForReading (Some "b"%string) (open6, world_abc)
  = (Ok tt, (open6, world_abc))
  /\ OpenForReading (Some "z"%string) (store6, world_abc)
     = (Raise (FileNotFoundError "z"), (store6, world_abc)).
Proof.
  split.
  - apply (proj1 (proj2 (OpenForReading_keeps_the_open_handle
                           (Some "b"%string) None open6 world_abc))
             {| rh_name := "a"; rh_pos := 0 |}).
    reflexivity.
  - apply (proj2 (proj2 (OpenForReading_keeps_the_open_handle
                           (Some "z"%string) None store6 world_abc))
             "z"%string); reflexivity.
Defined.

(** X14. [Close()] with its default flags releases both handles,
    whatever was open, and touches no file; with both flags unset it does
    nothing.  A [Close] with any flags followed by [Close()] is
    [Close()]. *)
Theorem Close_default_releases_both (self : MIfile) (w : world)
    (read write : bool) :
  Close true true (self, w)
  = (Ok tt, (set_handles self None None (ReadingFileName self), w))
  /\ Close false false (self, w) = (Ok tt, (self, w))
  /\ (Close read write ;;; Close true true) (self, w)
     = Close true true (self, w).
Proof.
  split; [apply Close_both|]. split.
  - unfold Close, bind, self_, ret. reflexivity.
  - rewrite Close_both. unfold bind.
    assert (E : exists s', Close read write (self, w) = (Ok tt, (s', w))
                           /\ ReadingFileName s' = ReadingFileName self
                           /\ set_handles s' None None (ReadingFileName self)
                              = set_handles self None None
                                  (ReadingFileName self)).
    { unfold Close, bind, self_, ret, set_self. cbn [fst snd].
      destruct read, write; cbn [andb];
        destruct (WriteFileHandle self) eqn:Ew;
        destruct (ReadFileHandle self) eqn:Er;
        cbn [bool_decide decide_rel andb]; cbn;
        rewrite ?Ew, ?Er; cbn;
        eexists; (split; [reflexivity|]); split; reflexivity. }
    destruct E as [s' [E [Hn Hs]]]. rewrite E, Close_both, Hn.
    now rewrite Hs.
Qed.

(** ** Writing *)

Lemma open_wb_fresh (s : MIfile) (w : world) (f : string)
    (fName : option string) :
  WriteFileHandle s = None -> or_else fName (FileName s) = Some f ->
  open_wb fName (s, w)
  = (Ok tt,
     (set_handles s (ReadFileHandle s) (Some {| wh_name := f; wh_pos := 0 |})
        (ReadingFileName s),
      set_files w (<[f := []]> (files w)))).
Proof. intros Hw Hf. unfold open_wb. now rewrite Hw, Hf. Qed.

Lemma open_wb_open (s : MIfile) (w : world) (h : whandle)
    (fName : option string) :
  WriteFileHandle s = Some h -> open_wb fName (s, w) = (Ok tt, (s, w)).
Proof. intros Hw. unfold open_wb. now rewrite Hw. Qed.

Lemma appending_fresh (s : MIfile) (w : world) (f : string) :
  appending
    (set_handles s (ReadFileHandle s) (Some {| wh_name := f; wh_pos := 0 |})
       (ReadingFileName s))
    (set_files w (<[f := []]> (files w))) f [].
Proof. split; [reflexivity|]. cbn. apply lookup_insert_eq. Qed.

Lemma length_encoded (order : byteorder) (f : px_format) (vs : list scalar) :
  Forall (fun v => element_of f v = true) vs ->
  Z.of_nat (length (concat (map (encode order f) vs)))
  = Z.of_nat (length vs) * _data_depth f.
Proof.
  intros Hel.
  rewrite (length_concat_fixed (Z.to_nat (_data_depth f)))
    by now apply encoded_widths.
  rewrite length_map.
  assert (0 < _data_depth f) by (destruct f; reflexivity). nia.
Qed.

(** The loop of [WriteData] over the chunks: it appends the bytes of the
    array, one [write] for each run of [k] frames. *)
Lemma chunk_loop_writes (order : byteorder) (fmt : px_format)
    (s1 : MIfile) (w1 : world) (X : ndarray) (f : string) (n k : Z)
    (rest : list Z) (c0 : list Z) :
  appending s1 w1 f c0 ->
  nd_shape X = n :: rest ->
  0 < n -> 0 < prod rest -> nd_size X = n * prod rest -> 0 < k ->
  Forall (fun v => element_of fmt v = true) (nd_data X) ->
  exists s2 w2 chunks,
    for_each (py_range 0 n k)
      (fun i =>
         chunk <- liftR (slice0 X i (Z.min (i + k) n)) ;;
         bs <- liftR (_imgs_to_bytes order chunk fmt true) ;;
         handle_write bs) (s1, w1)
    = (Ok tt, (s2, w2))
    /\ appending s2 w2 f (c0 ++ array_bytes order fmt X)
    /\ moved_write_handle s1 s2
    /\ write_calls w2 = write_calls w1 ++ map (fun bs => (f, bs)) chunks
    /\ concat chunks = array_bytes order fmt X
    /\ Z.of_nat (length chunks) = (n - 1) / k + 1
    /\ Forall (fun bs => Z.of_nat (length bs)
                         <= k * prod rest * _data_depth fmt) chunks.
Proof.
  intros Happ Hshape Hn Hm Hsize Hk Hel.
  set (m := prod rest) in *.
  set (c := Z.to_nat (k * m)).
  set (cnt := Z.to_nat ((n - 1) / k + 1)).
  set (B := fun i : Z =>
              concat (map (encode order fmt)
                        (take c (drop (Z.to_nat (i * m)) (nd_data X))))).
  assert (Hq : 0 <= (n - 1) / k) by (apply Z.div_pos; lia).
  assert (Hcnt : forall i0 : nat, (i0 < cnt)%nat -> Z.of_nat i0 * k < n).
  { intros i0 Hi0. subst cnt.
    assert (Z.of_nat i0 <= (n - 1) / k) by lia.
    assert (k * ((n - 1) / k) <= n - 1) by (apply Z.mul_div_le; lia).
    nia. }
  rewrite py_range_from_0 by lia. fold cnt.
  set (idxs := map (fun i => Z.of_nat i * k) (seq 0 cnt)).
  destruct (write_loop_appends idxs
              (fun i =>
                 chunk <- liftR (slice0 X i (Z.min (i + k) n)) ;;
                 bs <- liftR (_imgs_to_bytes order chunk fmt true) ;;
                 handle_write bs)
              B f) with (s := s1) (w := w1) (c := c0)
    as (s2 & w2 & E & A & M & L).
  - intros i s w Hi. apply list_elem_of_fmap in Hi as (i0 & -> & Hi0).
    apply elem_of_seq in Hi0.
    unfold bind at 1, liftR at 1.
    rewrite (slice0_chunk X n k rest i0) by (auto; apply Hcnt; lia).
    unfold bind at 1, liftR at 1.
    rewrite _imgs_to_bytes_elements.
    + cbn [nd_data]. unfold B. fold m. fold c.
      replace (Z.to_nat (Z.of_nat i0 * k * m)) with (i0 * c)%nat
        by (subst c; nia).
      reflexivity.
    + cbn [nd_data]. apply Forall_take, Forall_drop. exact Hel.
  - exact Happ.
  - assert (Hcat : concat (map B idxs) = array_bytes order fmt X).
    { unfold array_bytes, idxs. rewrite map_map.
      rewrite <- (chunks_concat c cnt (nd_data X)) at 1.
      + rewrite concat_map_concat, map_map. f_equal.
        apply map_ext. intros i0. unfold B.
        replace (Z.to_nat (Z.of_nat i0 * k * m)) with (i0 * c)%nat
          by (subst c; nia).
        reflexivity.
      + assert (Hlen : Z.of_nat (length (nd_data X)) = n * m) by exact Hsize.
        assert (n <= Z.of_nat cnt * k).
        { subst cnt. rewrite Z2Nat.id by lia.
          pose proof (Z.div_mod (n - 1) k ltac:(lia)).
          pose proof (Z.mod_pos_bound (n - 1) k ltac:(lia)). nia. }
        subst c. nia. }
    exists s2, w2, (map B idxs). split; [exact E|].
    split; [now rewrite <- Hcat|]. split; [exact M|].
    split; [now rewrite L, map_map|]. split; [exact Hcat|]. split.
    + unfold idxs. rewrite !length_map, length_seq. subst cnt. lia.
    + apply Forall_map, Forall_forall. intros i _. unfold B.
      rewrite length_encoded by (apply Forall_take, Forall_drop; exact Hel).
      rewrite length_take.
      assert (0 < _data_depth fmt) by (destruct fmt; reflexivity).
      assert (Z.of_nat (c `min` length (drop (Z.to_nat (i * m)) (nd_data X)))
              <= k * m) by (subst c; lia).
      nia.
Qed.

Lemma same_but_refl (f : string) (w : world) : same_but f w w.
Proof. repeat split. Qed.

Lemma same_but_trans (f : string) (w1 w2 w3 : world) :
  same_but f w1 w2 -> same_but f w2 w3 -> same_but f w1 w3.
Proof.
  intros (H1 & E1 & F1) (H2 & E2 & F2). split; [congruence|].
  split; [congruence|]. intros f' Hne. rewrite F2, F1 by exact Hne.
  reflexivity.
Qed.

Lemma handle_write_same_but (s s' : MIfile) (w w' : world) (f : string)
    (c bs : list Z) (r : result unit) :
  appending s w f c -> handle_write bs (s, w) = (r, (s', w')) ->
  same_but f w w'.
Proof.
  intros [Hh _]. unfold handle_write. rewrite Hh. unfold file_write.
  cbn [wh_name]. intros [= _ _ <-]. split; [reflexivity|].
  split; [reflexivity|]. intros f' Hne. cbn.
  now rewrite lookup_insert_ne by congruence.
Qed.

Lemma write_loop_same_but (xs : list Z) (body : Z -> Meth unit)
    (B : Z -> list Z) (f : string) :
  (forall i s w, i ∈ xs -> body i (s, w) = handle_write (B i) (s, w)) ->
  forall s w c s' w',
    appending s w f c ->
    for_each xs body (s, w) = (Ok tt, (s', w')) ->
    same_but f w w'.
Proof.
  induction xs as [|x xs IH]; intros Hbody s w c s' w' Happ.
  - cbn. intros [= <- <-]. apply same_but_refl.
  - cbn [for_each]. unfold bind. rewrite Hbody by (left).
    destruct (handle_write_appends s w f c (B x) Happ)
      as (s1 & w1 & E1 & A1 & _ & _).
    rewrite E1. intros E2.
    eapply same_but_trans.
    + eapply handle_write_same_but; eauto.
    + eapply (IH (fun i s w Hi => Hbody i s w (list_elem_of_further _ _ _ Hi)));
        eauto.
Qed.

(** [WriteData] on a store whose write handle is at the end of its
    file. *)
Lemma WriteData_appending (order : byteorder) (g : ndarray -> Z)
    (s : MIfile) (w : world) (X : ndarray) (f : string) (c0 : list Z)
    (n : Z) (rest : list Z) (closeAfter : bool) :
  appending s w f c0 ->
  nd_shape X = n :: rest ->
  0 <= n -> 0 <= prod rest -> nd_size X = n * prod rest ->
  Forall (fun v => element_of (PixelFormat s) v = true) (nd_data X) ->
  within_budget g s X ->
  exists s2 w2,
    WriteData order g X closeAfter (s, w)
    = (Ok tt,
       (if closeAfter then set_handles s None None (ReadingFileName s)
        else s2, w2))
    /\ appending s2 w2 f (c0 ++ array_bytes order (PixelFormat s) X)
    /\ moved_write_handle s s2
    /\ same_but f w w2.
Proof.
  intros Happ Hshape Hn Hm Hsize Hel Hfit.
  assert (Hh := proj1 Happ).
  unfold WriteData. unfold bind at 1.
  unfold OpenForWriting, bind at 1. rewrite (open_wb_open s w _ None Hh).
  unfold ret at 1.
  unfold bind at 1, self_ at 1. cbn [fst snd].
  assert (Hend : forall s2 w2,
            appending s2 w2 f (c0 ++ array_bytes order (PixelFormat s) X) ->
            moved_write_handle s s2 -> same_but f w w2 ->
            exists s3 w3,
              (if closeAfter then Close true true else ret tt) (s2, w2)
              = (Ok tt,
                 (if closeAfter
                  then set_handles s None None (ReadingFileName s)
                  else s3, w3))
              /\ appending s3 w3 f
                   (c0 ++ array_bytes order (PixelFormat s) X)
              /\ moved_write_handle s s3 /\ same_but f w w3).
  { intros s2 w2 A2 M2 S2. exists s2, w2. split; [|auto].
    destruct closeAfter; [|reflexivity].
    rewrite Close_both. destruct M2 as [wh ->]. reflexivity. }
  destruct (Z.gtb_spec (g X) (MaxBufferSize s)) as [Hbig|Hsmall].
  - destruct Hfit as [Hfit|(first & Hfirst & Hfits & Hne)]; [lia|].
    unfold bind at 1. unfold bind at 1, liftR at 1. rewrite Hfirst.
    destruct (Z.gtb_spec (g first) (MaxBufferSize s)); [lia|].
    assert (Hflat : nd_size (flatten first) = nd_size first) by reflexivity.
    rewrite Hflat.
    destruct (Z.eqb_spec (nd_size first) 0); [contradiction|].
    unfold getitem0 in Hfirst. rewrite Hshape in Hfirst.
    destruct (Z.ltb_spec 0 n) as [Hn0|]; [|discriminate].
    injection Hfirst as <-. unfold nd_size in Hne. cbn [nd_data] in Hne.
    assert (Hm0 : 0 < prod rest).
    { destruct (Z_lt_le_dec 0 (prod rest)); [assumption|].
      exfalso. apply Hne. rewrite length_take.
      replace (Z.to_nat (prod rest)) with 0%nat by lia. reflexivity. }
    unfold bind at 1, liftR at 1, np_len. rewrite Hshape.
    set (k := Z.max 1 _).
    destruct (chunk_loop_writes order (PixelFormat s) s w X f n k rest c0
                Happ Hshape Hn0 Hm0 Hsize ltac:(subst k; lia) Hel)
      as (s2 & w2 & chunks & E & A2 & M & L & _).
    rewrite E. apply Hend; try assumption.
    rewrite py_range_from_0 in E by (subst k; lia).
    eapply (write_loop_same_but _ _
              (fun i => concat (map (encode order (PixelFormat s))
                                  (take (Z.to_nat (k * prod rest))
                                     (drop (Z.to_nat (i * prod rest))
                                        (nd_data X)))))); [|exact Happ|exact E].
    intros i s' w' Hi. apply list_elem_of_fmap in Hi as (i0 & -> & Hi0).
    apply elem_of_seq in Hi0.
    assert (Hlt : Z.of_nat i0 * k < n).
    { assert (Hq : 0 <= (n - 1) / k) by (apply Z.div_pos; subst k; lia).
      assert (Z.of_nat i0 <= (n - 1) / k) by lia.
      assert (k * ((n - 1) / k) <= n - 1)
        by (apply Z.mul_div_le; subst k; lia).
      nia. }
    unfold bind at 1, liftR at 1.
    rewrite (slice0_chunk X n k rest i0) by (auto; subst k; lia).
    unfold bind at 1, liftR at 1.
    rewrite _imgs_to_bytes_elements.
    + cbn [nd_data].
      replace (Z.to_nat (Z.of_nat i0 * k * prod rest))
        with (i0 * Z.to_nat (k * prod rest))%nat by nia.
      reflexivity.
    + cbn [nd_data]. apply Forall_take, Forall_drop. exact Hel.
  - unfold bind at 1. unfold bind at 1, liftR at 1.
    rewrite _imgs_to_bytes_elements by exact Hel.
    destruct (handle_write_appends s w f c0
                (concat (map (encode order (PixelFormat s)) (nd_data X)))
                Happ) as (s2 & w2 & E & A2 & M & _).
    rewrite E. apply Hend; try assumption.
    eapply handle_write_same_but; eauto.
Qed.

Lemma WriteData_opens (order : byteorder) (g : ndarray -> Z) (self : MIfile)
    (w : world) (X : ndarray) (closeAfter : bool) (f : string) :
  WriteFileHandle self = None -> FileName self = Some f ->
  WriteData order g X closeAfter (self, w)
  = WriteData order g X closeAfter
      (set_handles self (ReadFileHandle self)
         (Some {| wh_name := f; wh_pos := 0 |}) (ReadingFileName self),
       set_files w (<[f := []]> (files w))).
Proof.
  intros Hw Hf. unfold WriteData. unfold bind at 1.
  unfold OpenForWriting at 1, bind at 1.
  rewrite (open_wb_fresh self w f None Hw) by (cbn; exact Hf).
  unfold ret at 1. symmetry. unfold bind at 1.
  unfold OpenForWriting at 1, bind at 1.
  rewrite (open_wb_open _ _ {| wh_name := f; wh_pos := 0 |} None)
    by reflexivity.
  reflexivity.
Qed.

(** [WriteData] on a store that has no write handle yet. *)
Lemma WriteData_fresh (order : byteorder) (g : ndarray -> Z)
    (self : MIfile) (w : world) (X : ndarray) (f : string)
    (n : Z) (rest : list Z) (closeAfter : bool) :
  FileName self = Some f -> WriteFileHandle self = None ->
  nd_shape X = n :: rest ->
  0 <= n -> 0 <= prod rest -> nd_size X = n * prod rest ->
  Forall (fun v => element_of (PixelFormat self) v = true) (nd_data X) ->
  within_budget g self X ->
  exists s2 w2,
    WriteData order g X closeAfter (self, w)
    = (Ok tt,
       (if closeAfter then set_handles self None None (ReadingFileName self)
        else s2, w2))
    /\ appending s2 w2 f (array_bytes order (PixelFormat self) X)
    /\ moved_write_handle self s2
    /\ same_but f w w2.
Proof.
  intros Hf Hw Hshape Hn Hm Hsize Hel Hfit.
  rewrite (WriteData_opens order g self w X closeAfter f Hw Hf).
  set (s1 := set_handles self _ _ _). set (w1 := set_files w _).
  destruct (WriteData_appending order g s1 w1 X f [] n rest closeAfter
              (appending_fresh self w f) Hshape Hn Hm Hsize Hel Hfit)
    as (s2 & w2 & E & A & M & S).
  exists s2, w2. split; [exact E|]. split; [exact A|]. split.
  - destruct M as [wh ->]. eexists. reflexivity.
  - eapply same_but_trans; [|exact S].
    split; [reflexivity|]. split; [reflexivity|].
    intros f' Hne. subst w1. cbn.
    now rewrite lookup_insert_ne by congruence.
Qed.

(** X15. Successive writes concatenate.  On a store without write
    handle, [WriteData(X, closeAfter=False)] followed by [WriteData(Y)]
    leaves the file of the store holding the bytes of [X] followed by
    the bytes of [Y], whatever it held before, and no other file is
    touched: the first call creates or empties the file, the second
    finds the handle open and appends. *)
Theorem successive_writes_concatenate (order : byteorder)
    (g : ndarray -> Z) (self : MIfile) (w : world) (X Y : ndarray)
    (f : string) (n m : Z) (rest rest' : list Z) (closeAfter : bool) :
  FileName self = Some f -> WriteFileHandle self = None ->
  nd_shape X = n :: rest ->
  0 <= n -> 0 <= prod rest -> nd_size X = n * prod rest ->
  Forall (fun v => element_of (PixelFormat self) v = true) (nd_data X) ->
  within_budget g self X ->
  nd_shape Y = m :: rest' ->
  0 <= m -> 0 <= prod rest' -> nd_size Y = m * prod rest' ->
  Forall (fun v => element_of (PixelFormat self) v = true) (nd_data Y) ->
  within_budget g self Y ->
  exists s' w',
    (WriteData order g X false ;;; WriteData order g Y closeAfter) (self, w)
    = (Ok tt, (s', w'))
    /\ files w' !! f
       = Some (array_bytes order (PixelFormat self) X
               ++ array_bytes order (PixelFormat self) Y)
    /\ forall f', f' <> f -> files w' !! f' = files w !! f'.
Proof.
  intros Hf Hw HsX HnX HmX HzX HeX HfX HsY HnY HmY HzY HeY HfY.
  destruct (WriteData_fresh order g self w X f n rest false Hf Hw HsX HnX
              HmX HzX HeX HfX) as (s1 & w1 & E1 & A1 & M1 & S1).
  assert (Hattr : PixelFormat s1 = PixelFormat self
                  /\ MaxBufferSize s1 = MaxBufferSize self)
    by (destruct M1 as [wh ->]; split; reflexivity).
  destruct Hattr as [Hpf Hmb].
  destruct (WriteData_appending order g s1 w1 Y f _ m rest' closeAfter A1
              HsY HnY HmY HzY) as (s2 & w2 & E2 & A2 & M2 & S2).
  - now rewrite Hpf.
  - unfold within_budget in *. now rewrite Hmb.
  - eexists _, w2. unfold bind. rewrite E1, E2. split; [reflexivity|].
    split.
    + rewrite Hpf in A2. exact (proj2 A2).
    + intros f' Hne.
      destruct (same_but_trans f w w1 w2 S1 S2) as (_ & _ & Hfiles).
      now apply Hfiles.
Qed.

Lemma successive_writes_concatenate_witness :
  exists s' w',
    (WriteData little_endian buffer_bytes array_7 false ;;;
     WriteData little_endian buffer_bytes array_2x1x4 true)
      (store_hdr0, world_r9)
    = (Ok tt, (s', w'))
    /\ files w' !! "r"%string
       = Some (array_bytes little_endian FB array_7
               ++ array_bytes little_endian FB array_2x1x4)
    /\ forall f', f' <> "r"%string ->
                  files w' !! f' = files world_r9 !! f'.
Proof.
  apply (successive_writes_concatenate little_endian buffer_bytes store_hdr0
           world_r9 array_7 array_2x1x4 "r" 1 2 [1; 1] [1; 4] true);
    try reflexivity; try (vm_compute; discriminate).
  - repeat constructor.
  - left. vm_compute. discriminate.
  - repeat constructor.
  - left. vm_compute. discriminate.
Defined.

(** X16. How [WriteData] cuts an array that is over the budget.  When
    the array is over the budget and its first frame is not, the frames
    go out in runs of [max(1, MaxBufferSize // elements per frame)]
    frames, one [write] per run: the byte strings written are, in order,
    a partition of the bytes of the array, there are
    [ceil(frames / run)] of them, and none holds more than
    [max(MaxBufferSize, elements per frame)] values. *)
Theorem WriteData_chunks_by_frames (order : byteorder) (g : ndarray -> Z)
    (self : MIfile) (w : world) (X first : ndarray) (f : string) (n : Z)
    (rest : list Z) :
  FileName self = Some f -> WriteFileHandle self = None ->
  nd_shape X = n :: rest -> nd_size X = n * prod rest ->
  Forall (fun v => element_of (PixelFormat self) v = true) (nd_data X) ->
  g X > MaxBufferSize self ->
  getitem0 X = Ok first ->
  g first <= MaxBufferSize self -> nd_size first <> 0 ->
  let k := Z.max 1 (MaxBufferSize self / nd_size first) in
  exists s' w' chunks,
    WriteData order g X true (self, w) = (Ok tt, (s', w'))
    /\ write_calls w' = write_calls w ++ map (fun bs => (f, bs)) chunks
    /\ concat chunks = array_bytes order (PixelFormat self) X
    /\ Z.of_nat (length chunks) = (n - 1) / k + 1
    /\ Forall (fun bs =>
                 Z.of_nat (length bs)
                 <= Z.max (MaxBufferSize self) (nd_size first)
                    * _data_depth (PixelFormat self)) chunks.
Proof.
  intros Hf Hw Hshape Hsize Hel Hbig Hfirst Hfits Hne k.
  rewrite (WriteData_opens order g self w X true f Hw Hf).
  set (s1 := set_handles self _ _ _). set (w1 := set_files w _).
  pose proof (appending_fresh self w f) as A1. fold s1 w1 in A1.
  unfold WriteData. unfold bind at 1.
  unfold OpenForWriting, bind at 1.
  rewrite (open_wb_open s1 w1 _ None eq_refl). unfold ret at 1.
  unfold bind at 1, self_ at 1. cbn [fst snd].
  change (MaxBufferSize s1) with (MaxBufferSize self).
  change (PixelFormat s1) with (PixelFormat self).
  destruct (Z.gtb_spec (g X) (MaxBufferSize self)) as [_|]; [|lia].
  unfold bind at 1. unfold bind at 1, liftR at 1. rewrite Hfirst.
  destruct (Z.gtb_spec (g first) (MaxBufferSize self)); [lia|].
  assert (Hflat : nd_size (flatten first) = nd_size first) by reflexivity.
  rewrite Hflat.
  destruct (Z.eqb_spec (nd_size first) 0); [contradiction|].
  fold k.
  unfold getitem0 in Hfirst. rewrite Hshape in Hfirst.
  destruct (Z.ltb_spec 0 n) as [Hn0|]; [|discriminate].
  injection Hfirst as Efirst.
  assert (Hm : nd_size first = prod rest /\ 0 < prod rest).
  { subst first. unfold nd_size in *. cbn [nd_data] in *.
    rewrite length_take in *.
    destruct (Z_lt_le_dec 0 (prod rest)) as [Hpos|Hnp].
    - split; [|exact Hpos]. nia.
    - exfalso. apply Hne.
      replace (Z.to_nat (prod rest)) with 0%nat by lia. reflexivity. }
  destruct Hm as [Hm Hm0].
  unfold bind at 1, liftR at 1, np_len. rewrite Hshape.
  assert (Hk : 0 < k) by (subst k; lia).
  destruct (chunk_loop_writes order (PixelFormat self) s1 w1 X f n k rest []
              A1 Hshape Hn0 Hm0 Hsize Hk Hel)
    as (s2 & w2 & chunks & E & A2 & M & L & Hcat & Hcount & Hlen).
  rewrite E, Close_both.
  eexists _, w2, chunks. split; [reflexivity|].
  split; [exact L|]. split; [exact Hcat|]. split; [exact Hcount|].
  eapply Forall_impl; [exact Hlen|]. intros bs Hbs. cbn beta in *.
  assert (Hd : 0 < _data_depth (PixelFormat self))
    by (destruct (PixelFormat self); reflexivity).
  assert (Hkm : k * prod rest
                <= Z.max (MaxBufferSize self) (nd_size first)).
  { rewrite Hm. subst k. rewrite Hm.
    destruct (Z.max_spec 1 (MaxBufferSize self / prod rest))
      as [[_ ->]|[_ ->]].
    - pose proof (Z.mul_div_le (MaxBufferSize self) (prod rest) Hm0). lia.
    - lia. }
  assert (k * prod rest * _data_depth (PixelFormat self)
          <= Z.max (MaxBufferSize self) (nd_size first)
             * _data_depth (PixelFormat self))
    by (apply Z.mul_le_mono_nonneg_r; lia).
  lia.
Qed.

Lemma WriteData_chunks_by_frames_witness :
  exists s' w' chunks,
    WriteData little_endian buffer_bytes array_i16 true
      (store_i16_budget5, world_of [] [])
    = (Ok tt, (s', w'))
    /\ write_calls w' = [] ++ map (fun bs => ("h"%string, bs)) chunks
    /\ concat chunks = array_bytes little_endian Fh array_i16
    /\ Z.of_nat (length chunks) = (3 - 1) / 2 + 1
    /\ Forall (fun bs => Z.of_nat (length bs) <= 5 * 2) chunks.
Proof.
  apply (WriteData_chunks_by_frames little_endian buffer_bytes
           store_i16_budget5 (world_of [] []) array_i16
           {| nd_dtype := np_int16; nd_shape := [1; 2];
              nd_data := [Num 1; Num (-2)] |} "h" 3 [1; 2]);
    try reflexivity; try (vm_compute; discriminate).
  repeat constructor.
Defined.

(** X17. A refused write has already emptied the file.  On a store
    without write handle, when the array and its first frame are both
    over the budget, [WriteData] raises its IOError after it has opened
    the file for writing: the file of the store is left empty, whatever
    it held, nothing was written, and the write handle stays open. *)
Theorem WriteData_refusal_empties_the_file (order : byteorder)
    (g : ndarray -> Z) (self : MIfile) (w : world) (X first : ndarray)
    (f : string) (closeAfter : bool) :
  FileName self = Some f -> WriteFileHandle self = None ->
  g X > MaxBufferSize self ->
  getitem0 X = Ok first ->
  g first > MaxBufferSize self ->
  exists s' w',
    WriteData order g X closeAfter (self, w)
    = (Raise IOError_large_array, (s', w'))
    /\ files w' !! f = Some []
    /\ WriteFileHandle s' = Some {| wh_name := f; wh_pos := 0 |}
    /\ write_calls w' = write_calls w.
Proof.
  intros Hf Hw Hbig Hfirst Hbig1.
  rewrite (WriteData_opens order g self w X closeAfter f Hw Hf).
  set (s1 := set_handles self _ _ _). set (w1 := set_files w _).
  unfold WriteData. unfold bind at 1.
  unfold OpenForWriting, bind at 1.
  rewrite (open_wb_open s1 w1 _ None eq_refl). unfold ret at 1.
  unfold bind at 1, self_ at 1. cbn [fst snd].
  change (MaxBufferSize s1) with (MaxBufferSize self).
  destruct (Z.gtb_spec (g X) (MaxBufferSize self)) as [_|]; [|lia].
  unfold bind at 1. unfold bind at 1, liftR at 1. rewrite Hfirst.
  destruct (Z.gtb_spec (g first) (MaxBufferSize self)) as [_|]; [|lia].
  exists s1, w1. split; [reflexivity|]. split.
  - subst w1. cbn. apply lookup_insert_eq.
  - split; reflexivity.
Qed.

Lemma WriteData_refusal_empties_the_file_witness :
  exists s' w',
    WriteData little_endian buffer_bytes array_2x1x4 true
      (store_budget3, world_r9)
    = (Raise IOError_large_array, (s', w'))
    /\ files w' !! "r"%string = Some []
    /\ WriteFileHandle s' = Some {| wh_name := "r"; wh_pos := 0 |}
    /\ write_calls w' = write_calls world_r9.
Proof.
  apply (WriteData_refusal_empties_the_file little_endian buffer_bytes
           store_budget3 world_r9 array_2x1x4
           {| nd_dtype := np_uint8; nd_shape := [1; 4];
              nd_data := map Num [1; 2; 3; 4] |} "r" true);
    try reflexivity; vm_compute; reflexivity.
Defined.

(** ** A header *)

Lemma length_header_bytes (order : byteorder)
    (hdr : list (px_format * scalar)) :
  Forall (fun e => element_of (fst e) (snd e) = true) hdr ->
  Z.of_nat (length (header_bytes order hdr)) = header_size hdr.
Proof.
  unfold header_bytes, header_size.
  induction 1 as [|e hdr He _ IH]; [reflexivity|].
  cbn [map concat fold_right]. rewrite length_app, Nat2Z.inj_add, IH.
  destruct (unpack1_pack1 order (fst e) (snd e) He) as [_ [Hlen _]].
  rewrite Hlen.
  assert (0 < _data_depth (fst e)) by (destruct (fst e); reflexivity).
  lia.
Qed.

(** [OpenForWriting] with header records on a store that has no write
    handle: the file holds the packed records, and the handle is at
    their end. *)
Lemma OpenForWriting_header (order : byteorder) (self : MIfile) (w : world)
    (f : string) (fName : option string) (hdr : list (px_format * scalar)) :
  WriteFileHandle self = None -> or_else fName (FileName self) = Some f ->
  Forall (fun e => element_of (fst e) (snd e) = true) hdr ->
  exists s1 w1,
    OpenForWriting order fName (Some hdr) (self, w) = (Ok tt, (s1, w1))
    /\ appending s1 w1 f (header_bytes order hdr)
    /\ moved_write_handle self s1
    /\ same_but f w w1.
Proof.
  intros Hw Hf Hel. unfold OpenForWriting. unfold bind at 1.
  rewrite (open_wb_fresh self w f fName Hw Hf).
  set (s0 := set_handles self _ _ _). set (w0 := set_files w _).
  pose proof (appending_fresh self w f) as A0. fold s0 w0 in A0.
  unfold bind at 1, liftR at 1.
  rewrite (rmap_Ok _ (fun e => encode order (fst e) (snd e))).
  - destruct (handle_write_appends s0 w0 f [] (header_bytes order hdr) A0)
      as (s1 & w1 & E & A1 & M & _).
    unfold header_bytes in E. rewrite E. exists s1, w1.
    split; [reflexivity|]. split; [exact A1|]. split.
    + destruct M as [wh ->]. eexists. reflexivity.
    + eapply same_but_trans;
        [|eapply handle_write_same_but; [exact A0 | exact E]].
      split; [reflexivity|]. split; [reflexivity|].
      intros f' Hne. subst w0. cbn.
      now rewrite lookup_insert_ne by congruence.
  - eapply Forall_impl; [exact Hel|]. intros e He.
    now destruct (unpack1_pack1 order (fst e) (snd e) He) as [Hp _].
Qed.

(** X18. The round trip with a header.  On a store without write handle
    whose header length is the packed size of the records, opening for
    writing with these records, writing an array [X] of the declared
    shape that [WriteData] accepts, opening for reading and reading the
    declared frames gives back the values and the shape of [X]: the
    reads skip exactly the header that was written. *)
Theorem header_then_data_roundtrip (order : byteorder)
    (getsizeof : ndarray -> Z) (self : MIfile) (w : world)
    (hdr : list (px_format * scalar)) (X : ndarray) (f : string) :
  consistent self ->
  FileName self = Some f ->
  WriteFileHandle self = None ->
  Forall (fun e => element_of (fst e) (snd e) = true) hdr ->
  hdrSize self = header_size hdr ->
  0 <= ImgNumber self -> 0 <= ImgHeight self -> 0 <= ImgWidth self ->
  nd_shape X = Shape self ->
  nd_size X = prod (Shape self) ->
  Forall (fun v => element_of (PixelFormat self) v = true) (nd_data X) ->
  within_budget getsizeof self X ->
  reconstructs
    (answer (write_with_header order getsizeof hdr X (ImgNumber self))
       self w) X.
Proof.
  intros Hcons Hf Hwh Hhdr Hsz Hn Hh Hw Hshape Hsize Hel Hfit.
  pose proof Hcons as (HS & Hpx & Hd & Ht).
  rewrite HS in Hshape, Hsize.
  assert (Hprod : prod [ImgNumber self; ImgHeight self; ImgWidth self]
                  = ImgNumber self * prod [ImgHeight self; ImgWidth self])
    by reflexivity.
  assert (Hrest : prod [ImgHeight self; ImgWidth self] = PxPerImg self)
    by (rewrite Hpx; unfold prod; simpl; lia).
  assert (Hcount : Z.of_nat (length (nd_data X))
                   = ImgNumber self * PxPerImg self)
    by (rewrite <- Hrest, <- Hprod; exact Hsize).
  destruct (OpenForWriting_header order self w f None hdr Hwh Hf Hhdr)
    as (s1 & w1 & E1 & A1 & M1 & _).
  assert (Hs1 : exists wh, s1 = set_handles self (ReadFileHandle self) wh
                                  (ReadingFileName self)) by exact M1.
  destruct Hs1 as [wh Es1].
  destruct (WriteData_appending order getsizeof s1 w1 X f
              (header_bytes order hdr) (ImgNumber self)
              [ImgHeight self; ImgWidth self] true A1 Hshape Hn
              ltac:(rewrite Hrest, Hpx; nia) ltac:(now rewrite <- Hprod))
    as (s2 & w2 & E2 & A2 & _ & _).
  { rewrite Es1. exact Hel. }
  { rewrite Es1. exact Hfit. }
  rewrite Es1 in E2, A2.
  cbn [PixelFormat ReadingFileName set_handles] in E2, A2.
  set (bytes := array_bytes order (PixelFormat self) X) in *.
  set (s3 := set_handles _ None None (ReadingFileName self)) in E2.
  set (s4 := set_handles s3 (Some {| rh_name := f; rh_pos := 0 |}) None
               (Some f)).
  destruct A2 as [_ Hfile].
  assert (Hlenh : Z.of_nat (length (header_bytes order hdr)) = hdrSize self)
    by (rewrite Hsz; now apply length_header_bytes).
  assert (Hlenb : Z.of_nat (length bytes)
                  = ImgNumber self * PxPerImg self * PixelDepth self).
  { subst bytes. unfold array_bytes. rewrite length_encoded by exact Hel.
    rewrite Hcount, Hd. reflexivity. }
  assert (Hrun : answer (write_with_header order getsizeof hdr X
                           (ImgNumber self)) self w
                 = answer (GetStack order 0 (ImgNumber self)) s4 w2).
  { unfold answer, write_with_header. unfold bind at 1. rewrite E1.
    unfold bind at 1. rewrite <- Es1 in E2. rewrite E2.
    unfold bind at 1. unfold OpenForReading.
    change (ReadFileHandle s3) with (@None rhandle).
    change (or_else None (FileName s3)) with (FileName self).
    rewrite Hf, Hfile. reflexivity. }
  rewrite Hrun.
  assert (Hhdr0 : 0 <= hdrSize self) by lia.
  rewrite (GetStack_ok order s4 w2 {| rh_name := f; rh_pos := 0 |}).
  - eexists. split; [reflexivity|]. cbn [nd_shape nd_data].
    split; [symmetry; exact Hshape|].
    unfold pixels_at, _get_offset, file_content. cbn [rh_name].
    rewrite Hfile. cbn [default]. unfold id.
    change (hdrSize s4) with (hdrSize self).
    change (PxPerImg s4) with (PxPerImg self).
    change (PixelDepth s4) with (PixelDepth self).
    change (PixelFormat s4) with (PixelFormat self).
    change (ImgNumber s4) with (ImgNumber self).
    change (ImgWidth s4) with (ImgWidth self).
    replace (Z.to_nat (hdrSize self
                       + (0 * PxPerImg self + 0 * ImgWidth self + 0)
                         * PixelDepth self))
      with (length (header_bytes order hdr)) by lia.
    rewrite drop_app_length. rewrite take_ge by lia.
    replace (Z.to_nat (ImgNumber self * PxPerImg self))
      with (length (nd_data X)) by lia.
    rewrite Hd. subst bytes. now apply unpack_encoded.
  - reflexivity.
  - exact Hcons.
  - exact Hhdr0.
  - exact Hh.
  - exact Hw.
  - lia.
  - exact Hn.
  - unfold _get_offset, file_content. cbn [rh_name]. rewrite Hfile.
    cbn [default]. unfold id.
    change (hdrSize s4) with (hdrSize self).
    change (PxPerImg s4) with (PxPerImg self).
    change (PixelDepth s4) with (PixelDepth self).
    change (ImgNumber s4) with (ImgNumber self).
    change (ImgWidth s4) with (ImgWidth self).
    rewrite length_app. lia.
Qed.

Lemma header_then_data_roundtrip_witness :
  reconstructs
    (answer (write_with_header big_endian buffer_bytes
               [(Fh, Num (-2)); (FB, Num 200)] array_i16 3)
       (new_MIfile "h" (metadata 3 [3; 1; 2] Fh 100)) world_abc)
    array_i16.
Proof.
  apply (header_then_data_roundtrip big_endian buffer_bytes
           (new_MIfile "h" (metadata 3 [3; 1; 2] Fh 100)) world_abc
           [(Fh, Num (-2)); (FB, Num 200)] array_i16 "h");
    [ repeat split
    | reflexivity
    | reflexivity
    | repeat constructor
    | vm_compute; reflexivity
    | vm_compute; discriminate
    | vm_compute; discriminate
    | vm_compute; discriminate
    | reflexivity
    | vm_compute; reflexivity
    | repeat constructor
    | left; vm_compute; discriminate ].
Defined.
